(** * Airweave search client and AI enhancement service

    A shallow embedding of [AirweaveClient] (constructor, setters, search,
    makeSearchRequest, transformResponse, listCollections, testConnection),
    of [AIService] (enhanceQuery, summarizeResults, reRankResults,
    enhancedSearch), of the configuration module (getEnv, the maximum of
    results, isConfigValid, maskApiKey) and of the commands of the
    terminal interface that touch the client, together with the part of
    the JavaScript runtime these functions lean on: strings, numbers,
    truthiness, [String()], [Number()], [parseInt], [JSON.stringify],
    [JSON.parse], [trim] and the two regular expressions of the service.

    Conventions.
    - A JavaScript string is a list of UTF-16 code units ([text]); source
      literals are written [js "..."].
    - A JavaScript number is [NaN], an infinity, or a finite signed decimal
      [m * 10^e] kept in lowest terms ([m] has no trailing zero).  A finite
      double is represented by the decimal that [Number.prototype.toString]
      prints for it.  A literal of at most 15 significant digits, and every
      integer up to 2^53, is such a decimal and is read exactly as the
      program reads it; the rounding of longer literals to the nearest
      double and their overflow are not modelled, and a theorem that
      depends on the value of a literal is stated within these bounds.
    - A value read from a property is [option JSON]: [None] is [undefined].
    - Code that can throw lives in [Outcome]; code that also talks to the
      network or reads the clock lives in the monad [M] over [World].
    - Console output is a diagnostic trace and is left out. *)

From Stdlib Require Import Ascii String List NArith ZArith Bool Lia Permutation.
From Stdlib Require Import Finite DecimalPos.
From Stdlib Require DecimalN DecimalFacts.
Import ListNotations.

Local Open Scope N_scope.
Local Open Scope list_scope.

(* ===================================================================== *)
(** * Strings                                                            *)
(* ===================================================================== *)

Definition char := N.
Definition text := list char.

Definition ch (a : ascii) : char := N_of_ascii a.
Definition js (s : string) : text := map N_of_ascii (list_ascii_of_string s).

(** A literal in which every single quote stands for a double quote. *)
Definition jq (s : string) : text :=
  map (fun c => if c =? ch "'" then 0x22 else c) (js s).

Arguments ch : simpl never.
Arguments js : simpl never.
Arguments jq : simpl never.

Fixpoint text_eqb (a b : text) : bool :=
  match a, b with
  | [], [] => true
  | x :: a', y :: b' => (x =? y) && text_eqb a' b'
  | _, _ => false
  end.

Fixpoint dropWhile {A} (p : A -> bool) (l : list A) : list A :=
  match l with
  | x :: r => if p x then dropWhile p r else l
  | [] => []
  end.

(** WhiteSpace and LineTerminator code units: what [trim], the regular
    expression class [\s] and [Number()] treat as blank. *)
Definition isWhiteSpace (c : char) : bool :=
  (c =? 0x9) || (c =? 0xA) || (c =? 0xB) || (c =? 0xC) || (c =? 0xD) ||
  (c =? 0x20) || (c =? 0xA0) || (c =? 0x1680) ||
  ((0x2000 <=? c) && (c <=? 0x200A)) ||
  (c =? 0x2028) || (c =? 0x2029) || (c =? 0x202F) || (c =? 0x205F) ||
  (c =? 0x3000) || (c =? 0xFEFF).

(** The four blanks of the JSON grammar. *)
Definition isJSONWhiteSpace (c : char) : bool :=
  (c =? 0x9) || (c =? 0xA) || (c =? 0xD) || (c =? 0x20).

(** The regular expression class [\d]. *)
Definition isDigit (c : char) : bool := (0x30 <=? c) && (c <=? 0x39).

(** [String.prototype.trim]. *)
Definition trim (s : text) : text :=
  rev (dropWhile isWhiteSpace (rev (dropWhile isWhiteSpace s))).

(** [xs.join(sep)] on strings. *)
Fixpoint join (sep : text) (xs : list text) : text :=
  match xs with
  | [] => []
  | [x] => x
  | x :: r => x ++ sep ++ join sep r
  end.

(** Decimal digits of a natural number, most significant first. *)
Fixpoint digits_of_uint (u : Decimal.uint) : text :=
  match u with
  | Decimal.Nil => []
  | Decimal.D0 r => 0x30 :: digits_of_uint r
  | Decimal.D1 r => 0x31 :: digits_of_uint r
  | Decimal.D2 r => 0x32 :: digits_of_uint r
  | Decimal.D3 r => 0x33 :: digits_of_uint r
  | Decimal.D4 r => 0x34 :: digits_of_uint r
  | Decimal.D5 r => 0x35 :: digits_of_uint r
  | Decimal.D6 r => 0x36 :: digits_of_uint r
  | Decimal.D7 r => 0x37 :: digits_of_uint r
  | Decimal.D8 r => 0x38 :: digits_of_uint r
  | Decimal.D9 r => 0x39 :: digits_of_uint r
  end.

Definition N_digits (n : N) : text := digits_of_uint (N.to_uint n).

(** Value of a run of digits in the given radix (no validation). *)
Definition digitValue (c : char) : N :=
  if isDigit c then c - 0x30
  else if (0x61 <=? c) && (c <=? 0x66) then c - 0x57
  else if (0x41 <=? c) && (c <=? 0x46) then c - 0x37
  else 0.

Definition digits_value (radix : N) (ds : text) : N :=
  fold_left (fun acc c => acc * radix + digitValue c) ds 0.

(** Longest prefix of decimal digits, and what follows it. *)
Fixpoint span_digits (s : text) : text * text :=
  match s with
  | c :: r => if isDigit c then let '(ds, rest) := span_digits r in (c :: ds, rest)
              else ([], s)
  | [] => ([], [])
  end.

(* ===================================================================== *)
(** * Numbers                                                            *)
(* ===================================================================== *)

Inductive number :=
  | NaN
  | Infinity (negative : bool)
  | Finite (negative : bool) (mantissa : N) (exponent : Z).

(** Trailing zeros of the digit string move into the exponent. *)
Fixpoint drop_zeros (rds : text) (e : Z) : text * Z :=
  match rds with
  | c :: r => if c =? ch "0" then drop_zeros r (e + 1)%Z else (rds, e)
  | [] => ([], 0%Z)
  end.

Definition mk_finite (neg : bool) (ds : text) (e : Z) : number :=
  let '(rds, e') := drop_zeros (rev ds) e in
  Finite neg (digits_value 10 (rev rds)) e'.

Definition number_of_N (n : N) : number := mk_finite false (N_digits n) 0.

Definition number_of_nat (n : nat) : number := number_of_N (N.of_nat n).

(** The integer a number denotes when it is a non-negative integer
    (the array indices are among these); [-0] reads as [0]. *)
Definition number_to_index (x : number) : option N :=
  match x with
  | Finite neg m e =>
      if m =? 0 then Some 0
      else if neg then None
      else if (0 <=? e)%Z then Some (m * 10 ^ Z.to_N e)
      else None
  | _ => None
  end.

(** [Number::toString] in radix 10. *)
Definition NumberToString (x : number) : text :=
  match x with
  | NaN => js "NaN"
  | Infinity neg => (if neg then js "-" else []) ++ js "Infinity"
  | Finite neg m e =>
      if m =? 0 then js "0" else
      let s := N_digits m in
      let k := Z.of_nat (length s) in
      let n := (k + e)%Z in
      (if neg then js "-" else []) ++
      if ((k <=? n) && (n <=? 21))%Z then
        s ++ repeat (ch "0") (Z.to_nat (n - k))
      else if ((0 <? n) && (n <=? 21))%Z then
        firstn (Z.to_nat n) s ++ js "." ++ skipn (Z.to_nat n) s
      else if ((-6 <? n) && (n <=? 0))%Z then
        js "0." ++ repeat (ch "0") (Z.to_nat (- n)) ++ s
      else
        let x := (n - 1)%Z in
        let expo := (if (x <? 0)%Z then js "e-" else js "e+") ++ N_digits (Z.abs_N x) in
        match s with
        | [] => []
        | [d] => [d] ++ expo
        | d :: rest => [d] ++ js "." ++ rest ++ expo
        end
  end.

(** The exponent part [[eE][+-]?digits] of a decimal literal, when one
    starts here; [None] when the letter is not followed by digits. *)
Definition scan_exponent (s : text) : option (Z * text) :=
  match s with
  | c :: r =>
      if (c =? ch "e") || (c =? ch "E") then
        let '(neg, r1) :=
          match r with
          | sg :: r' => if sg =? ch "-" then (true, r')
                        else if sg =? ch "+" then (false, r') else (false, r)
          | [] => (false, r)
          end in
        let '(ds, r2) := span_digits r1 in
        match ds with
        | [] => None
        | _ => let v := Z.of_N (digits_value 10 ds) in
               Some ((if neg then - v else v)%Z, r2)
        end
      else Some (0%Z, s)
  | [] => Some (0%Z, [])
  end.

Record decimal_literal := {
  int_part : text;
  has_point : bool;
  frac_part : text;
  expo : Z
}.

(** Splits a whole string into integer digits, an optional point with
    fraction digits, and an optional exponent. *)
Definition scan_decimal (s : text) : option decimal_literal :=
  let '(ip, r) := span_digits s in
  let '(dot, fp, r1) :=
    match r with
    | c :: r' => if c =? ch "." then let '(fp, r'') := span_digits r' in (true, fp, r'')
                 else (false, [], r)
    | [] => (false, [], [])
    end in
  match scan_exponent r1 with
  | Some (x, []) => Some {| int_part := ip; has_point := dot; frac_part := fp; expo := x |}
  | _ => None
  end.

Definition decimal_value (neg : bool) (d : decimal_literal) : number :=
  mk_finite neg (int_part d ++ frac_part d) (expo d - Z.of_nat (length (frac_part d)))%Z.

(** A number of the JSON grammar: an optional minus sign, an integer part
    without superfluous leading zero, an optional fraction with at least
    one digit, an optional exponent.  The value is the decimal as it is
    written: it is the number the program reads for a literal of at most
    15 significant digits and for an integer up to 2^53; rounding to the
    nearest double, overflow to an infinity and underflow to zero, which
    longer or larger literals undergo, are not modelled. *)
Definition json_number (w : text) : option number :=
  let '(neg, u) :=
    match w with
    | c :: r => if c =? ch "-" then (true, r) else (false, w)
    | [] => (false, w)
    end in
  match scan_decimal u with
  | Some d =>
      let int_ok :=
        match int_part d with
        | [] => false
        | [_] => true
        | c :: _ => negb (c =? ch "0")
        end in
      let frac_ok := negb (has_point d) || negb (Nat.eqb (length (frac_part d)) 0) in
      if int_ok && frac_ok then Some (decimal_value neg d) else None
  | None => None
  end.

(** Digits of a radix-prefixed integer literal ([0x..], [0o..], [0b..]). *)
Definition radix_literal (s : text) : option number :=
  match s with
  | z :: p :: ds =>
      if z =? ch "0" then
        let radix :=
          if (p =? ch "x") || (p =? ch "X") then 16
          else if (p =? ch "o") || (p =? ch "O") then 8
          else if (p =? ch "b") || (p =? ch "B") then 2
          else 0 in
        let is_digit c :=
          if radix =? 16 then isDigit c || ((0x61 <=? c) && (c <=? 0x66)) || ((0x41 <=? c) && (c <=? 0x46))
          else isDigit c && (digitValue c <? radix) in
        if negb (radix =? 0) && negb (Nat.eqb (length ds) 0) && forallb is_digit ds
        then Some (number_of_N (digits_value radix ds))
        else None
      else None
  | _ => None
  end.

(** [StringToNumber]: what [Number(s)] returns for a string.  A decimal
    literal is read as it is written, which is exact for at most 15
    significant digits and for integers up to 2^53; rounding, overflow
    and underflow of other literals are not modelled. *)
Definition StringToNumber (s : text) : number :=
  let t := trim s in
  match t with
  | [] => Finite false 0 0
  | _ =>
    match radix_literal t with
    | Some n => n
    | None =>
      let '(neg, u) :=
        match t with
        | c :: r => if c =? ch "-" then (true, r)
                    else if c =? ch "+" then (false, r) else (false, t)
        | [] => (false, t)
        end in
      if text_eqb u (js "Infinity") then Infinity neg
      else
        match scan_decimal u with
        | Some d =>
            let digits_ok :=
              negb (Nat.eqb (length (int_part d)) 0) ||
              (has_point d && negb (Nat.eqb (length (frac_part d)) 0)) in
            if digits_ok then decimal_value neg d else NaN
        | None => NaN
        end
    end
  end.

(** [parseInt(s, 10)]: leading blanks are skipped, a sign is read, then
    the longest run of decimal digits; what follows the digits is
    ignored, and without a digit the result is [NaN].  The digits are
    read as they are written, which is exact up to 2^53; the rounding of
    a larger integer to a double and its overflow are not modelled. *)
Definition parseInt (s : text) : number :=
  let t := dropWhile isWhiteSpace s in
  let '(neg, u) :=
    match t with
    | c :: r => if c =? ch "-" then (true, r)
                else if c =? ch "+" then (false, r) else (false, t)
    | [] => (false, t)
    end in
  match fst (span_digits u) with
  | [] => NaN
  | ds => mk_finite neg ds 0
  end.

(* ===================================================================== *)
(** * JSON values and the coercions of the language                      *)
(* ===================================================================== *)

#[warnings="-register-all"] Inductive JSON :=
  | JNull
  | JBool (b : bool)
  | JNumber (n : number)
  | JString (s : text)
  | JArray (elements : list JSON)
  | JObject (members : list (text * JSON)).

(** [ToBoolean]: [undefined], [null], [false], [0], [-0], [NaN] and the
    empty string are falsy; everything else, arrays and objects included,
    is truthy. *)
Definition truthy (v : option JSON) : bool :=
  match v with
  | None => false
  | Some JNull => false
  | Some (JBool b) => b
  | Some (JNumber NaN) => false
  | Some (JNumber (Infinity _)) => true
  | Some (JNumber (Finite _ m _)) => negb (m =? 0)
  | Some (JString s) => negb (Nat.eqb (length s) 0)
  | Some (JArray _) => true
  | Some (JObject _) => true
  end.

(** [a || b]. *)
Definition or_else (a b : option JSON) : option JSON :=
  if truthy a then a else b.

Infix "|||" := or_else (at level 50, left associativity).

(** The string that [String(v)] returns for a JSON value, when it returns
    one ([convertible] below tells when): arrays join their elements with
    commas, [null] elements printing as nothing; objects print as
    ["[object Object]"]. *)
Fixpoint ToString (v : JSON) : text :=
  match v with
  | JNull => js "null"
  | JBool true => js "true"
  | JBool false => js "false"
  | JNumber n => NumberToString n
  | JString s => s
  | JArray l =>
      join (js ",") (map (fun x => match x with JNull => [] | _ => ToString x end) l)
  | JObject _ => js "[object Object]"
  end.

(** The number that [Number(v)] returns, when it returns one. *)
Definition Number_ (v : option JSON) : number :=
  match v with
  | None => NaN
  | Some JNull => Finite false 0 0
  | Some (JBool true) => Finite false 1 0
  | Some (JBool false) => Finite false 0 0
  | Some (JNumber n) => n
  | Some (JString s) => StringToNumber s
  | Some x => StringToNumber (ToString x)
  end.

(** Own-property read [obj.key] on a value that is not [null]: only
    objects carry the keys the client asks for. *)
Fixpoint lookup (key : text) (members : list (text * JSON)) : option JSON :=
  match members with
  | [] => None
  | (k, v) :: r => if text_eqb k key then Some v else lookup key r
  end.

(** [String(v)] and [Number(v)] turn an object into a primitive value
    through its [toString] method.  In a value read from JSON a member
    named toString is never a function; it hides the method of the
    prototype, no primitive value is obtained, and the conversion throws
    a TypeError.  An array converts each of its elements, but for [null],
    in the same way. *)
Fixpoint convertible (v : JSON) : bool :=
  match v with
  | JObject ms =>
      match lookup (js "toString") ms with
      | Some _ => false
      | None => true
      end
  | JArray l => forallb convertible l
  | _ => true
  end.

(* ===================================================================== *)
(** * JSON.stringify                                                     *)
(* ===================================================================== *)

Definition hexDigit (d : N) : char := if d <? 10 then 0x30 + d else 0x57 + d.

Definition hex4 (c : char) : text :=
  [hexDigit (c / 4096 mod 16); hexDigit (c / 256 mod 16);
   hexDigit (c / 16 mod 16); hexDigit (c mod 16)].

Definition isHighSurrogate (c : char) : bool := (0xD800 <=? c) && (c <=? 0xDBFF).
Definition isLowSurrogate (c : char) : bool := (0xDC00 <=? c) && (c <=? 0xDFFF).

(** The body of [QuoteJSONString]. *)
Fixpoint quote_chars (s : text) : text :=
  match s with
  | [] => []
  | c :: r =>
      if c =? 0x8 then js "\b" ++ quote_chars r
      else if c =? 0x9 then js "\t" ++ quote_chars r
      else if c =? 0xA then js "\n" ++ quote_chars r
      else if c =? 0xC then js "\f" ++ quote_chars r
      else if c =? 0xD then js "\r" ++ quote_chars r
      else if c =? 0x22 then js "\" ++ [c] ++ quote_chars r
      else if c =? 0x5C then js "\\" ++ quote_chars r
      else if c <? 0x20 then js "\u" ++ hex4 c ++ quote_chars r
      else if isHighSurrogate c then
        match r with
        | d :: r' => if isLowSurrogate d then c :: d :: quote_chars r'
                     else js "\u" ++ hex4 c ++ quote_chars r
        | [] => js "\u" ++ hex4 c
        end
      else if isLowSurrogate c then js "\u" ++ hex4 c ++ quote_chars r
      else c :: quote_chars r
  end.

Definition quote (s : text) : text := [0x22] ++ quote_chars s ++ [0x22].

(** [JSON.stringify(v)] without indentation. *)
Fixpoint JSON_stringify (v : JSON) : text :=
  match v with
  | JNull => js "null"
  | JBool true => js "true"
  | JBool false => js "false"
  | JNumber (Finite neg m e) => NumberToString (Finite neg m e)
  | JNumber _ => js "null"
  | JString s => quote s
  | JArray l => js "[" ++ join (js ",") (map JSON_stringify l) ++ js "]"
  | JObject ms =>
      js "{" ++
      join (js ",") (map (fun kv => quote (fst kv) ++ js ":" ++ JSON_stringify (snd kv)) ms) ++
      js "}"
  end.

(* ===================================================================== *)
(** * JSON.parse                                                         *)
(* ===================================================================== *)

Inductive token :=
  | TLBrace | TRBrace | TLBracket | TRBracket | TColon | TComma
  | TString (s : text)
  | TNumber (n : number)
  | TTrue | TFalse | TNull.

Definition punctuation (c : char) : option token :=
  if c =? ch "{" then Some TLBrace
  else if c =? ch "}" then Some TRBrace
  else if c =? ch "[" then Some TLBracket
  else if c =? ch "]" then Some TRBracket
  else if c =? ch ":" then Some TColon
  else if c =? ch "," then Some TComma
  else None.

(** A maximal run of characters that are neither blanks, punctuation nor
    quotes must be a literal name or a number. *)
Definition word_token (w : text) : option token :=
  if text_eqb w (js "true") then Some TTrue
  else if text_eqb w (js "false") then Some TFalse
  else if text_eqb w (js "null") then Some TNull
  else match json_number w with
       | Some n => Some (TNumber n)
       | None => None
       end.

Definition isHexDigit (c : char) : bool :=
  isDigit c || ((0x61 <=? c) && (c <=? 0x66)) || ((0x41 <=? c) && (c <=? 0x46)).

(** Lexer states; the accumulated characters are kept in reverse. *)
Inductive lex_state :=
  | LIdle
  | LWord (acc : text)
  | LString (acc : text)
  | LEscape (acc : text)
  | LUnicode (acc : text) (remaining : nat) (value : N).

(** One character read in a given state; the tokens read so far are
    kept in reverse. *)
Definition lex_char (st : lex_state) (out : list token) (c : char)
  : option (lex_state * list token) :=
  match st with
  | LIdle =>
      if isJSONWhiteSpace c then Some (LIdle, out)
      else match punctuation c with
           | Some t => Some (LIdle, t :: out)
           | None => if c =? 0x22 then Some (LString [], out)
                     else Some (LWord [c], out)
           end
  | LWord acc =>
      if isJSONWhiteSpace c || (c =? 0x22) ||
         match punctuation c with Some _ => true | None => false end
      then match word_token (rev acc) with
           | Some t =>
               if isJSONWhiteSpace c then Some (LIdle, t :: out)
               else match punctuation c with
                    | Some p => Some (LIdle, p :: t :: out)
                    | None => Some (LString [], t :: out)
                    end
           | None => None
           end
      else Some (LWord (c :: acc), out)
  | LString acc =>
      if c =? 0x22 then Some (LIdle, TString (rev acc) :: out)
      else if c =? 0x5C then Some (LEscape acc, out)
      else if c <? 0x20 then None
      else Some (LString (c :: acc), out)
  | LEscape acc =>
      if (c =? 0x22) || (c =? 0x5C) || (c =? ch "/") then Some (LString (c :: acc), out)
      else if c =? ch "b" then Some (LString (0x8 :: acc), out)
      else if c =? ch "f" then Some (LString (0xC :: acc), out)
      else if c =? ch "n" then Some (LString (0xA :: acc), out)
      else if c =? ch "r" then Some (LString (0xD :: acc), out)
      else if c =? ch "t" then Some (LString (0x9 :: acc), out)
      else if c =? ch "u" then Some (LUnicode acc 3 0, out)
      else None
  | LUnicode acc k v =>
      if isHexDigit c then
        let v' := v * 16 + digitValue c in
        match k with
        | O => Some (LString (v' :: acc), out)
        | S k' => Some (LUnicode acc k' v', out)
        end
      else None
  end.

(** The end of the text: a pending word is closed, an open string is an
    error. *)
Definition lex_end (st : lex_state) (out : list token) : option (list token) :=
  match st with
  | LIdle => Some (rev out)
  | LWord acc =>
      match word_token (rev acc) with
      | Some t => Some (rev (t :: out))
      | None => None
      end
  | _ => None
  end.

Fixpoint lex (st : lex_state) (out : list token) (s : text) : option (list token) :=
  match s with
  | [] => lex_end st out
  | c :: r =>
      match lex_char st out c with
      | Some (st', out') => lex st' out' r
      | None => None
      end
  end.

(** Keys that are array indices come first in an object, in ascending
    order; the other keys follow in insertion order. *)
Definition array_index (k : text) : option N :=
  match k with
  | [] => None
  | c :: r =>
      if forallb isDigit k && ((Nat.eqb (length r) 0) || negb (c =? ch "0")) &&
         (digits_value 10 k <=? 4294967294)
      then Some (digits_value 10 k) else None
  end.

Fixpoint obj_replace (k : text) (v : JSON) (ms : list (text * JSON)) : option (list (text * JSON)) :=
  match ms with
  | [] => None
  | (k', v') :: r =>
      if text_eqb k' k then Some ((k', v) :: r)
      else match obj_replace k v r with
           | Some r' => Some ((k', v') :: r')
           | None => None
           end
  end.

Fixpoint obj_insert_index (i : N) (k : text) (v : JSON) (ms : list (text * JSON)) : list (text * JSON) :=
  match ms with
  | [] => [(k, v)]
  | (k', v') :: r =>
      match array_index k' with
      | Some j => if j <? i then (k', v') :: obj_insert_index i k v r
                  else (k, v) :: ms
      | None => (k, v) :: ms
      end
  end.

(** [obj[k] = v] as [JSON.parse] performs it: a repeated key keeps its
    place and takes the new value. *)
Definition obj_set (k : text) (v : JSON) (ms : list (text * JSON)) : list (text * JSON) :=
  match obj_replace k v ms with
  | Some ms' => ms'
  | None =>
      match array_index k with
      | Some i => obj_insert_index i k v ms
      | None => ms ++ [(k, v)]
      end
  end.

(** The enclosing containers of the value being read. *)
Inductive frame :=
  | FArray (elements : list JSON)                    (* reversed *)
  | FObject (members : list (text * JSON)) (key : text).

Inductive parse_state :=
  | SValue (ctx : list frame)
  | SArrayOpen (ctx : list frame)
  | SArray (elements : list JSON) (ctx : list frame)
  | SObjectOpen (ctx : list frame)
  | SObject (members : list (text * JSON)) (ctx : list frame)
  | SKey (members : list (text * JSON)) (ctx : list frame)
  | SColon (members : list (text * JSON)) (key : text) (ctx : list frame)
  | SEnd (v : JSON).

Definition complete (v : JSON) (ctx : list frame) : parse_state :=
  match ctx with
  | [] => SEnd v
  | FArray es :: ctx' => SArray (v :: es) ctx'
  | FObject ms k :: ctx' => SObject (obj_set k v ms) ctx'
  end.

Definition start_value (t : token) (ctx : list frame) : option parse_state :=
  match t with
  | TLBracket => Some (SArrayOpen ctx)
  | TLBrace => Some (SObjectOpen ctx)
  | TString s => Some (complete (JString s) ctx)
  | TNumber n => Some (complete (JNumber n) ctx)
  | TTrue => Some (complete (JBool true) ctx)
  | TFalse => Some (complete (JBool false) ctx)
  | TNull => Some (complete JNull ctx)
  | _ => None
  end.

Definition parse_step (st : parse_state) (t : token) : option parse_state :=
  match st with
  | SValue ctx => start_value t ctx
  | SArrayOpen ctx =>
      match t with
      | TRBracket => Some (complete (JArray []) ctx)
      | _ => start_value t (FArray [] :: ctx)
      end
  | SArray es ctx =>
      match t with
      | TComma => Some (SValue (FArray es :: ctx))
      | TRBracket => Some (complete (JArray (rev es)) ctx)
      | _ => None
      end
  | SObjectOpen ctx =>
      match t with
      | TRBrace => Some (complete (JObject []) ctx)
      | TString k => Some (SColon [] k ctx)
      | _ => None
      end
  | SObject ms ctx =>
      match t with
      | TComma => Some (SKey ms ctx)
      | TRBrace => Some (complete (JObject ms) ctx)
      | _ => None
      end
  | SKey ms ctx =>
      match t with
      | TString k => Some (SColon ms k ctx)
      | _ => None
      end
  | SColon ms k ctx =>
      match t with
      | TColon => Some (SValue (FObject ms k :: ctx))
      | _ => None
      end
  | SEnd _ => None
  end.

Fixpoint parse_tokens (st : parse_state) (ts : list token) : option parse_state :=
  match ts with
  | [] => Some st
  | t :: r =>
      match parse_step st t with
      | Some st' => parse_tokens st' r
      | None => None
      end
  end.

(** [JSON.parse(s)]; [None] stands for the [SyntaxError] it throws.  The
    numbers of the text are read by [json_number], exactly as they are
    written. *)
Definition JSON_parse (s : text) : option JSON :=
  match lex LIdle [] s with
  | Some ts =>
      match parse_tokens (SValue []) ts with
      | Some (SEnd v) => Some v
      | _ => None
      end
  | None => None
  end.

(* ===================================================================== *)
(** * Exceptions and effects                                             *)
(* ===================================================================== *)

(** Errors the runtime raises by itself; the wording of their message is
    left to the engine. *)
Inductive EngineError :=
  | NullPropertyRead (property : text)     (* TypeError: reading a property of null *)
  | JSONSyntaxError (input : text)         (* SyntaxError of JSON.parse *)
  | NotCallable (property : text)          (* TypeError: calling what is no function *)
  | NoPrimitiveValue.                      (* TypeError: an object has no primitive value *)

Inductive Exception :=
  | Error_ (message : text)                (* an Error object with this message *)
  | Engine (e : EngineError)               (* an Error object raised by the runtime *)
  | NotAnError.                            (* a thrown value that is no Error *)

Inductive Outcome (A : Type) :=
  | Returned (a : A)
  | Thrown (e : Exception).

Arguments Returned {A} a.
Arguments Thrown {A} e.

Class Monad (m : Type -> Type) := {
  ret : forall {A}, A -> m A;
  bind : forall {A B}, m A -> (A -> m B) -> m B
}.

Class MonadThrow (m : Type -> Type) := {
  throw : forall {A}, Exception -> m A;
  try_catch : forall {A}, m A -> (Exception -> m A) -> m A
}.

Declare Scope monad_scope.
Delimit Scope monad_scope with monad.
Notation "x <- c1 ;; c2" := (bind c1 (fun x => c2))
  (at level 61, c1 at next level, right associativity) : monad_scope.
Local Open Scope monad_scope.

#[export] Instance Monad_Outcome : Monad Outcome := {
  ret := fun A a => Returned a;
  bind := fun A B c k =>
    match c with
    | Returned a => k a
    | Thrown e => Thrown e
    end
}.

#[export] Instance MonadThrow_Outcome : MonadThrow Outcome := {
  throw := fun A e => Thrown e;
  try_catch := fun A c handler =>
    match c with
    | Returned a => Returned a
    | Thrown e => handler e
    end
}.

(** [JSON.parse] as a call that may throw. *)
Definition JSON_parse_or_throw (s : text) : Outcome JSON :=
  match JSON_parse s with
  | Some v => Returned v
  | None => Thrown (Engine (JSONSyntaxError s))
  end.

(** [String(v)] and [Number(v)] as calls that may throw. *)
Definition String_or_throw (v : JSON) : Outcome text :=
  if convertible v then Returned (ToString v) else Thrown (Engine NoPrimitiveValue).

Definition Number_or_throw (v : JSON) : Outcome number :=
  if convertible v then Returned (Number_ (Some v)) else Thrown (Engine NoPrimitiveValue).

(** The property read [v.key] for the names this program reads.  None of
    them is defined on a built-in prototype, so only the own members of
    an object give a value; reading a property of [null] throws. *)
Definition read (v : JSON) (key : string) : option JSON :=
  match v with
  | JObject ms => lookup (js key) ms
  | _ => None
  end.

Definition get (v : JSON) (key : string) : Outcome (option JSON) :=
  match v with
  | JNull => Thrown (Engine (NullPropertyRead (js key)))
  | _ => Returned (read v key)
  end.

(** [a || d] where [d] is a definite value. *)
Definition or_value (a : option JSON) (d : JSON) : JSON :=
  match a with
  | Some v => if truthy a then v else d
  | None => d
  end.

(** [!!s] on a string. *)
Definition nonEmpty (s : text) : bool := negb (Nat.eqb (length s) 0).

(** [a || d] where [a] is an optional string and [d] a string. *)
Definition or_text (a : option text) (d : text) : text :=
  match a with
  | Some s => if nonEmpty s then s else d
  | None => d
  end.

(* ===================================================================== *)
(** * Types (types/index)                                                *)
(* ===================================================================== *)

Inductive LLMProvider := google | openai | anthropic.
Inductive SearchType := hybrid | semantic | keyword.
Inductive OutputFormat := json | text_.

Definition SearchType_text (t : SearchType) : text :=
  match t with
  | hybrid => js "hybrid"
  | semantic => js "semantic"
  | keyword => js "keyword"
  end.

Record AppConfig := {
  airweaveApiKey : text;
  airweaveCollectionId : text;
  airweaveApiUrl : text;
  llmProvider : LLMProvider;
  googleApiKey : option text;
  openaiApiKey : option text;
  anthropicApiKey : option text;
  defaultSearchType : SearchType;
  maxResults : number;
  defaultOutputFormat : OutputFormat
}.

Record SearchOptions := {
  o_query : text;
  o_searchType : option SearchType;
  o_limit : option number;
  o_enhanceQuery : option bool
}.

(** The optional fields hold whatever the raw record held: the casts of
    the source check nothing. *)
Record SearchResult := {
  id : text;
  content : text;
  source : text;
  sourceType : text;
  score : number;
  metadata : option JSON;
  url : option JSON;
  title : option JSON;
  createdAt : option JSON;
  updatedAt : option JSON
}.

Record SearchResponse := {
  success : bool;
  query : text;
  enhancedQuery_ : option text;
  searchType : SearchType;
  results : list SearchResult;
  totalResults : nat;
  processingTime : option Z;
  error : option text
}.

(** The fields taken from the model's JSON keep the value found there. *)
Record QueryEnhancement := {
  originalQuery : text;
  enhancedQuery : JSON;
  keywords : JSON;
  intent : JSON
}.

Record ResultSummary := {
  summary : JSON;
  keyPoints : JSON;
  relevantTopics : JSON
}.

(* ===================================================================== *)
(** * The world outside: network, clock, engine                          *)
(* ===================================================================== *)

Record Request := {
  method : text;
  url_ : text;
  headers : list (text * text);
  body : text
}.

(** What the collaborator does with a request: the transport fails, or
    a response arrives with its status and its body. *)
Inductive Upstream :=
  | NetworkFailure (e : Exception)
  | HttpResponse (status : N) (statusText : text) (responseBody : text).

(** The [Response] object [fetch] resolves with. *)
Record Response := {
  status : N;
  statusText : text;
  responseBody : text
}.

Definition okStatus (status : N) : bool := (200 <=? status) && (status <=? 299).

(** [response.ok]. *)
Definition ok (response : Response) : bool := okStatus (status response).

Record World := {
  appConfig : AppConfig;
  network : Request -> Upstream;
  engineMessage : EngineError -> text;
  clock : nat -> Z;
  clockReads : nat;
  sent : list Request
}.

Definition M (A : Type) : Type := World -> Outcome A * World.

#[export] Instance Monad_M : Monad M := {
  ret := fun A a w => (Returned a, w);
  bind := fun A B c k w =>
    match c w with
    | (Returned a, w') => k a w'
    | (Thrown e, w') => (Thrown e, w')
    end
}.

#[export] Instance MonadThrow_M : MonadThrow M := {
  throw := fun A e w => (Thrown e, w);
  try_catch := fun A c handler w =>
    match c w with
    | (Returned a, w') => (Returned a, w')
    | (Thrown e, w') => handler e w'
    end
}.

Definition lift {A} (o : Outcome A) : M A := fun w => (o, w).

Definition getWorld : M World := fun w => (Returned w, w).

Definition tick (w : World) : World :=
  {| appConfig := appConfig w; network := network w; engineMessage := engineMessage w;
     clock := clock w; clockReads := S (clockReads w); sent := sent w |}.

Definition record_request (req : Request) (w : World) : World :=
  {| appConfig := appConfig w; network := network w; engineMessage := engineMessage w;
     clock := clock w; clockReads := clockReads w; sent := sent w ++ [req] |}.

(** [Date.now()]. *)
Definition Date_now : M Z := fun w => (Returned (clock w (clockReads w)), tick w).

(** [await fetch(url, init)]: the request goes out, then the promise
    settles. *)
Definition fetch (req : Request) : M Response := fun w =>
  match network w req with
  | NetworkFailure e => (Thrown e, record_request req w)
  | HttpResponse status statusText responseBody =>
      (Returned {| status := status; statusText := statusText; responseBody := responseBody |},
       record_request req w)
  end.

(** [error instanceof Error ? error.message : 'Unknown error occurred']. *)
Definition errorMessage (w : World) (e : Exception) : text :=
  match e with
  | Error_ m => m
  | Engine k => engineMessage w k
  | NotAnError => js "Unknown error occurred"
  end.

(* ===================================================================== *)
(** * AirweaveClient (lib/airweave)                                      *)
(* ===================================================================== *)

Module AirweaveClient.

Record t := {
  apiKey : text;
  baseUrl : text;
  collectionId : text
}.

(** [!!(this.apiKey && this.collectionId)]. *)
Definition isConfigured (this : t) : bool :=
  nonEmpty (apiKey this) && nonEmpty (collectionId this).

(** First half of [transformResponse]: where the raw results are taken
    from. *)
Definition rawResults (data : JSON) : list JSON :=
  match data with
  | JArray l => l
  | JObject _ =>
      match read data "results" with
      | Some (JArray l) => l
      | _ =>
      match read data "data" with
      | Some (JArray l) => l
      | _ =>
      match read data "items" with
      | Some (JArray l) => l
      | _ =>
      match read data "hits" with
      | Some (JArray l) => l
      | _ =>
      match read data "documents" with
      | Some (JArray l) => l
      | _ => []
      end end end end end
  | _ => []
  end.

(** The callback of [rawResults.map]: [obj.content] is the first property
    read and throws when [item] is [null]; on any other value every read
    succeeds.  The content is converted first, then the fields of the
    record in the order they are written; each conversion may throw. *)
Definition transformItem (item : JSON) (index : nat) : Outcome SearchResult :=
  match item with
  | JNull => Thrown (Engine (NullPropertyRead (js "content")))
  | _ =>
    content_ <- String_or_throw
                  (or_value (read item "content" ||| read item "text" ||| read item "body" |||
                             read item "document" ||| read item "page_content" |||
                             read item "chunk" ||| read item "data")
                            (JString (JSON_stringify item))) ;;
    id_ <- String_or_throw (or_value (read item "id" ||| read item "_id" ||| read item "entity_id")
                                     (JNumber (number_of_nat index))) ;;
    source_ <- String_or_throw
                 (or_value (read item "source" ||| read item "source_name" ||| read item "collection")
                           (JString (js "notion"))) ;;
    sourceType_ <- String_or_throw (or_value (read item "source_type" ||| read item "type")
                                             (JString (js "notion"))) ;;
    score_ <- Number_or_throw (or_value (read item "score" ||| read item "relevance_score" |||
                                         read item "_score" ||| read item "similarity")
                                        (JNumber (Finite false 1 0))) ;;
    Returned {|
      id := id_;
      content := content_;
      source := source_;
      sourceType := sourceType_;
      score := score_;
      metadata := read item "metadata";
      url := read item "url";
      title := read item "title" ||| read item "name";
      createdAt := read item "created_at" ||| read item "createdAt";
      updatedAt := read item "updated_at" ||| read item "updatedAt"
    |}
  end.

(** [xs.map((item, index) => ...)] with a callback that may throw: the
    first exception ends the whole call. *)
Fixpoint mapWithIndex {A B} (f : A -> nat -> Outcome B) (xs : list A) (index : nat)
  : Outcome (list B) :=
  match xs with
  | [] => Returned []
  | x :: r =>
      y <- f x index ;;
      ys <- mapWithIndex f r (S index) ;;
      Returned (y :: ys)
  end.

(** Returns the [results] field of the object the source returns. *)
Definition transformResponse (data : JSON) : Outcome (list SearchResult) :=
  mapWithIndex transformItem (rawResults data) 0.

Definition searchTypeOrHybrid (options : SearchOptions) : SearchType :=
  match o_searchType options with
  | Some st => st
  | None => hybrid
  end.

Definition searchUrl (this : t) : text :=
  baseUrl this ++ js "/collections/" ++ collectionId this ++ js "/search".

Definition searchRequest (this : t) (cfg : AppConfig) (options : SearchOptions) : Request :=
  let requestBody :=
    JObject [(js "query", JString (o_query options));
             (js "search_type", JString (SearchType_text (searchTypeOrHybrid options)));
             (js "limit", or_value (option_map JNumber (o_limit options))
                                   (JNumber (maxResults cfg)))] in
  {| method := js "POST";
     url_ := searchUrl this;
     headers := [(js "Content-Type", js "application/json"); (js "x-api-key", apiKey this)];
     body := JSON_stringify requestBody |}.

Definition makeSearchRequest (this : t) (options : SearchOptions) : M (list SearchResult) :=
  w <- getWorld ;;
  response <- fetch (searchRequest this (appConfig w) options) ;;
  if negb (ok response) then
    let errorText := responseBody response in
    throw (Error_ (js "Airweave API error (" ++ NumberToString (number_of_N (status response)) ++
                   js "): " ++ errorText))
  else
    data <- lift (JSON_parse_or_throw (responseBody response)) ;;
    lift (transformResponse data).

Definition search (this : t) (options : SearchOptions) : M SearchResponse :=
  startTime <- Date_now ;;
  if negb (isConfigured this) then
    ret {| success := false;
           query := o_query options;
           enhancedQuery_ := None;
           searchType := searchTypeOrHybrid options;
           results := [];
           totalResults := 0;
           processingTime := None;
           error := Some (js "Airweave client not configured. Please set API key and collection ID.") |}
  else
    try_catch
      (response <- makeSearchRequest this options ;;
       now <- Date_now ;;
       let processingTime := (now - startTime)%Z in
       ret {| success := true;
              query := o_query options;
              enhancedQuery_ := None;
              searchType := searchTypeOrHybrid options;
              results := response;
              totalResults := length response;
              processingTime := Some processingTime;
              error := None |})
      (fun error =>
         w <- getWorld ;;
         ret {| success := false;
                query := o_query options;
                enhancedQuery_ := None;
                searchType := searchTypeOrHybrid options;
                results := [];
                totalResults := 0;
                processingTime := None;
                error := Some (errorMessage w error) |}).

(** [new AirweaveClient(apiKey, collectionId, baseUrl)]: an argument that
    is missing or empty gives way to the configuration. *)
Definition new (cfg : AppConfig) (apiKey_ collectionId_ baseUrl_ : option text) : t :=
  {| apiKey := or_text apiKey_ (airweaveApiKey cfg);
     baseUrl := or_text baseUrl_ (airweaveApiUrl cfg);
     collectionId := or_text collectionId_ (airweaveCollectionId cfg) |}.

Definition setApiKey (this : t) (apiKey_ : text) : t :=
  {| apiKey := apiKey_; baseUrl := baseUrl this; collectionId := collectionId this |}.

Definition setCollectionId (this : t) (collectionId_ : text) : t :=
  {| apiKey := apiKey this; baseUrl := baseUrl this; collectionId := collectionId_ |}.

(** The request of [listCollections]; a GET request carries no body. *)
Definition collectionsRequest (this : t) : Request :=
  {| method := js "GET";
     url_ := baseUrl this ++ js "/collections";
     headers := [(js "Content-Type", js "application/json"); (js "x-api-key", apiKey this)];
     body := [] |}.

Definition listCollections (this : t) : M JSON :=
  response <- fetch (collectionsRequest this) ;;
  if negb (ok response) then
    let errorText := responseBody response in
    throw (Error_ (js "Failed to list collections: " ++
                   NumberToString (number_of_N (status response)) ++ js " - " ++ errorText))
  else
    data <- lift (JSON_parse_or_throw (responseBody response)) ;;
    ret data.

Record ConnectionTest := {
  success : bool;
  message : text
}.

Definition testConnection (this : t) : M ConnectionTest :=
  try_catch
    (collections <- listCollections this ;;
     ret {| success := true;
            message := js "Connected successfully. Found " ++
                       NumberToString (number_of_nat match collections with
                                                     | JArray l => length l
                                                     | _ => 0%nat
                                                     end) ++
                       js " collections." |})
    (fun error =>
       w <- getWorld ;;
       ret {| success := false;
              message := match error with
                         | Error_ m => m
                         | Engine k => engineMessage w k
                         | NotAnError => js "Connection failed"
                         end |}).

End AirweaveClient.

(* ===================================================================== *)
(** * AIService (services/ai-service)                                    *)
(* ===================================================================== *)

(** The outcome of the one [generateText] call of a stage is an argument
    of the stage: the text the model returns, or the rejection of the
    call.  The prompt only travels to the provider and is left out. *)

Module AIService.

Record t := {
  provider : LLMProvider;
  model : text
}.

(** [!!key] on an optional string. *)
Definition keyPresent (key : option text) : bool :=
  match key with
  | Some k => nonEmpty k
  | None => false
  end.

Definition isConfigured (cfg : AppConfig) (this : t) : bool :=
  match provider this with
  | google => keyPresent (googleApiKey cfg)
  | openai => keyPresent (openaiApiKey cfg)
  | anthropic => keyPresent (anthropicApiKey cfg)
  end.

(** Longest prefix of [s] that ends with [c]. *)
Fixpoint upto_last (c : char) (s : text) : option text :=
  match s with
  | [] => None
  | x :: r =>
      match upto_last c r with
      | Some p => Some (x :: p)
      | None => if x =? c then Some [x] else None
      end
  end.

(** [s.match(/\{[\s\S]*\}/)]: at the leftmost opening brace that has a
    closing brace after it, the greedy star runs to the last closing
    brace of the text. *)
Fixpoint match_object (s : text) : option text :=
  match s with
  | [] => None
  | x :: r =>
      if x =? ch "{" then
        match upto_last (ch "}") r with
        | Some p => Some (x :: p)
        | None => match_object r
        end
      else match_object r
  end.

(** The class [[\d\s,]]. *)
Definition isIndexChar (c : char) : bool :=
  isDigit c || isWhiteSpace c || (c =? ch ",").

(** Longest prefix made of class characters, and what follows it. *)
Fixpoint span_index_chars (s : text) : text * text :=
  match s with
  | c :: r => if isIndexChar c then let '(p, rest) := span_index_chars r in (c :: p, rest)
              else ([], s)
  | [] => ([], [])
  end.

(** [s.match(/\[[\d\s,]+\]/)]: the leftmost opening bracket followed by
    one or more class characters and then a closing bracket. *)
Fixpoint match_index_array (s : text) : option text :=
  match s with
  | [] => None
  | x :: r =>
      if x =? ch "[" then
        match span_index_chars r with
        | (b :: p, y :: _) =>
            if y =? ch "]" then Some (x :: (b :: p) ++ [y]) else match_index_array r
        | _ => match_index_array r
        end
      else match_index_array r
  end.

Definition identityEnhancement (userQuery : text) : QueryEnhancement :=
  {| originalQuery := userQuery;
     enhancedQuery := JString userQuery;
     keywords := JArray [];
     intent := JString (js "search") |}.

Definition enhanceQuery (cfg : AppConfig) (this : t) (userQuery : text)
    (generated : Outcome text) : Outcome QueryEnhancement :=
  if negb (isConfigured cfg this) then
    Returned {| originalQuery := userQuery;
                enhancedQuery := JString userQuery;
                keywords := JArray [];
                intent := JString (js "search") |}
  else
    try_catch
      (result <- generated ;;
       let responseText := trim result in
       match match_object responseText with
       | None => throw (Error_ (js "No JSON found in response"))
       | Some jsonMatch =>
           parsed <- JSON_parse_or_throw jsonMatch ;;
           enhanced_query <- get parsed "enhanced_query" ;;
           keywords_ <- get parsed "keywords" ;;
           intent_ <- get parsed "intent" ;;
           ret {| originalQuery := userQuery;
                  enhancedQuery := or_value enhanced_query (JString userQuery);
                  keywords := or_value keywords_ (JArray []);
                  intent := or_value intent_ (JString (js "search")) |}
       end)
      (fun _ =>
         Returned {| originalQuery := userQuery;
                     enhancedQuery := JString userQuery;
                     keywords := JArray [];
                     intent := JString (js "search") |}).

Definition summarizeResults (cfg : AppConfig) (this : t) (results : list SearchResult)
    (originalQuery : text) (generated : Outcome text) : Outcome ResultSummary :=
  if negb (isConfigured cfg this) || Nat.eqb (length results) 0 then
    Returned {| summary := JString (js "No results to summarize.");
                keyPoints := JArray [];
                relevantTopics := JArray [] |}
  else
    try_catch
      (result <- generated ;;
       let responseText := trim result in
       match match_object responseText with
       | None => throw (Error_ (js "No JSON found in response"))
       | Some jsonMatch =>
           parsed <- JSON_parse_or_throw jsonMatch ;;
           summary_ <- get parsed "summary" ;;
           key_points <- get parsed "key_points" ;;
           relevant_topics <- get parsed "relevant_topics" ;;
           ret {| summary := or_value summary_ (JString (js "Unable to generate summary."));
                  keyPoints := or_value key_points (JArray []);
                  relevantTopics := or_value relevant_topics (JArray []) |}
       end)
      (fun _ =>
         Returned {| summary := JString (js "Failed to generate summary.");
                     keyPoints := JArray [];
                     relevantTopics := JArray [] |}).

(** [const indices: number[] = JSON.parse(...)]: the annotation checks
    nothing.  The projection reads the parsed value as the list of array
    indices it denotes.  On any other value the stage is cut short by an
    exception, which its handler turns into the unchanged input;
    [parsed_match_is_index_array] below shows that this never happens on
    what the regular expression lets through. *)
Fixpoint as_indices_list (l : list JSON) : option (list N) :=
  match l with
  | [] => Some []
  | JNumber n :: r =>
      match number_to_index n, as_indices_list r with
      | Some i, Some is_ => Some (i :: is_)
      | _, _ => None
      end
  | _ :: _ => None
  end.

Definition as_indices (v : JSON) : Outcome (list N) :=
  match v with
  | JArray l =>
      match as_indices_list l with
      | Some is_ => Returned is_
      | None => Thrown (Engine (NotCallable (js "filter")))
      end
  | _ => Thrown (Engine (NotCallable (js "filter")))
  end.

(** [usedIndices.has(idx)]. *)
Definition has (usedIndices : list N) (idx : N) : bool :=
  existsb (N.eqb idx) usedIndices.

(** The first loop: every valid index not seen before contributes its
    result. *)
Fixpoint pushFresh {A} (results : list A) (validIndices : list N)
    (reordered : list A) (usedIndices : list N) : list A * list N :=
  match validIndices with
  | [] => (reordered, usedIndices)
  | idx :: rest =>
      if negb (has usedIndices idx) then
        match nth_error results (N.to_nat idx) with
        | Some r => pushFresh results rest (reordered ++ [r]) (idx :: usedIndices)
        | None => pushFresh results rest reordered (idx :: usedIndices)
        end
      else pushFresh results rest reordered usedIndices
  end.

(** The second loop, walking [results] from position [i] on. *)
Fixpoint pushRemaining {A} (rest : list A) (i : N) (usedIndices : list N) : list A :=
  match rest with
  | [] => []
  | r :: rest' =>
      if negb (has usedIndices i) then r :: pushRemaining rest' (i + 1) usedIndices
      else pushRemaining rest' (i + 1) usedIndices
  end.

Definition reRankResults (cfg : AppConfig) (this : t) (results : list SearchResult)
    (query : text) (generated : Outcome text) : Outcome (list SearchResult) :=
  if negb (isConfigured cfg this) || (length results <=? 1)%nat then
    Returned results
  else
    try_catch
      (result <- generated ;;
       let responseText := trim result in
       match match_index_array responseText with
       | None => ret results
       | Some arrayMatch =>
           parsed <- JSON_parse_or_throw arrayMatch ;;
           indices <- as_indices parsed ;;
           let validIndices :=
             filter (fun i => (0 <=? i) && (i <? N.of_nat (length results))) indices in
           if Nat.eqb (length validIndices) 0 then ret results
           else
             let '(reordered, usedIndices) := pushFresh results validIndices [] [] in
             ret (reordered ++ pushRemaining results 0 usedIndices)
       end)
      (fun _ => Returned results).

Definition getModelName (provider_ : LLMProvider) : text :=
  match provider_ with
  | google => js "gemini-2.5-flash-preview"
  | openai => js "gpt-4-turbo-preview"
  | anthropic => js "claude-3-haiku-20240307"
  end.

(** [new AIService()]. *)
Definition new (cfg : AppConfig) : t :=
  {| provider := llmProvider cfg; model := getModelName (llmProvider cfg) |}.

Record EnhancedSearch := {
  enhancement : QueryEnhancement;
  results : list SearchResult;
  summary : option ResultSummary
}.

(** The pipeline.  [searchFn] is the caller's search; it receives
    whatever the enhancement holds as enhanced query.  The three model
    calls of the stages have their outcomes as arguments, in the order
    of the stages; the configuration is read when a stage starts. *)
Definition enhancedSearch (this : t) (query : text)
    (searchFn : JSON -> M (list SearchResult))
    (generatedEnhancement generatedRanking generatedSummary : Outcome text)
  : M EnhancedSearch :=
  w <- getWorld ;;
  enhancement <- lift (enhanceQuery (appConfig w) this query generatedEnhancement) ;;
  results <- searchFn (enhancedQuery enhancement) ;;
  results <- (if (0 <? length results)%nat
              then w <- getWorld ;;
                   lift (reRankResults (appConfig w) this results query generatedRanking)
              else ret results) ;;
  w <- getWorld ;;
  summary <- lift (summarizeResults (appConfig w) this results query generatedSummary) ;;
  ret {| enhancement := enhancement; results := results; summary := Some summary |}.

End AIService.

(* ===================================================================== *)
(** * Configuration (config/env)                                         *)
(* ===================================================================== *)

Module Env.

(** [process.env] once the [.env] file is loaded: a variable is a string
    or is not set. *)
Definition Environment := text -> option text.

(** [process.env[key] ?? fallback]: a variable set to the empty string
    keeps the empty string. *)
Definition getEnv (env : Environment) (key : string) (fallback : option text) : option text :=
  match env (js key) with
  | Some value => Some value
  | None => fallback
  end.

(** The initialiser of [appConfig.maxResults]; [parseInt] turns its
    argument into a string first. *)
Definition maxResultsOf (env : Environment) : number :=
  parseInt match getEnv env "MAX_RESULTS" (Some (js "10")) with
           | Some value => value
           | None => js "undefined"
           end.

Record ConfigCheck := {
  valid : bool;
  missing : list text
}.

Definition isConfigValid (cfg : AppConfig) : ConfigCheck :=
  let missing0 : list text := [] in
  let missing1 :=
    if negb (nonEmpty (airweaveApiKey cfg)) then missing0 ++ [js "AIRWEAVE_API_KEY"]
    else missing0 in
  let missing2 :=
    if negb (nonEmpty (airweaveCollectionId cfg)) then missing1 ++ [js "AIRWEAVE_COLLECTION_ID"]
    else missing1 in
  let missing3 :=
    match llmProvider cfg with
    | google =>
        if negb (AIService.keyPresent (googleApiKey cfg))
        then missing2 ++ [js "GOOGLE_GENERATIVE_AI_API_KEY"] else missing2
    | openai =>
        if negb (AIService.keyPresent (openaiApiKey cfg))
        then missing2 ++ [js "OPENAI_API_KEY"] else missing2
    | anthropic =>
        if negb (AIService.keyPresent (anthropicApiKey cfg))
        then missing2 ++ [js "ANTHROPIC_API_KEY"] else missing2
    end in
  {| valid := Nat.eqb (length missing3) 0; missing := missing3 |}.

(** [key.slice(0, 4)], eight stars, [key.slice(-4)]. *)
Definition maskApiKey (key : text) : text :=
  if negb (nonEmpty key) then js "(not set)"
  else if (length key <=? 8)%nat then js "****"
  else firstn 4 key ++ repeat (ch "*") 8 ++ skipn (length key - 4) key.

End Env.

(* ===================================================================== *)
(** * The terminal interface (cli)                                       *)
(* ===================================================================== *)

(** The commands that touch the client.  Console output is left out.
    [String.prototype.toLowerCase] is an argument: the case tables of
    Unicode are not modelled, and what is proved holds for any function
    in its place. *)

Module AirweaveCLI.

(** The two module-level objects the commands update: the client
    singleton and the configuration object. *)
Record Globals := {
  airweaveClient : AirweaveClient.t;
  config : AppConfig
}.

(** [appConfig.airweaveApiKey = value]. *)
Definition assignApiKey (cfg : AppConfig) (value : text) : AppConfig :=
  {| airweaveApiKey := value;
     airweaveCollectionId := airweaveCollectionId cfg;
     airweaveApiUrl := airweaveApiUrl cfg;
     llmProvider := llmProvider cfg;
     googleApiKey := googleApiKey cfg;
     openaiApiKey := openaiApiKey cfg;
     anthropicApiKey := anthropicApiKey cfg;
     defaultSearchType := defaultSearchType cfg;
     maxResults := maxResults cfg;
     defaultOutputFormat := defaultOutputFormat cfg |}.

(** [appConfig.airweaveCollectionId = value]. *)
Definition assignCollectionId (cfg : AppConfig) (value : text) : AppConfig :=
  {| airweaveApiKey := airweaveApiKey cfg;
     airweaveCollectionId := value;
     airweaveApiUrl := airweaveApiUrl cfg;
     llmProvider := llmProvider cfg;
     googleApiKey := googleApiKey cfg;
     openaiApiKey := openaiApiKey cfg;
     anthropicApiKey := anthropicApiKey cfg;
     defaultSearchType := defaultSearchType cfg;
     maxResults := maxResults cfg;
     defaultOutputFormat := defaultOutputFormat cfg |}.

Definition handleSetCommand (toLowerCase : text -> text) (args : list text) (g : Globals)
  : Globals :=
  if (length args <? 2)%nat then g
  else
    match args with
    | [] => g
    | arg0 :: rest =>
        let key := toLowerCase arg0 in
        let value := join (js " ") rest in
        if text_eqb key (js "api-key") || text_eqb key (js "apikey") then
          {| airweaveClient := AirweaveClient.setApiKey (airweaveClient g) value;
             config := assignApiKey (config g) value |}
        else if text_eqb key (js "collection-id") || text_eqb key (js "collectionid") ||
                text_eqb key (js "collection") then
          {| airweaveClient := AirweaveClient.setCollectionId (airweaveClient g) value;
             config := assignCollectionId (config g) value |}
        else g
    end.

(** The command [/debug]. *)
Definition debugConnection (client : AirweaveClient.t) : M unit :=
  if negb (AirweaveClient.isConfigured client) then ret tt
  else
    result <- AirweaveClient.testConnection client ;;
    ret tt.

(** The command [/collections]. *)
Definition listCollections (client : AirweaveClient.t) : M unit :=
  if negb (AirweaveClient.isConfigured client) then ret tt
  else
    try_catch
      (collections <- AirweaveClient.listCollections client ;;
       ret tt)
      (fun error => ret tt).

End AirweaveCLI.

(** Scenario: a configured client, a collaborator answering every request
    with one fixed response. *)
Definition demoConfig : AppConfig :=
  {| airweaveApiKey := []; airweaveCollectionId := []; airweaveApiUrl := js "https://api.airweave.ai";
     llmProvider := google; googleApiKey := None; openaiApiKey := None; anthropicApiKey := None;
     defaultSearchType := hybrid; maxResults := number_of_N 10; defaultOutputFormat := json |}.

(** The wording of one engine. *)
Definition v8Message (e : EngineError) : text :=
  match e with
  | NullPropertyRead property =>
      js "Cannot read properties of null (reading '" ++ property ++ js "')"
  | JSONSyntaxError _ => js "Unexpected token in JSON"
  | NotCallable property => property ++ js " is not a function"
  | NoPrimitiveValue => js "Cannot convert object to primitive value"
  end.

Definition demoWorld (answer : Upstream) : World :=
  {| appConfig := demoConfig;
     network := fun _ => answer;
     engineMessage := v8Message;
     clock := fun n => Z.of_nat (1000 + 7 * n);
     clockReads := 0;
     sent := [] |}.

Definition demoClient : AirweaveClient.t :=
  {| AirweaveClient.apiKey := js "key-123";
     AirweaveClient.baseUrl := js "https://api.airweave.ai";
     AirweaveClient.collectionId := js "notes" |}.

Definition demoOptions (q : string) : SearchOptions :=
  {| o_query := js q; o_searchType := None; o_limit := None; o_enhanceQuery := None |}.


Definition aiConfig : AppConfig :=
  {| airweaveApiKey := []; airweaveCollectionId := []; airweaveApiUrl := js "https://api.airweave.ai";
     llmProvider := google; googleApiKey := Some (js "g-key"); openaiApiKey := None;
     anthropicApiKey := None;
     defaultSearchType := hybrid; maxResults := number_of_N 10; defaultOutputFormat := json |}.

Definition aiService : AIService.t :=
  {| AIService.provider := google; AIService.model := js "gemini-2.5-flash-preview" |}.

(** The same world with the key of the model provider set. *)
Definition aiWorld (answer : Upstream) : World :=
  {| appConfig := aiConfig;
     network := fun _ => answer;
     engineMessage := v8Message;
     clock := fun n => Z.of_nat (1000 + 7 * n);
     clockReads := 0;
     sent := [] |}.

(** A result carrying only an id and a content. *)
Definition demoResult (name : string) : SearchResult :=
  {| id := js name; content := js name; source := js "notion"; sourceType := js "notion";
     score := Finite false 1 0; metadata := None; url := None; title := None;
     createdAt := None; updatedAt := None |}.

(* ===================================================================== *)
(** * Specifications the code is compared with                           *)
(* ===================================================================== *)

(** Extraction rule of the specification: the first array-valued field
    in a fixed list of names. *)
Fixpoint firstArrayField (ms : list (text * JSON)) (names : list string) : list JSON :=
  match names with
  | [] => []
  | name :: rest =>
      match lookup (js name) ms with
      | Some (JArray l) => l
      | _ => firstArrayField ms rest
      end
  end.

Definition wrapperFields : list string :=
  ["results"; "data"; "items"; "hits"; "documents"]%string.

Definition extractionRule (data : JSON) : list JSON :=
  match data with
  | JArray l => l
  | JObject ms => firstArrayField ms wrapperFields
  | _ => []
  end.

Definition arrayValued (ms : list (text * JSON)) (name : string) : Prop :=
  exists l, lookup (js name) ms = Some (JArray l).

(** First truthy value among the named fields of a raw record. *)
Fixpoint firstTruthy (item : JSON) (names : list string) : option JSON :=
  match names with
  | [] => None
  | name :: rest =>
      if truthy (read item name) then read item name else firstTruthy item rest
  end.

(** What a search answers for a given settled request. *)
Definition answered (u : Upstream) : Outcome (list SearchResult) :=
  match u with
  | NetworkFailure e => Thrown e
  | HttpResponse status _ responseBody =>
      if okStatus status then
        match JSON_parse responseBody with
        | Some data => AirweaveClient.transformResponse data
        | None => Thrown (Engine (JSONSyntaxError responseBody))
        end
      else Thrown (Error_ (js "Airweave API error (" ++ NumberToString (number_of_N status) ++
                           js "): " ++ responseBody))
  end.

(** [needle] occurs in [s]. *)
Definition contains (needle s : text) : Prop :=
  exists before after, s = before ++ needle ++ after.

(** The results at the given positions, in that order. *)
Definition pick {A} (results : list A) (positions : list N) : list A :=
  flat_map (fun i => match nth_error results (N.to_nat i) with
                     | Some r => [r]
                     | None => []
                     end) positions.

(** Duplicates removed, the first occurrence kept. *)
Fixpoint keepFirst (seen : list N) (l : list N) : list N :=
  match l with
  | [] => []
  | i :: r => if AIService.has seen i then keepFirst seen r else i :: keepFirst (i :: seen) r
  end.

Definition positions (n : nat) : list N := map N.of_nat (seq 0 n).

(** The order the specification prescribes for [n] results and the
    indices named by the model. *)
Definition expectedOrder (n : nat) (indices : list N) : list N :=
  let valid := filter (fun i => i <? N.of_nat n) indices in
  keepFirst [] valid ++ filter (fun i => negb (AIService.has valid i)) (positions n).

(** The indices a reply names, when it names any. *)
Definition namedIndices (generated : Outcome text) : option (list N) :=
  match generated with
  | Thrown _ => None
  | Returned result =>
      match AIService.match_index_array (trim result) with
      | None => None
      | Some arrayMatch =>
          match JSON_parse arrayMatch with
          | Some (JArray l) => AIService.as_indices_list l
          | _ => None
          end
      end
  end.

(** A stage fails when the call is rejected, when the reply holds no
    braces span, or when the span is not JSON. *)
Definition stageFails (generated : Outcome text) : bool :=
  match generated with
  | Thrown _ => true
  | Returned result =>
      match AIService.match_object (trim result) with
      | None => true
      | Some jsonMatch =>
          match JSON_parse jsonMatch with
          | None => true
          | Some _ => false
          end
      end
  end.

Definition noResultsSummary : ResultSummary :=
  {| summary := JString (js "No results to summarize.");
     keyPoints := JArray []; relevantTopics := JArray [] |}.

Definition failedSummary : ResultSummary :=
  {| summary := JString (js "Failed to generate summary.");
     keyPoints := JArray []; relevantTopics := JArray [] |}.

(** The three shapes of a [SearchResponse]. *)
Definition notConfiguredResponse (options : SearchOptions) : SearchResponse :=
  {| success := false; query := o_query options; enhancedQuery_ := None;
     searchType := AirweaveClient.searchTypeOrHybrid options;
     results := []; totalResults := 0; processingTime := None;
     error := Some (js "Airweave client not configured. Please set API key and collection ID.") |}.

Definition failureResponse (options : SearchOptions) (message : text) : SearchResponse :=
  {| success := false; query := o_query options; enhancedQuery_ := None;
     searchType := AirweaveClient.searchTypeOrHybrid options;
     results := []; totalResults := 0; processingTime := None;
     error := Some message |}.

Definition successResponse (options : SearchOptions) (rs : list SearchResult) (elapsed : Z)
  : SearchResponse :=
  {| success := true; query := o_query options; enhancedQuery_ := None;
     searchType := AirweaveClient.searchTypeOrHybrid options;
     results := rs; totalResults := length rs; processingTime := Some elapsed;
     error := None |}.

(** The request a search sends in a given world. *)
Definition requestOf (this : AirweaveClient.t) (options : SearchOptions) (w : World) : Request :=
  AirweaveClient.searchRequest this (appConfig w) options.

(** Outcomes of the collaborator that are no success: a failed
    transport, or a status outside 200..299. *)
Definition nonSuccess (u : Upstream) : Prop :=
  match u with
  | NetworkFailure _ => True
  | HttpResponse status _ _ => okStatus status = false
  end.

Definition contentFields : list string :=
  ["content"; "text"; "body"; "document"; "page_content"; "chunk"; "data"]%string.

Definition idFields : list string := ["id"; "_id"; "entity_id"]%string.

Definition sourceFields : list string := ["source"; "source_name"; "collection"]%string.

Definition sourceTypeFields : list string := ["source_type"; "type"]%string.

Definition scoreFields : list string :=
  ["score"; "relevance_score"; "_score"; "similarity"]%string.

(** The first truthy value among the named fields, else the default. *)
Definition fieldValue (item : JSON) (names : list string) (default : JSON) : JSON :=
  match firstTruthy item names with
  | Some v => v
  | None => default
  end.

(** The value chosen for a field, and with it every value that the
    record passes to [String()] or [Number()], can be converted. *)
Definition chosenConverts (item : JSON) (names : list string) : bool :=
  match firstTruthy item names with
  | Some v => convertible v
  | None => true
  end.

Definition recordConverts (item : JSON) : bool :=
  chosenConverts item contentFields && chosenConverts item idFields &&
  chosenConverts item sourceFields && chosenConverts item sourceTypeFields &&
  chosenConverts item scoreFields.

(** The elements that give a record: not [null], and convertible. *)
Definition mappable (item : JSON) : Prop :=
  item <> JNull /\ recordConverts item = true.

(** The record the specification prescribes for a raw element. *)
Definition canonicalResult (item : JSON) (index : nat) : SearchResult :=
  {| id := ToString (fieldValue item idFields (JNumber (number_of_nat index)));
     content := ToString (fieldValue item contentFields (JString (JSON_stringify item)));
     source := ToString (fieldValue item sourceFields (JString (js "notion")));
     sourceType := ToString (fieldValue item sourceTypeFields (JString (js "notion")));
     score := Number_ (Some (fieldValue item scoreFields (JNumber (Finite false 1 0))));
     metadata := read item "metadata";
     url := read item "url";
     title := read item "title" ||| read item "name";
     createdAt := read item "created_at" ||| read item "createdAt";
     updatedAt := read item "updated_at" ||| read item "updatedAt" |}.

(** What the two JSON stages make of a parsed reply. *)
Definition enhancementFrom (userQuery : text) (parsed : JSON) : QueryEnhancement :=
  {| originalQuery := userQuery;
     enhancedQuery := or_value (read parsed "enhanced_query") (JString userQuery);
     keywords := or_value (read parsed "keywords") (JArray []);
     intent := or_value (read parsed "intent") (JString (js "search")) |}.

Definition summaryFrom (parsed : JSON) : ResultSummary :=
  {| summary := or_value (read parsed "summary") (JString (js "Unable to generate summary."));
     keyPoints := or_value (read parsed "key_points") (JArray []);
     relevantTopics := or_value (read parsed "relevant_topics") (JArray []) |}.

(** The span from the first opening brace of the text to its last
    closing brace. *)
Definition outermostBraces (s span : text) : Prop :=
  exists before mid after,
    s = before ++ span ++ after /\
    span = ch "{" :: mid ++ [ch "}"] /\
    ~ In (ch "{") before /\
    ~ In (ch "}") after.

(** The last frame of a context is an object awaiting a member. *)
Definition lastIsObject (ctx : list frame) : Prop :=
  match last ctx (FArray []) with
  | FObject _ _ => True
  | FArray _ => False
  end.

(** Parser states whose outermost container is an object. *)
Definition rooted (st : parse_state) : Prop :=
  match st with
  | SValue ctx | SArrayOpen ctx | SArray _ ctx => lastIsObject ctx
  | SObjectOpen ctx | SObject _ ctx | SKey _ ctx | SColon _ _ ctx => ctx = [] \/ lastIsObject ctx
  | SEnd v => exists ms, v = JObject ms
  end.

(** Numbers that are array indices, and what the lexer and the parser
    make of a bracketed list of digits, blanks and commas. *)
Definition isIndexNumber (n : number) : Prop := exists i, number_to_index n = Some i.

Definition indexValue (v : JSON) : Prop := exists n, v = JNumber n /\ isIndexNumber n.

Definition indexToken (t : token) : Prop :=
  t = TComma \/ exists n, t = TNumber n /\ isIndexNumber n.

Definition indexChars (s : text) : Prop := Forall (fun c => AIService.isIndexChar c = true) s.

Inductive lexingIndices : lex_state -> Prop :=
  | LexIdle : lexingIndices LIdle
  | LexWord acc : indexChars acc -> lexingIndices (LWord acc).

Inductive parsingIndices : parse_state -> Prop :=
  | ParseOpen : parsingIndices (SArrayOpen [])
  | ParseElements es : Forall indexValue es -> parsingIndices (SArray es [])
  | ParseValue es : Forall indexValue es -> parsingIndices (SValue [FArray es]).

(** The lexer state reached at the end of a piece of text. *)
Fixpoint lex_run (st : lex_state) (out : list token) (s : text)
  : option (lex_state * list token) :=
  match s with
  | [] => Some (st, out)
  | c :: r =>
      match lex_char st out c with
      | Some (st', out') => lex_run st' out' r
      | None => None
      end
  end.

(** The client singleton and the configuration when the program starts,
    and after a sequence of [/set] commands. *)
Definition startGlobals (cfg : AppConfig) : AirweaveCLI.Globals :=
  {| AirweaveCLI.airweaveClient := AirweaveClient.new cfg None None None;
     AirweaveCLI.config := cfg |}.

Definition afterSetCommands (toLowerCase : text -> text) (cfg : AppConfig)
    (commands : list (list text)) : AirweaveCLI.Globals :=
  fold_left (fun g args => AirweaveCLI.handleSetCommand toLowerCase args g) commands
            (startGlobals cfg).

(** The client and the configuration hold the same credential and the
    same collection identifier. *)
Definition inSync (g : AirweaveCLI.Globals) : Prop :=
  AirweaveClient.apiKey (AirweaveCLI.airweaveClient g) = airweaveApiKey (AirweaveCLI.config g) /\
  AirweaveClient.collectionId (AirweaveCLI.airweaveClient g)
  = airweaveCollectionId (AirweaveCLI.config g).

(** ASCII letters to lower case, every other code unit unchanged. *)
Definition asciiLowerCase (s : text) : text :=
  map (fun c => if (0x41 <=? c) && (c <=? 0x5A) then c + 0x20 else c) s.

(** [options.limit || appConfig.maxResults]. *)
Definition requestedLimit (cfg : AppConfig) (options : SearchOptions) : number :=
  match o_limit options with
  | Some x => if truthy (Some (JNumber x)) then x else maxResults cfg
  | None => maxResults cfg
  end.

(** The records of a batch: the element at position [index + i] of the
    response is mapped with that position. *)
Fixpoint canonicalResults (items : list JSON) (index : nat) : list SearchResult :=
  match items with
  | [] => []
  | item :: rest => canonicalResult item index :: canonicalResults rest (S index)
  end.

(** Length of the longest run of decimal digits of a string; [run] is the
    length of the run being read, [best] the longest one seen before. *)
Fixpoint digitRuns (s : text) (run best : nat) : nat :=
  match s with
  | [] => Nat.max run best
  | c :: r => if isDigit c then digitRuns r (S run) best
              else digitRuns r 0 (Nat.max run best)
  end.

Definition longestDigitRun (s : text) : nat := digitRuns s 0 0.

(** The largest integer below which every integer is a double: 2^53. *)
Definition maxExactInteger : N := 9007199254740992.

(* ===================================================================== *)
(** * Sanity checks                                                      *)
(* ===================================================================== *)

Example NumberToString_examples :
  map NumberToString
      [number_of_N 0; number_of_N 500; Finite false 9 (-1); Finite true 15 (-8);
       Finite false 1 21; Finite false 12345 (-2); Finite false 1 (-6); NaN]
  = map js ["0"; "500"; "0.9"; "-1.5e-7"; "1e+21"; "123.45"; "0.000001"; "NaN"]%string.
Proof. vm_compute. reflexivity. Qed.

Example StringToNumber_examples :
  map (fun s => StringToNumber (js s))
      ["0.90"; " 12 "; ""; "0x1F"; "-0"; "1e3"; ".5"; "5."; "abc"; "1e"; "-Infinity"; "."; "0.0"]%string
  = [Finite false 9 (-1); Finite false 12 0; Finite false 0 0; Finite false 31 0;
     Finite true 0 0; Finite false 1 3; Finite false 5 (-1); Finite false 5 0;
     NaN; NaN; Infinity true; NaN; Finite false 0 0].
Proof. vm_compute. reflexivity. Qed.

Example JSON_parse_examples :
  map (fun s => JSON_parse (jq s))
    ["[2, 0,1]"; "{}"; " [ ] "; "{'b':10, '2':null,'b':'x\n', '1':true}"; "[1,]"; "[01]";
     "nul"; "-0"; "[1 2]"; "[[1],{}]"; "1true"; "{,}"; "{'a':1} foo {'b':2}"]%string
  = [Some (JArray [JNumber (Finite false 2 0); JNumber (Finite false 0 0); JNumber (Finite false 1 0)]);
     Some (JObject []); Some (JArray []);
     Some (JObject [(js "1", JBool true); (js "2", JNull); (js "b", JString (js "x" ++ [0xA]))]);
     None; None; None;
     Some (JNumber (Finite true 0 0)); None;
     Some (JArray [JArray [JNumber (Finite false 1 0)]; JObject []]); None; None; None].
Proof. vm_compute. reflexivity. Qed.

Example JSON_stringify_examples :
  map (fun s => option_map JSON_stringify (JSON_parse (jq s)))
    ["{'query' : 'a\'b', 'limit': 10.50, 'x': [null, true, {}], 'search_type':'hybrid'}";
     "[0.9, -0, 1e21, 1E-7, 'A\n']"]%string
  = map (fun s => Some (jq s))
    ["{'query':'a\'b','limit':10.5,'x':[null,true,{}],'search_type':'hybrid'}";
     "[0.9,0,1e+21,1e-7,'A\n']"]%string.
Proof. vm_compute. reflexivity. Qed.

Example scenario_hits :
  fst (AirweaveClient.search demoClient (demoOptions "hello")
         (demoWorld (HttpResponse 200 (js "OK") (jq "{'hits':[{'id':'a1','text':'hello','score':0.9}]}"))))
  = Returned {| success := true; query := js "hello"; enhancedQuery_ := None; searchType := hybrid;
                results := [ {| id := js "a1"; content := js "hello"; source := js "notion";
                                sourceType := js "notion"; score := Finite false 9 (-1);
                                metadata := None; url := None; title := None;
                                createdAt := None; updatedAt := None |} ];
                totalResults := 1; processingTime := Some 7%Z; error := None |}.
Proof. vm_compute. reflexivity. Qed.

Example scenario_request :
  sent (snd (AirweaveClient.search demoClient (demoOptions "hello")
               (demoWorld (HttpResponse 200 (js "OK") (js "[]")))))
  = [ {| method := js "POST";
         url_ := js "https://api.airweave.ai/collections/notes/search";
         headers := [(js "Content-Type", js "application/json"); (js "x-api-key", js "key-123")];
         body := jq "{'query':'hello','search_type':'hybrid','limit':10}" |} ].
Proof. vm_compute. reflexivity. Qed.

Example scenario_empty :
  fst (AirweaveClient.search demoClient (demoOptions "hello")
         (demoWorld (HttpResponse 200 (js "OK") (js "[]"))))
  = Returned (successResponse (demoOptions "hello") [] 7).
Proof. vm_compute. reflexivity. Qed.

Example scenario_500 :
  fst (AirweaveClient.search demoClient (demoOptions "hello")
         (demoWorld (HttpResponse 500 (js "Internal Server Error") (js "boom"))))
  = Returned (failureResponse (demoOptions "hello") (js "Airweave API error (500): boom")).
Proof. vm_compute. reflexivity. Qed.

Example scenario_unconvertible :
  fst (AirweaveClient.search demoClient (demoOptions "hello")
         (demoWorld (HttpResponse 200 (js "OK")
                       (jq "{'results':[{'id':'a1','content':'first'},{'content':{'toString':1}}]}"))))
  = Returned (failureResponse (demoOptions "hello")
                (js "Cannot convert object to primitive value")).
Proof. vm_compute. reflexivity. Qed.

Example conversion_examples :
  map (fun body =>
         match JSON_parse (jq body) with
         | Some v => Some (String_or_throw v, Number_or_throw v)
         | None => None
         end)
      ["{'toString':1}"; "{'valueOf':1}"; "[7,null,[2,{}]]"; "[{'toString':null}]"; "[5]"]%string
  = [Some (Thrown (Engine NoPrimitiveValue), Thrown (Engine NoPrimitiveValue));
     Some (Returned (js "[object Object]"), Returned NaN);
     Some (Returned (js "7,,2,[object Object]"), Returned NaN);
     Some (Thrown (Engine NoPrimitiveValue), Thrown (Engine NoPrimitiveValue));
     Some (Returned (js "5"), Returned (Finite false 5 0))].
Proof. vm_compute. reflexivity. Qed.

Example match_examples :
  (AIService.match_object (jq "Sure: {'a':{'b':1}} and {'c':2}. Bye"),
   AIService.match_object (jq "} {"),
   AIService.match_index_array (js "Example: [2, 0, 3] then [1]"),
   AIService.match_index_array (js "[] [a] [1,2"),
   AIService.match_index_array (js "[[1 ,2]]"))
  = (Some (jq "{'a':{'b':1}} and {'c':2}"), None, Some (js "[2, 0, 3]"), None, Some (js "[1 ,2]")).
Proof. vm_compute. reflexivity. Qed.

Example reRank_examples :
  map (fun reply =>
         AIService.reRankResults aiConfig aiService
           [demoResult "a"; demoResult "b"; demoResult "c"; demoResult "d"] (js "q")
           (Returned (js reply)))
      ["[2, 0, 3, 1]"; "Ranking: [3, 3, 9, 1]"; "[7]"; "[1,,2]"; "no idea"; "[ ]"]%string
  = map (fun l => Returned (map demoResult l))
      [["c"; "a"; "d"; "b"]; ["d"; "b"; "a"; "c"]; ["a"; "b"; "c"; "d"]; ["a"; "b"; "c"; "d"];
       ["a"; "b"; "c"; "d"]; ["a"; "b"; "c"; "d"]]%string.
Proof. vm_compute. reflexivity. Qed.

Example enhanceQuery_example :
  AIService.enhanceQuery aiConfig aiService (js "notes")
    (Returned (jq "Here: {'enhanced_query':'meeting notes','keywords':['a'],'intent':''} "))
  = Returned {| originalQuery := js "notes";
                enhancedQuery := JString (js "meeting notes");
                keywords := JArray [JString (js "a")];
                intent := JString (js "search") |}.
Proof. vm_compute. reflexivity. Qed.

(* ===================================================================== *)
(** * The search gateway                                                 *)
(* ===================================================================== *)

Section Gateway.

Variable this : AirweaveClient.t.
Variable options : SearchOptions.

(** [makeSearchRequest] sends exactly one request and answers with what
    the collaborator's reply amounts to. *)
Lemma makeSearchRequest_eq (w : World) :
  AirweaveClient.makeSearchRequest this options w =
  (answered (network w (requestOf this options w)),
   record_request (requestOf this options w) w).
Proof.
  unfold AirweaveClient.makeSearchRequest, requestOf, answered. cbn.
  unfold fetch.
  destruct (network w _) as [e | status statusText responseBody]; cbn; [reflexivity|].
  unfold ok. cbn. destruct (okStatus status); cbn; [|reflexivity].
  unfold lift, JSON_parse_or_throw.
  destruct (JSON_parse responseBody); reflexivity.
Qed.

(** [search], stage by stage. *)
Lemma search_eq (w : World) :
  AirweaveClient.search this options w =
  if AirweaveClient.isConfigured this then
    match answered (network w (requestOf this options w)) with
    | Returned rs =>
        (Returned (successResponse options rs
                     (clock w (S (clockReads w)) - clock w (clockReads w))),
         tick (record_request (requestOf this options w) (tick w)))
    | Thrown e =>
        (Returned (failureResponse options (errorMessage w e)),
         record_request (requestOf this options w) (tick w))
    end
  else (Returned (notConfiguredResponse options), tick w).
Proof.
  unfold AirweaveClient.search, bind, try_catch, ret, Monad_M, MonadThrow_M, Date_now, getWorld.
  destruct (AirweaveClient.isConfigured this); cbv beta iota; [|reflexivity].
  change (negb true) with false. cbv beta iota.
  rewrite makeSearchRequest_eq.
  change (requestOf this options (tick w)) with (requestOf this options w).
  change (network (tick w)) with (network w).
  destruct (answered _); reflexivity.
Qed.

End Gateway.

Lemma text_eqb_refl (a : text) : text_eqb a a = true.
Proof. induction a; cbn; [reflexivity|]. now rewrite N.eqb_refl. Qed.

Lemma text_eqb_eq (a b : text) : text_eqb a b = true <-> a = b.
Proof.
  split; [|intros ->; apply text_eqb_refl].
  revert b. induction a as [|x a IH]; destruct b as [|y b]; cbn; try discriminate; auto.
  intros H. apply andb_true_iff in H. destruct H as [Hx Hr].
  apply N.eqb_eq in Hx. subst. f_equal. auto.
Qed.

Lemma firstArrayField_first (ms : list (text * JSON)) (before : list string) name after l :
  (forall n, In n before -> ~ arrayValued ms n) ->
  lookup (js name) ms = Some (JArray l) ->
  firstArrayField ms (before ++ name :: after) = l.
Proof.
  intros Hb Hn. induction before as [|b before IH]; cbn.
  - now rewrite Hn.
  - destruct (lookup (js b) ms) as [[ | | | | l' | ]|] eqn:E;
      try (apply IH; intros x Hin; apply Hb; now right).
    exfalso. apply (Hb b); [now left|]. now exists l'.
Qed.

Lemma firstArrayField_none (ms : list (text * JSON)) (names : list string) :
  (forall n, In n names -> ~ arrayValued ms n) ->
  firstArrayField ms names = [].
Proof.
  intros H. induction names as [|b names IH]; cbn; [reflexivity|].
  destruct (lookup (js b) ms) as [[ | | | | l' | ]|] eqn:E;
    try (apply IH; intros x Hin; apply H; now right).
  exfalso. apply (H b); [now left|]. now exists l'.
Qed.

(** C3. The raw result sequence is taken by the fixed priority rule: a
    bare array as it is; for an object the first array-valued field among
    results, data, items, hits, documents, in that order; in every other
    case (an object without such a field, null, any scalar) the empty
    sequence.  The extraction is a total function: nothing is thrown. *)
Theorem rawResults_follows_priority_rule :
  (forall data, AirweaveClient.rawResults data = extractionRule data) /\
  (forall l, AirweaveClient.rawResults (JArray l) = l) /\
  (forall ms before name after l,
     wrapperFields = before ++ name :: after ->
     (forall n, In n before -> ~ arrayValued ms n) ->
     lookup (js name) ms = Some (JArray l) ->
     AirweaveClient.rawResults (JObject ms) = l) /\
  (forall ms,
     (forall n, In n wrapperFields -> ~ arrayValued ms n) ->
     AirweaveClient.rawResults (JObject ms) = []) /\
  AirweaveClient.rawResults JNull = [] /\
  (forall b, AirweaveClient.rawResults (JBool b) = []) /\
  (forall n, AirweaveClient.rawResults (JNumber n) = []) /\
  (forall s, AirweaveClient.rawResults (JString s) = []).
Proof.
  assert (E : forall data, AirweaveClient.rawResults data = extractionRule data).
  { intros [ | b | n | s | l | ms]; reflexivity. }
  repeat split; try assumption; try reflexivity.
  - intros ms before name after l Hw Hb Hn. rewrite E. cbn [extractionRule].
    rewrite Hw. now apply firstArrayField_first.
  - intros ms H. rewrite E. now apply firstArrayField_none.
Qed.

Lemma rawResults_follows_priority_rule_witness :
  AirweaveClient.rawResults
    (JObject [(js "data", JString (js "x")); (js "hits", JArray [JNull]);
              (js "documents", JArray [])]) = [JNull].
Proof.
  apply (proj1 (proj2 (proj2 rawResults_follows_priority_rule))
           _ ["results"; "data"; "items"]%string "hits"%string ["documents"]%string).
  - reflexivity.
  - intros n [<-|[<-|[<-|[]]]] [l E]; vm_compute in E; discriminate.
  - reflexivity.
Defined.

(** C6. With an empty credential or an empty collection identifier the
    search answers at once with the not-configured failure (no success,
    no results, an error message) and sends nothing: the log of requests
    is what it was. *)
Theorem search_unconfigured_sends_nothing (this : AirweaveClient.t) (options : SearchOptions)
    (w : World) :
  AirweaveClient.apiKey this = [] \/ AirweaveClient.collectionId this = [] ->
  exists r w',
    AirweaveClient.search this options w = (Returned r, w') /\
    success r = false /\ results r = [] /\ totalResults r = 0%nat /\
    error r = Some (js "Airweave client not configured. Please set API key and collection ID.") /\
    sent w' = sent w.
Proof.
  intros H. rewrite search_eq.
  assert (C : AirweaveClient.isConfigured this = false).
  { unfold AirweaveClient.isConfigured.
    destruct H as [-> | ->]; cbn; [reflexivity | apply andb_false_r]. }
  rewrite C. eexists _, _. repeat split; reflexivity.
Qed.

Lemma search_unconfigured_sends_nothing_witness :
  exists r w',
    AirweaveClient.search
      {| AirweaveClient.apiKey := js "key-123"; AirweaveClient.baseUrl := js "https://api.airweave.ai";
         AirweaveClient.collectionId := [] |}
      (demoOptions "hello") (demoWorld (HttpResponse 200 (js "OK") (js "[]"))) = (Returned r, w') /\
    success r = false /\ results r = [] /\ totalResults r = 0%nat /\
    error r = Some (js "Airweave client not configured. Please set API key and collection ID.") /\
    sent w' = sent (demoWorld (HttpResponse 200 (js "OK") (js "[]"))).
Proof.
  apply search_unconfigured_sends_nothing. right. reflexivity.
Defined.

Lemma answered_nonSuccess (u : Upstream) :
  nonSuccess u -> exists e, answered u = Thrown e.
Proof.
  destruct u as [e | status statusText responseBody]; cbn; intros H.
  - now exists e.
  - rewrite H. eexists. reflexivity.
Qed.

(** C2. The search never raises: in every world it returns a response.
    When the collaborator fails (the transport breaks, or the status is
    no success) the response has no success, no results and an error
    message; when a configured client is answered with status 500 the
    message contains "500". *)
Theorem search_never_raises :
  (forall this options w,
     exists r w', AirweaveClient.search this options w = (Returned r, w')) /\
  (forall this options w,
     nonSuccess (network w (requestOf this options w)) ->
     exists r w' message,
       AirweaveClient.search this options w = (Returned r, w') /\
       success r = false /\ results r = [] /\ error r = Some message) /\
  (forall this options w statusText responseBody,
     AirweaveClient.isConfigured this = true ->
     network w (requestOf this options w) = HttpResponse 500 statusText responseBody ->
     exists r w' message,
       AirweaveClient.search this options w = (Returned r, w') /\
       success r = false /\ results r = [] /\ error r = Some message /\
       contains (js "500") message).
Proof.
  split; [|split].
  - intros this options w. rewrite search_eq.
    destruct (AirweaveClient.isConfigured this); [|eexists _, _; reflexivity].
    destruct (answered _); eexists _, _; reflexivity.
  - intros this options w H. rewrite search_eq.
    destruct (AirweaveClient.isConfigured this).
    + destruct (answered_nonSuccess _ H) as [e ->].
      eexists _, _, _. repeat split; reflexivity.
    + eexists _, _, _. repeat split; reflexivity.
  - intros this options w statusText responseBody C H. rewrite search_eq, C, H.
    eexists _, _, _. repeat split; try reflexivity.
    exists (js "Airweave API error ("), (js "): " ++ responseBody). reflexivity.
Qed.

Lemma search_never_raises_witness :
  exists r w' message,
    AirweaveClient.search demoClient (demoOptions "hello")
      (demoWorld (HttpResponse 500 (js "Internal Server Error") (js "boom"))) = (Returned r, w') /\
    success r = false /\ results r = [] /\ error r = Some message /\
    contains (js "500") message.
Proof.
  apply (proj2 (proj2 search_never_raises) demoClient (demoOptions "hello")
           (demoWorld (HttpResponse 500 (js "Internal Server Error") (js "boom")))
           (js "Internal Server Error") (js "boom")); reflexivity.
Defined.

(** C9. Two searches by the same client with the same options, answered
    by the collaborator in the same way, produce the same list of
    results, whatever the clocks and the earlier traffic of the two
    worlds. *)
Theorem search_results_deterministic (this : AirweaveClient.t) (options : SearchOptions)
    (w1 w2 : World) :
  network w1 (requestOf this options w1) = network w2 (requestOf this options w2) ->
  exists r1 r2 w1' w2',
    AirweaveClient.search this options w1 = (Returned r1, w1') /\
    AirweaveClient.search this options w2 = (Returned r2, w2') /\
    results r1 = results r2 /\ totalResults r1 = totalResults r2 /\ success r1 = success r2.
Proof.
  intros H. rewrite !search_eq, H.
  destruct (AirweaveClient.isConfigured this).
  - destruct (answered _); eexists _, _, _, _; repeat split; reflexivity.
  - eexists _, _, _, _; repeat split; reflexivity.
Qed.

Lemma search_results_deterministic_witness :
  exists r1 r2 w1' w2',
    AirweaveClient.search demoClient (demoOptions "hello")
      (demoWorld (HttpResponse 200 (js "OK") (jq "{'hits':[{'id':'a1','text':'hello','score':0.9}]}")))
      = (Returned r1, w1') /\
    AirweaveClient.search demoClient (demoOptions "hello")
      (tick (demoWorld (HttpResponse 200 (js "OK") (jq "{'hits':[{'id':'a1','text':'hello','score':0.9}]}"))))
      = (Returned r2, w2') /\
    results r1 = results r2 /\ totalResults r1 = totalResults r2 /\ success r1 = success r2.
Proof.
  apply search_results_deterministic. reflexivity.
Defined.

(** C10. Every response of a search counts its results in totalResults;
    a failed response has no results and carries an error; a successful
    one carries none. *)
Theorem search_response_invariant (this : AirweaveClient.t) (options : SearchOptions)
    (w : World) :
  exists r w',
    AirweaveClient.search this options w = (Returned r, w') /\
    totalResults r = length (results r) /\
    (success r = false -> results r = [] /\ exists message, error r = Some message) /\
    (success r = true -> error r = None).
Proof.
  rewrite search_eq.
  destruct (AirweaveClient.isConfigured this); [destruct (answered _)|];
    eexists _, _; (split; [reflexivity|]); cbn;
    repeat split; try discriminate; try reflexivity; eauto.
Qed.

Lemma search_response_invariant_witness :
  exists r w',
    AirweaveClient.search demoClient (demoOptions "hello")
      (demoWorld (NetworkFailure NotAnError)) = (Returned r, w') /\
    totalResults r = length (results r) /\
    (success r = false -> results r = [] /\ exists message, error r = Some message) /\
    (success r = true -> error r = None).
Proof.
  apply search_response_invariant.
Defined.

(* ===================================================================== *)
(** * Normalisation of the raw records                                   *)
(* ===================================================================== *)

Lemma or_value_truthy (a : option JSON) (d : JSON) :
  truthy a = true -> exists v, a = Some v /\ or_value a d = v.
Proof.
  destruct a as [v|]; [|discriminate].
  intros H. exists v. unfold or_value. now rewrite H.
Qed.

Lemma or_value_falsy (a : option JSON) (d : JSON) :
  truthy a = false -> or_value a d = d.
Proof.
  destruct a as [v|]; [|reflexivity].
  intros H. unfold or_value. now rewrite H.
Qed.

Lemma or_else_l (a b : option JSON) : truthy a = true -> a ||| b = a.
Proof. intros H. unfold or_else. now rewrite H. Qed.

Lemma or_else_r (a b : option JSON) : truthy a = false -> a ||| b = b.
Proof. intros H. unfold or_else. now rewrite H. Qed.

Lemma or_value_or_else (a b : option JSON) (d : JSON) :
  or_value (a ||| b) d = or_value a (or_value b d).
Proof.
  destruct (truthy a) eqn:T.
  - rewrite (or_else_l a b T).
    destruct (or_value_truthy a d T) as [v [-> ->]].
    unfold or_value. now rewrite T.
  - now rewrite (or_else_r a b T), (or_value_falsy a _ T).
Qed.

(** A chain of fields closed by a default is the first truthy field. *)
Lemma fieldValue_chain (item : JSON) (names : list string) (d : JSON) :
  fold_right (fun name rest => or_value (read item name) rest) d names
  = fieldValue item names d.
Proof.
  induction names as [|name names IH]; [reflexivity|].
  cbn [fold_right]. rewrite IH. unfold fieldValue. cbn [firstTruthy].
  destruct (truthy (read item name)) eqn:T.
  - destruct (or_value_truthy (read item name)
                (match firstTruthy item names with Some v => v | None => d end) T)
      as [v [E1 E2]].
    now rewrite E2, E1.
  - now rewrite or_value_falsy.
Qed.

Lemma convertible_fieldValue (item : JSON) (names : list string) (d : JSON) :
  convertible d = true ->
  convertible (fieldValue item names d) = chosenConverts item names.
Proof.
  intros H. unfold fieldValue, chosenConverts.
  now destruct (firstTruthy item names).
Qed.

Lemma or_chain_content (item d : JSON) :
  or_value (read item "content" ||| read item "text" ||| read item "body" |||
            read item "document" ||| read item "page_content" ||| read item "chunk" |||
            read item "data") d
  = fieldValue item contentFields d.
Proof. rewrite !or_value_or_else. exact (fieldValue_chain item contentFields d). Qed.

Lemma or_chain_id (item d : JSON) :
  or_value (read item "id" ||| read item "_id" ||| read item "entity_id") d
  = fieldValue item idFields d.
Proof. rewrite !or_value_or_else. exact (fieldValue_chain item idFields d). Qed.

Lemma or_chain_source (item d : JSON) :
  or_value (read item "source" ||| read item "source_name" ||| read item "collection") d
  = fieldValue item sourceFields d.
Proof. rewrite !or_value_or_else. exact (fieldValue_chain item sourceFields d). Qed.

Lemma or_chain_sourceType (item d : JSON) :
  or_value (read item "source_type" ||| read item "type") d
  = fieldValue item sourceTypeFields d.
Proof. rewrite !or_value_or_else. exact (fieldValue_chain item sourceTypeFields d). Qed.

Lemma or_chain_score (item d : JSON) :
  or_value (read item "score" ||| read item "relevance_score" ||| read item "_score" |||
            read item "similarity") d
  = fieldValue item scoreFields d.
Proof. rewrite !or_value_or_else. exact (fieldValue_chain item scoreFields d). Qed.

(** An element that is not [null] gives the record that follows the
    precedence of the fields when its conversions succeed, and a
    TypeError when one of them does not. *)
Lemma transformItem_eq (item : JSON) (index : nat) :
  item <> JNull ->
  AirweaveClient.transformItem item index =
  if recordConverts item then Returned (canonicalResult item index)
  else Thrown (Engine NoPrimitiveValue).
Proof.
  intros N.
  assert (E : AirweaveClient.transformItem item index =
    (content_ <- String_or_throw
                   (or_value (read item "content" ||| read item "text" ||| read item "body" |||
                              read item "document" ||| read item "page_content" |||
                              read item "chunk" ||| read item "data")
                             (JString (JSON_stringify item))) ;;
     id_ <- String_or_throw (or_value (read item "id" ||| read item "_id" ||| read item "entity_id")
                                      (JNumber (number_of_nat index))) ;;
     source_ <- String_or_throw
                  (or_value (read item "source" ||| read item "source_name" |||
                             read item "collection") (JString (js "notion"))) ;;
     sourceType_ <- String_or_throw (or_value (read item "source_type" ||| read item "type")
                                              (JString (js "notion"))) ;;
     score_ <- Number_or_throw (or_value (read item "score" ||| read item "relevance_score" |||
                                          read item "_score" ||| read item "similarity")
                                         (JNumber (Finite false 1 0))) ;;
     Returned {|
       id := id_;
       content := content_;
       source := source_;
       sourceType := sourceType_;
       score := score_;
       metadata := read item "metadata";
       url := read item "url";
       title := read item "title" ||| read item "name";
       createdAt := read item "created_at" ||| read item "createdAt";
       updatedAt := read item "updated_at" ||| read item "updatedAt" |})%monad).
  { destruct item; try congruence; reflexivity. }
  rewrite E, or_chain_content, or_chain_id, or_chain_source, or_chain_sourceType, or_chain_score.
  unfold String_or_throw, Number_or_throw.
  rewrite !convertible_fieldValue by reflexivity.
  unfold recordConverts.
  destruct (chosenConverts item contentFields); [|reflexivity].
  destruct (chosenConverts item idFields); [|reflexivity].
  destruct (chosenConverts item sourceFields); [|reflexivity].
  destruct (chosenConverts item sourceTypeFields); [|reflexivity].
  destruct (chosenConverts item scoreFields); reflexivity.
Qed.

Lemma transformItem_mappable (item : JSON) (index : nat) :
  mappable item ->
  AirweaveClient.transformItem item index = Returned (canonicalResult item index).
Proof. intros [N C]. now rewrite (transformItem_eq item index N), C. Qed.

(** A record is returned for the mappable elements only, and it is the
    record of the precedence rules. *)
Lemma transformItem_returned (item : JSON) (index : nat) (r : SearchResult) :
  AirweaveClient.transformItem item index = Returned r ->
  mappable item /\ r = canonicalResult item index.
Proof.
  intros H.
  assert (N : item <> JNull) by (intros ->; discriminate H).
  rewrite (transformItem_eq item index N) in H.
  destruct (recordConverts item) eqn:C; [|discriminate H].
  inversion H. split; [now split | reflexivity].
Qed.

Lemma transformItem_not_null (item : JSON) (index : nat) :
  mappable item -> exists r, AirweaveClient.transformItem item index = Returned r.
Proof. intros M. rewrite (transformItem_mappable item index M). eauto. Qed.

(** A batch of mappable elements is never abandoned: every element gives
    one result, in order. *)
Lemma mapWithIndex_not_null (items : list JSON) (index : nat) :
  Forall mappable items ->
  exists rs, AirweaveClient.mapWithIndex AirweaveClient.transformItem items index = Returned rs /\
             length rs = length items.
Proof.
  intros H. revert index. induction H as [|item items Hi _ IH]; intros index.
  - exists []. split; reflexivity.
  - destruct (transformItem_not_null item index Hi) as [r Hr].
    destruct (IH (S index)) as [rs [Hrs Hlen]].
    exists (r :: rs). cbn. rewrite Hr. cbn. rewrite Hrs. cbn. split; [reflexivity | congruence].
Qed.

Lemma N_digits_nonempty (n : N) : N_digits n <> [].
Proof.
  unfold N_digits. destruct n as [|p]; [discriminate|].
  cbn [N.to_uint]. pose proof (DecimalPos.Unsigned.to_uint_nonnil p) as H.
  destruct (Pos.to_uint p); try discriminate. congruence.
Qed.

Lemma app_nonempty_r {A} (l l' : list A) : l' <> [] -> l ++ l' <> [].
Proof. intros H E. apply app_eq_nil in E. tauto. Qed.

Lemma app_nonempty_l {A} (l l' : list A) : l <> [] -> l ++ l' <> [].
Proof. intros H E. apply app_eq_nil in E. tauto. Qed.

Lemma NumberToString_nonempty (x : number) : NumberToString x <> [].
Proof.
  destruct x as [ | neg | neg m e]; cbn [NumberToString].
  - discriminate.
  - apply app_nonempty_r. discriminate.
  - destruct (m =? 0); [discriminate|].
    pose proof (N_digits_nonempty m) as Hs.
    apply app_nonempty_r.
    repeat match goal with |- context [if ?b then _ else _] => destruct b end;
      try (apply app_nonempty_l; exact Hs);
      try (apply app_nonempty_r; discriminate);
      destruct (N_digits m) as [|d [|d' rest]]; try congruence; discriminate.
Qed.

Lemma JSON_stringify_nonempty (v : JSON) : JSON_stringify v <> [].
Proof.
  destruct v as [ | [|] | [ | neg | neg m e] | s | l | ms]; cbn [JSON_stringify];
    try discriminate.
  apply NumberToString_nonempty.
Qed.

(** [String()] of a truthy value is empty only for arrays. *)
Lemma ToString_truthy_nonempty (v : JSON) :
  truthy (Some v) = true -> (forall l, v <> JArray l) -> ToString v <> [].
Proof.
  destruct v as [ | [|] | n | s | l | ms]; cbn [truthy ToString]; try discriminate.
  - intros _ _. apply NumberToString_nonempty.
  - intros H _. destruct s; [discriminate H | discriminate].
  - intros _ H. now destruct (H l).
Qed.

Lemma firstTruthy_truthy (item : JSON) (names : list string) (v : JSON) :
  firstTruthy item names = Some v -> truthy (Some v) = true.
Proof.
  induction names as [|name names IH]; cbn [firstTruthy]; [discriminate|].
  destruct (truthy (read item name)) eqn:T; [|exact IH].
  intros E. now rewrite <- E.
Qed.

(** The content of a mapped element is the serialised element when no
    content field is truthy, and it is never empty unless the chosen
    field holds an array. *)
Lemma transformItem_content (item : JSON) (index : nat) (r : SearchResult) :
  AirweaveClient.transformItem item index = Returned r ->
  (firstTruthy item contentFields = None -> content r = JSON_stringify item) /\
  ((forall v l, firstTruthy item contentFields = Some v -> v <> JArray l) -> content r <> []).
Proof.
  intros H. destruct (transformItem_returned item index r H) as [_ ->].
  cbn [content canonicalResult]. unfold fieldValue.
  destruct (firstTruthy item contentFields) as [v|] eqn:F.
  - split; [discriminate|]. intros A.
    apply ToString_truthy_nonempty; [eapply firstTruthy_truthy; exact F | intros l; now apply A].
  - split; [reflexivity|]. intros _. apply JSON_stringify_nonempty.
Qed.

Lemma mapWithIndex_null (before after : list JSON) (index : nat) :
  Forall mappable before ->
  AirweaveClient.mapWithIndex AirweaveClient.transformItem (before ++ JNull :: after) index
  = Thrown (Engine (NullPropertyRead (js "content"))).
Proof.
  intros H. revert index. induction H as [|item items Hi _ IH]; intros index.
  - reflexivity.
  - destruct (transformItem_not_null item index Hi) as [r Hr].
    cbn. rewrite Hr. cbn. now rewrite IH.
Qed.

(** C4. A [null] among the raw elements aborts the batch: reading
    [obj.content] throws, the map is abandoned, and the search that was
    answered with two records, the second of them [null], reports a
    failure with no result at all; the first record is lost with it. *)
Theorem search_null_element_loses_batch :
  AirweaveClient.transformResponse (JArray [JObject [(js "content", JString (js "first"))]; JNull])
  = Thrown (Engine (NullPropertyRead (js "content"))) /\
  fst (AirweaveClient.search demoClient (demoOptions "hello")
         (demoWorld (HttpResponse 200 (js "OK")
                       (jq "{'results':[{'id':'a1','content':'first'},null]}"))))
  = Returned (failureResponse (demoOptions "hello")
                (js "Cannot read properties of null (reading 'content')")).
Proof. split; vm_compute; reflexivity. Qed.

(** The same holds wherever the [null] stands in the response, after
    elements that give a record. *)
Lemma transformResponse_null_element (before after : list JSON) :
  Forall mappable before ->
  AirweaveClient.transformResponse (JArray (before ++ JNull :: after))
  = Thrown (Engine (NullPropertyRead (js "content"))).
Proof. apply mapWithIndex_null. Qed.

(** A record whose content field holds an empty array gets the empty
    string as content. *)
Lemma transformItem_empty_content :
  option_map content
    (match AirweaveClient.transformItem (JObject [(js "content", JArray [])]) 0 with
     | Returned r => Some r
     | Thrown _ => None
     end) = Some [].
Proof. reflexivity. Qed.

(** Counterexample to C5 as stated: the record [{"score": 0}] has its
    score field present with value 0, and its relevance score is 1. *)
Lemma score_zero_counterexample :
  read (JObject [(js "score", JNumber (Finite false 0 0))]) "score"
    = Some (JNumber (Finite false 0 0)) /\
  exists r,
    AirweaveClient.transformItem (JObject [(js "score", JNumber (Finite false 0 0))]) 0 = Returned r /\
    score r = Finite false 1 0 /\
    score r <> Finite false 0 0.
Proof.
  split; [reflexivity|]. eexists. split; [reflexivity|]. split; [reflexivity|]. discriminate.
Qed.

(** C5, amended. Whenever a raw element gives a record, the relevance
    score of the record is [Number()] of the first truthy value among
    score, relevance_score, _score, similarity, in that order, and 1 when
    none of them is truthy: a field whose value is falsy is passed over
    like an absent one.  An element that is not [null] gives a record
    exactly when every value that the record passes to [String()] or
    [Number()] can be converted; when one of them is, or holds in an
    array, an object with a member named toString, the conversion throws
    a TypeError and the element gives no record. *)
Theorem relevanceScore_first_truthy (item : JSON) (index : nat) :
  (forall r,
     AirweaveClient.transformItem item index = Returned r ->
     score r = match firstTruthy item scoreFields with
               | Some v => Number_ (Some v)
               | None => Finite false 1 0
               end) /\
  (item <> JNull -> recordConverts item = true ->
   exists r, AirweaveClient.transformItem item index = Returned r) /\
  (item <> JNull -> recordConverts item = false ->
   AirweaveClient.transformItem item index = Thrown (Engine NoPrimitiveValue)).
Proof.
  split; [|split].
  - intros r H. destruct (transformItem_returned item index r H) as [_ ->].
    cbn [score canonicalResult]. unfold fieldValue.
    now destruct (firstTruthy item scoreFields).
  - intros N C. exists (canonicalResult item index). now apply transformItem_mappable.
  - intros N C. now rewrite (transformItem_eq item index N), C.
Qed.

Lemma relevanceScore_first_truthy_witness :
  (exists r,
     AirweaveClient.transformItem
       (JObject [(js "score", JNumber (Finite false 0 0)); (js "_score", JString (js "0.5"))]) 0
     = Returned r /\
     score r = match firstTruthy
                       (JObject [(js "score", JNumber (Finite false 0 0));
                                 (js "_score", JString (js "0.5"))]) scoreFields with
               | Some v => Number_ (Some v)
               | None => Finite false 1 0
               end) /\
  AirweaveClient.transformItem
    (JObject [(js "score", JObject [(js "toString", JNumber (Finite false 1 0))])]) 0
  = Thrown (Engine NoPrimitiveValue).
Proof.
  split.
  - destruct (relevanceScore_first_truthy
                (JObject [(js "score", JNumber (Finite false 0 0));
                          (js "_score", JString (js "0.5"))]) 0) as [S [R _]].
    destruct R as [r E]; [discriminate | reflexivity |].
    exists r. split; [exact E | now apply S].
  - apply (proj2 (proj2 (relevanceScore_first_truthy
                           (JObject [(js "score",
                                      JObject [(js "toString", JNumber (Finite false 1 0))])]) 0)));
      [discriminate | reflexivity].
Defined.

Example relevanceScore_examples :
  map (fun body =>
         match JSON_parse (jq body) with
         | Some item =>
             match AirweaveClient.transformItem item 0 with
             | Returned r => Some (score r)
             | Thrown _ => None
             end
         | None => None
         end)
      ["{'score':0.9}"; "{'score':0}"; "{'score':0,'similarity':0.25}"; "{'_score':'0.5'}";
       "{'score':null,'relevance_score':2}"; "{'score':'high'}"; "{}"; "7"; "null"]%string
  = [Some (Finite false 9 (-1)); Some (Finite false 1 0); Some (Finite false 25 (-2));
     Some (Finite false 5 (-1)); Some (Finite false 2 0); Some NaN; Some (Finite false 1 0);
     Some (Finite false 1 0); None].
Proof. vm_compute. reflexivity. Qed.

(* ===================================================================== *)
(** * The parser on what the regular expressions let through            *)
(* ===================================================================== *)

(** The tokens already produced stay where they are. *)
Lemma lex_char_out (st st' : lex_state) (out out' : list token) (c : char) :
  lex_char st out c = Some (st', out') -> exists new, out' = new ++ out.
Proof.
  intros H. destruct st; cbn in H;
    repeat match type of H with
           | context [if ?b then _ else _] => destruct b
           | context [match ?x with _ => _ end] => destruct x
           end;
    inversion H; subst;
    first [now exists [] | now (eexists [_]) | now (eexists [_; _])].
Qed.

Lemma lex_end_out (st : lex_state) (out toks : list token) :
  lex_end st out = Some toks -> exists rest, toks = rev out ++ rest.
Proof.
  destruct st; cbn; try discriminate.
  - intros H. inversion H. exists []. now rewrite app_nil_r.
  - destruct (word_token (rev acc)); intros H; inversion H. cbn. eexists. reflexivity.
Qed.

Lemma lex_out_prefix (s : text) :
  forall st out toks, lex st out s = Some toks -> exists rest, toks = rev out ++ rest.
Proof.
  induction s as [|c s IH]; intros st out toks H; cbn in H.
  - now apply (lex_end_out st).
  - destruct (lex_char st out c) as [[st' out']|] eqn:C; [|discriminate].
    apply IH in H. destruct H as [rest ->].
    destruct (lex_char_out _ _ _ _ _ C) as [new ->].
    rewrite rev_app_distr, <- app_assoc. eexists. reflexivity.
Qed.

Lemma lastIsObject_cons (f : frame) (ctx : list frame) :
  lastIsObject ctx -> lastIsObject (f :: ctx).
Proof.
  unfold lastIsObject. destruct ctx as [|g ctx]; cbn; [tauto|]. auto.
Qed.

Lemma lastIsObject_FObject (ms : list (text * JSON)) (k : text) (ctx : list frame) :
  ctx = [] \/ lastIsObject ctx -> lastIsObject (FObject ms k :: ctx).
Proof.
  intros [-> | H]; [exact I | now apply lastIsObject_cons].
Qed.

Lemma complete_rooted (v : JSON) (ctx : list frame) :
  lastIsObject ctx -> rooted (complete v ctx).
Proof.
  unfold lastIsObject. destruct ctx as [|[es | ms k] [|g ctx]]; cbn; tauto.
Qed.

Lemma complete_object_rooted (ms : list (text * JSON)) (ctx : list frame) :
  ctx = [] \/ lastIsObject ctx -> rooted (complete (JObject ms) ctx).
Proof.
  intros [-> | H]; [now exists ms | now apply complete_rooted].
Qed.

Lemma start_value_rooted (t : token) (ctx : list frame) (st : parse_state) :
  lastIsObject ctx -> start_value t ctx = Some st -> rooted st.
Proof.
  intros H E. destruct t; cbn in E; inversion E; subst; cbn;
    auto using complete_rooted.
Qed.

Lemma parse_step_rooted (st st' : parse_state) (t : token) :
  rooted st -> parse_step st t = Some st' -> rooted st'.
Proof.
  intros R E. destruct st; cbn in R, E.
  - eauto using start_value_rooted.
  - destruct t; try (eapply start_value_rooted; [|exact E]; now apply lastIsObject_cons).
    inversion E. now apply complete_rooted.
  - destruct t; inversion E; subst; cbn.
    + now apply complete_rooted.
    + now apply lastIsObject_cons.
  - destruct t; inversion E; subst; cbn; auto using complete_object_rooted.
  - destruct t; inversion E; subst; cbn; auto using complete_object_rooted.
  - destruct t; inversion E; subst; cbn; auto.
  - destruct t; inversion E; subst; cbn. now apply lastIsObject_FObject.
  - discriminate.
Qed.

Lemma parse_tokens_rooted (ts : list token) :
  forall st st', rooted st -> parse_tokens st ts = Some st' -> rooted st'.
Proof.
  induction ts as [|t ts IH]; intros st st' R E; cbn in E.
  - inversion E. now subst.
  - destruct (parse_step st t) as [st1|] eqn:S1; [|discriminate].
    eauto using parse_step_rooted.
Qed.

(** What parses from a text that opens with a brace is an object. *)
Lemma JSON_parse_brace_is_object (r : text) (v : JSON) :
  JSON_parse (ch "{" :: r) = Some v -> exists ms, v = JObject ms.
Proof.
  unfold JSON_parse. intros H.
  destruct (lex LIdle [] (ch "{" :: r)) as [ts|] eqn:L; [|discriminate].
  change (lex LIdle [] (ch "{" :: r)) with (lex LIdle [TLBrace] r) in L.
  destruct (lex_out_prefix _ _ _ _ L) as [rest ->]. cbn in H.
  destruct (parse_tokens (SObjectOpen []) rest) as [st|] eqn:P; [|discriminate].
  destruct st; try discriminate. inversion H; subst.
  apply (parse_tokens_rooted rest (SObjectOpen []) (SEnd v)); [now left | exact P].
Qed.

Lemma lex_app (a b : text) :
  forall st out,
    lex st out (a ++ b) =
    match lex_run st out a with
    | Some (st', out') => lex st' out' b
    | None => None
    end.
Proof.
  induction a as [|c a IH]; intros st out; cbn; [reflexivity|].
  destruct (lex_char st out c) as [[st' out']|]; [apply IH | reflexivity].
Qed.

Lemma lex_run_app (a b : text) :
  forall st out,
    lex_run st out (a ++ b) =
    match lex_run st out a with
    | Some (st', out') => lex_run st' out' b
    | None => None
    end.
Proof.
  induction a as [|c a IH]; intros st out; cbn; [reflexivity|].
  destruct (lex_char st out c) as [[st' out']|]; [apply IH | reflexivity].
Qed.

Lemma lex_run_out (s : text) :
  forall st out st' out',
    lex_run st out s = Some (st', out') -> exists new, out' = new ++ out.
Proof.
  induction s as [|c s IH]; intros st out st' out' H; cbn in H.
  - inversion H. now exists [].
  - destruct (lex_char st out c) as [[st1 out1]|] eqn:C; [|discriminate].
    destruct (IH _ _ _ _ H) as [new ->].
    destruct (lex_char_out _ _ _ _ _ C) as [new1 ->].
    exists (new ++ new1). now rewrite app_assoc.
Qed.

(** A closing brace is a token of its own unless it stands in a string. *)
Lemma lex_char_close_brace (st st' : lex_state) (out out' : list token) :
  lex_char st out (ch "}") = Some (st', out') ->
  (st' = LIdle /\ exists new, out' = TRBrace :: new ++ out) \/
  (exists acc, st' = LString acc).
Proof.
  destruct st as [ | acc | acc | acc | acc k v].
  - intros H. inversion H. left. split; [reflexivity | now exists []].
  - change (lex_char (LWord acc) out (ch "}")) with
      (match word_token (rev acc) with
       | Some t => Some (LIdle, TRBrace :: t :: out)
       | None => None
       end).
    destruct (word_token (rev acc)) as [t|]; intros H; inversion H.
    left. split; [reflexivity | now exists [t]].
  - intros H. inversion H. right. eauto.
  - discriminate.
  - discriminate.
Qed.

(** A text that ends with a closing brace and lexes to the end leaves the
    lexer idle, the brace being its last token. *)
Lemma lex_ends_with_brace (a : text) (st : lex_state) (out toks : list token) :
  lex st out (a ++ [ch "}"]) = Some toks ->
  exists new, lex_run st out (a ++ [ch "}"]) = Some (LIdle, TRBrace :: new ++ out) /\
              toks = rev out ++ rev new ++ [TRBrace].
Proof.
  rewrite lex_app, lex_run_app.
  destruct (lex_run st out a) as [[st1 out1]|] eqn:R; [|discriminate].
  destruct (lex_run_out _ _ _ _ _ R) as [new1 ->].
  cbn [lex lex_run].
  destruct (lex_char st1 (new1 ++ out) (ch "}")) as [[st2 out2]|] eqn:C; [|discriminate].
  destruct (lex_char_close_brace _ _ _ _ C) as [[-> [new2 ->]] | [acc ->]]; [|discriminate].
  cbn [lex_end]. intros H. inversion H.
  exists (new2 ++ new1). split.
  - now rewrite <- app_assoc.
  - cbn [rev]. rewrite !rev_app_distr, <- !app_assoc. reflexivity.
Qed.

Lemma parse_tokens_app (a b : list token) :
  forall st,
    parse_tokens st (a ++ b) =
    match parse_tokens st a with
    | Some st' => parse_tokens st' b
    | None => None
    end.
Proof.
  induction a as [|t a IH]; intros st; cbn; [reflexivity|].
  destruct (parse_step st t); [apply IH | reflexivity].
Qed.

(** Nothing may follow a complete value: a text that goes on after a
    JSON value with anything that ends in a closing brace is no JSON. *)
Lemma JSON_parse_trailing_brace (a r : text) (v : JSON) :
  JSON_parse (a ++ [ch "}"]) = Some v ->
  JSON_parse ((a ++ [ch "}"]) ++ r ++ [ch "}"]) = None.
Proof.
  unfold JSON_parse. intros H.
  destruct (lex LIdle [] (a ++ [ch "}"])) as [ts1|] eqn:L1; [|discriminate].
  destruct (lex_ends_with_brace _ _ _ _ L1) as [new1 [R1 ->]].
  rewrite lex_app, R1.
  destruct (lex LIdle (TRBrace :: new1 ++ []) (r ++ [ch "}"])) as [ts2|] eqn:L2; [|reflexivity].
  destruct (lex_ends_with_brace _ _ _ _ L2) as [new2 [_ ->]].
  cbn [rev app] in H |- *. rewrite !app_nil_r in *.
  rewrite parse_tokens_app.
  destruct (parse_tokens (SValue []) (rev new1 ++ [TRBrace])) as [st|]; [|reflexivity].
  destruct st; try discriminate.
  destruct (rev new2); reflexivity.
Qed.

Lemma dropWhile_head {A} (p : A -> bool) (x : A) (l : list A) :
  p x = false -> dropWhile p (x :: l) = x :: l.
Proof. intros H. cbn. now rewrite H. Qed.

(** A text between braces has nothing to trim. *)
Lemma trim_braces (mid : text) :
  trim (ch "{" :: mid ++ [ch "}"]) = ch "{" :: mid ++ [ch "}"].
Proof.
  unfold trim. rewrite dropWhile_head by reflexivity.
  change (ch "{" :: mid ++ [ch "}"]) with ([ch "{"] ++ mid ++ [ch "}"]).
  rewrite !rev_app_distr. cbn [rev app].
  rewrite dropWhile_head by reflexivity.
  change (ch "}" :: rev mid ++ [ch "{"]) with ([ch "}"] ++ rev mid ++ [ch "{"]).
  rewrite !rev_app_distr. cbn [rev app]. now rewrite rev_involutive.
Qed.

(* ===================================================================== *)
(** * The braces span                                                    *)
(* ===================================================================== *)

Lemma upto_last_some (c : char) (s p : text) :
  AIService.upto_last c s = Some p ->
  exists mid after, s = mid ++ c :: after /\ p = mid ++ [c] /\ ~ In c after.
Proof.
  revert p. induction s as [|x s IH]; intros p H; cbn in H; [discriminate|].
  destruct (AIService.upto_last c s) as [q|] eqn:E.
  - inversion H; subst. destruct (IH q eq_refl) as [mid [after [-> [-> N]]]].
    exists (x :: mid), after. auto.
  - destruct (N.eqb_spec x c) as [->|]; [|discriminate]. inversion H; subst.
    exists [], s. repeat split. clear IH H.
    induction s as [|y s IHs]; [tauto|]. cbn in E.
    destruct (AIService.upto_last c s); [discriminate|].
    destruct (N.eqb_spec y c); [discriminate|].
    intros [->|Hin]; [congruence | now apply IHs].
Qed.

Lemma upto_last_none (c : char) (s : text) :
  AIService.upto_last c s = None -> ~ In c s.
Proof.
  induction s as [|y s IH]; cbn; [tauto|].
  destruct (AIService.upto_last c s); [discriminate|].
  destruct (N.eqb_spec y c); [discriminate|].
  intros _ [->|Hin]; [congruence | now apply IH].
Qed.

Lemma upto_last_complete (c : char) (mid after : text) :
  ~ In c after -> AIService.upto_last c (mid ++ c :: after) = Some (mid ++ [c]).
Proof.
  intros N. induction mid as [|x mid IH]; cbn.
  - destruct (AIService.upto_last c after) as [q|] eqn:E.
    + destruct (upto_last_some _ _ _ E) as [m [a [-> _]]].
      exfalso. apply N. apply in_or_app. right. now left.
    + now rewrite N.eqb_refl.
  - now rewrite IH.
Qed.

Lemma match_object_sound (s span : text) :
  AIService.match_object s = Some span -> outermostBraces s span.
Proof.
  induction s as [|x s IH]; cbn; [discriminate|].
  destruct (N.eqb_spec x (ch "{")) as [->|Hx].
  - destruct (AIService.upto_last (ch "}") s) as [p|] eqn:E.
    + intros H; inversion H; subst.
      destruct (upto_last_some _ _ _ E) as [mid [after [-> [-> N]]]].
      exists [], mid, after. cbn. rewrite <- app_assoc. auto.
    + intros H. destruct (IH H) as [before [mid [after [-> [-> _]]]]].
      exfalso. apply (upto_last_none _ _ E).
      apply in_or_app. right. apply in_or_app. left. right.
      apply in_or_app. right. now left.
  - intros H. destruct (IH H) as [before [mid [after [-> [-> [Nb Na]]]]]].
    exists (x :: before), mid, after. repeat split; auto.
    intros [->|Hin]; [congruence | auto].
Qed.

Lemma match_object_complete (s span : text) :
  outermostBraces s span -> AIService.match_object s = Some span.
Proof.
  intros [before [mid [after [-> [-> [Nb Na]]]]]].
  induction before as [|b before IH]; cbn.
  - rewrite <- app_assoc. cbn. now rewrite upto_last_complete.
  - destruct (N.eqb_spec b (ch "{")) as [->|_].
    + exfalso. apply Nb. now left.
    + apply IH. intros Hin. apply Nb. now right.
Qed.

Lemma match_object_parse_is_object (s span : text) (v : JSON) :
  AIService.match_object s = Some span -> JSON_parse span = Some v ->
  exists ms, v = JObject ms.
Proof.
  intros M P. destruct (match_object_sound _ _ M) as [_ [mid [_ [_ [-> _]]]]].
  eauto using JSON_parse_brace_is_object.
Qed.

(* ===================================================================== *)
(** * The JSON stages of the enhancement service                         *)
(* ===================================================================== *)

Lemma enhanceQuery_eq (cfg : AppConfig) (this : AIService.t) (userQuery : text)
    (generated : Outcome text) :
  AIService.enhanceQuery cfg this userQuery generated =
  Returned
    (if AIService.isConfigured cfg this then
       match generated with
       | Thrown _ => AIService.identityEnhancement userQuery
       | Returned result =>
           match AIService.match_object (trim result) with
           | None => AIService.identityEnhancement userQuery
           | Some jsonMatch =>
               match JSON_parse jsonMatch with
               | None => AIService.identityEnhancement userQuery
               | Some parsed => enhancementFrom userQuery parsed
               end
           end
       end
     else AIService.identityEnhancement userQuery).
Proof.
  unfold AIService.enhanceQuery.
  destruct (AIService.isConfigured cfg this); [|reflexivity].
  destruct generated as [result|e]; [|reflexivity]. cbn.
  destruct (AIService.match_object (trim result)) as [jsonMatch|]; [|reflexivity].
  unfold JSON_parse_or_throw.
  destruct (JSON_parse jsonMatch) as [parsed|]; [|reflexivity].
  destruct parsed; reflexivity.
Qed.

Lemma summarizeResults_eq (cfg : AppConfig) (this : AIService.t) (results : list SearchResult)
    (originalQuery : text) (generated : Outcome text) :
  AIService.summarizeResults cfg this results originalQuery generated =
  Returned
    (if AIService.isConfigured cfg this && negb (Nat.eqb (length results) 0) then
       match generated with
       | Thrown _ => failedSummary
       | Returned result =>
           match AIService.match_object (trim result) with
           | None => failedSummary
           | Some jsonMatch =>
               match JSON_parse jsonMatch with
               | None => failedSummary
               | Some parsed => summaryFrom parsed
               end
           end
       end
     else noResultsSummary).
Proof.
  unfold AIService.summarizeResults.
  destruct (AIService.isConfigured cfg this); [|reflexivity].
  destruct (Nat.eqb (length results) 0); [reflexivity|].
  destruct generated as [result|e]; [|reflexivity]. cbn.
  destruct (AIService.match_object (trim result)) as [jsonMatch|] eqn:M; [|reflexivity].
  unfold JSON_parse_or_throw.
  destruct (JSON_parse jsonMatch) as [parsed|] eqn:P; [|reflexivity].
  destruct (match_object_parse_is_object _ _ _ M P) as [ms ->]. reflexivity.
Qed.

(** Counterexample to C7 as stated: for the same results and the same
    rejected model call, the summary of an unconfigured service and the
    summary of a configured one differ. *)
Lemma summarize_fallbacks_differ :
  AIService.isConfigured demoConfig aiService = false /\
  AIService.isConfigured aiConfig aiService = true /\
  AIService.summarizeResults demoConfig aiService [demoResult "a"] (js "q") (Thrown NotAnError)
    = Returned noResultsSummary /\
  AIService.summarizeResults aiConfig aiService [demoResult "a"] (js "q") (Thrown NotAnError)
    = Returned failedSummary /\
  AIService.summarizeResults demoConfig aiService [demoResult "a"] (js "q") (Thrown NotAnError)
    <> AIService.summarizeResults aiConfig aiService [demoResult "a"] (js "q") (Thrown NotAnError).
Proof. repeat split; try reflexivity. discriminate. Qed.

(** C7, amended. Neither stage ever raises.  [enhanceQuery] returns the
    identity enhancement when the service is unconfigured and when the
    stage fails.  [summarizeResults] returns, with empty key points and
    topics, the summary "No results to summarize." when the service is
    unconfigured or there is no result, and the summary "Failed to
    generate summary." when a configured service fails on some results:
    the two placeholders are different. *)
Theorem stages_never_raise_and_fall_back :
  (forall cfg this userQuery generated,
     exists e, AIService.enhanceQuery cfg this userQuery generated = Returned e) /\
  (forall cfg this results originalQuery generated,
     exists s, AIService.summarizeResults cfg this results originalQuery generated = Returned s) /\
  (forall cfg this userQuery generated,
     AIService.isConfigured cfg this = false \/ stageFails generated = true ->
     AIService.enhanceQuery cfg this userQuery generated
     = Returned {| originalQuery := userQuery; enhancedQuery := JString userQuery;
                   keywords := JArray []; intent := JString (js "search") |}) /\
  (forall cfg this results originalQuery generated,
     AIService.isConfigured cfg this = false \/ results = [] ->
     AIService.summarizeResults cfg this results originalQuery generated
     = Returned {| summary := JString (js "No results to summarize.");
                   keyPoints := JArray []; relevantTopics := JArray [] |}) /\
  (forall cfg this results originalQuery generated,
     AIService.isConfigured cfg this = true -> results <> [] -> stageFails generated = true ->
     AIService.summarizeResults cfg this results originalQuery generated
     = Returned {| summary := JString (js "Failed to generate summary.");
                   keyPoints := JArray []; relevantTopics := JArray [] |}).
Proof.
  repeat split.
  - intros. rewrite enhanceQuery_eq. eexists. reflexivity.
  - intros. rewrite summarizeResults_eq. eexists. reflexivity.
  - intros cfg this userQuery generated H. rewrite enhanceQuery_eq. f_equal.
    destruct (AIService.isConfigured cfg this); [|reflexivity].
    destruct H as [H|H]; [discriminate|].
    unfold stageFails in H. destruct generated as [result|e]; [|reflexivity].
    destruct (AIService.match_object (trim result)) as [jsonMatch|]; [|reflexivity].
    destruct (JSON_parse jsonMatch); [discriminate | reflexivity].
  - intros cfg this results originalQuery generated H. rewrite summarizeResults_eq. f_equal.
    destruct H as [-> | ->]; [reflexivity|].
    cbn. now rewrite andb_false_r.
  - intros cfg this results originalQuery generated C N H.
    rewrite summarizeResults_eq, C. f_equal.
    destruct results as [|r results]; [congruence|]. cbn.
    unfold stageFails in H. destruct generated as [result|e]; [|reflexivity].
    destruct (AIService.match_object (trim result)) as [jsonMatch|]; [|reflexivity].
    destruct (JSON_parse jsonMatch); [discriminate | reflexivity].
Qed.

Lemma stages_never_raise_and_fall_back_witness :
  AIService.enhanceQuery aiConfig aiService (js "notes") (Returned (jq "{'enhanced_query': oops}"))
  = Returned {| originalQuery := js "notes"; enhancedQuery := JString (js "notes");
                keywords := JArray []; intent := JString (js "search") |} /\
  AIService.summarizeResults demoConfig aiService [demoResult "a"] (js "q") (Returned (js "{}"))
  = Returned {| summary := JString (js "No results to summarize.");
                keyPoints := JArray []; relevantTopics := JArray [] |} /\
  AIService.summarizeResults aiConfig aiService [demoResult "a"] (js "q") (Returned (js "no braces"))
  = Returned {| summary := JString (js "Failed to generate summary.");
                keyPoints := JArray []; relevantTopics := JArray [] |}.
Proof.
  destruct stages_never_raise_and_fall_back as [_ [_ [E [S1 S2]]]].
  split; [|split].
  - apply E. right. vm_compute. reflexivity.
  - apply S1. left. reflexivity.
  - apply S2; [reflexivity | discriminate | vm_compute; reflexivity].
Defined.

(** Two objects in one reply: the span is the whole reply, and it is
    no JSON. *)
Lemma two_objects_span (first between second : text) (v : JSON) :
  JSON_parse (ch "{" :: first ++ [ch "}"]) = Some v ->
  AIService.match_object
    (trim ((ch "{" :: first ++ [ch "}"]) ++ between ++ (ch "{" :: second ++ [ch "}"])))
  = Some ((ch "{" :: first ++ [ch "}"]) ++ between ++ (ch "{" :: second ++ [ch "}"])) /\
  JSON_parse ((ch "{" :: first ++ [ch "}"]) ++ between ++ (ch "{" :: second ++ [ch "}"])) = None.
Proof.
  intros P.
  assert (E : (ch "{" :: first ++ [ch "}"]) ++ between ++ (ch "{" :: second ++ [ch "}"])
              = ch "{" :: (first ++ [ch "}"] ++ between ++ ch "{" :: second) ++ [ch "}"]).
  { repeat (rewrite <- app_assoc || rewrite <- app_comm_cons). reflexivity. }
  split.
  - rewrite E, trim_braces. apply match_object_complete.
    exists [], (first ++ [ch "}"] ++ between ++ ch "{" :: second), [].
    repeat split; auto. now rewrite app_nil_r.
  - change (ch "{" :: first ++ [ch "}"]) with ((ch "{" :: first) ++ [ch "}"]) in P |- *.
    replace (between ++ ch "{" :: second ++ [ch "}"])
      with ((between ++ ch "{" :: second) ++ [ch "}"])
      by (repeat (rewrite <- app_assoc || rewrite <- app_comm_cons); reflexivity).
    now apply (JSON_parse_trailing_brace _ _ v).
Qed.

(** Counterexample to C8 as stated: in a reply that holds two JSON
    objects with words between them, the span taken is the whole reply,
    not the first object; it is no JSON, and the stage returns the
    identity enhancement where the first object would have given
    "first". *)
Lemma first_object_not_selected :
  AIService.match_object (trim (jq "{'enhanced_query':'first'} and {'enhanced_query':'second'}"))
    = Some (jq "{'enhanced_query':'first'} and {'enhanced_query':'second'}") /\
  JSON_parse (jq "{'enhanced_query':'first'}")
    = Some (JObject [(js "enhanced_query", JString (js "first"))]) /\
  JSON_parse (jq "{'enhanced_query':'first'} and {'enhanced_query':'second'}") = None /\
  AIService.enhanceQuery aiConfig aiService (js "q")
    (Returned (jq "{'enhanced_query':'first'} and {'enhanced_query':'second'}"))
    = Returned (AIService.identityEnhancement (js "q")) /\
  AIService.enhanceQuery aiConfig aiService (js "q")
    (Returned (jq "{'enhanced_query':'first'} and {'enhanced_query':'second'}"))
    <> Returned (enhancementFrom (js "q") (JObject [(js "enhanced_query", JString (js "first"))])).
Proof.
  repeat split; try (vm_compute; reflexivity). vm_compute. discriminate.
Qed.

(** C8, amended. The span taken from a reply runs from the first opening
    brace of the trimmed text to its last closing brace.  If the span is
    JSON it is an object and its fields are used (each falling back to
    its default when falsy); otherwise, and when there is no span, the
    stage fallback is returned.  A reply made of two JSON objects with
    other characters between them gives the span that holds both objects
    and what lies between them; that span is no JSON, so the stage
    returns its fallback. *)
Theorem json_span_is_outermost_braces :
  (forall s span, AIService.match_object s = Some span <-> outermostBraces s span) /\
  (forall s span v, AIService.match_object s = Some span -> JSON_parse span = Some v ->
                    exists ms, v = JObject ms) /\
  (forall cfg this userQuery result,
     AIService.isConfigured cfg this = true ->
     AIService.enhanceQuery cfg this userQuery (Returned result)
     = Returned match AIService.match_object (trim result) with
                | None => AIService.identityEnhancement userQuery
                | Some jsonMatch =>
                    match JSON_parse jsonMatch with
                    | None => AIService.identityEnhancement userQuery
                    | Some parsed => enhancementFrom userQuery parsed
                    end
                end) /\
  (forall cfg this results originalQuery result,
     AIService.isConfigured cfg this = true -> results <> [] ->
     AIService.summarizeResults cfg this results originalQuery (Returned result)
     = Returned match AIService.match_object (trim result) with
                | None => failedSummary
                | Some jsonMatch =>
                    match JSON_parse jsonMatch with
                    | None => failedSummary
                    | Some parsed => summaryFrom parsed
                    end
                end) /\
  (forall cfg this userQuery results first between second v,
     AIService.isConfigured cfg this = true -> results <> [] ->
     JSON_parse (ch "{" :: first ++ [ch "}"]) = Some v ->
     AIService.match_object
       (trim ((ch "{" :: first ++ [ch "}"]) ++ between ++ (ch "{" :: second ++ [ch "}"])))
     = Some ((ch "{" :: first ++ [ch "}"]) ++ between ++ (ch "{" :: second ++ [ch "}"])) /\
     AIService.enhanceQuery cfg this userQuery
       (Returned ((ch "{" :: first ++ [ch "}"]) ++ between ++ (ch "{" :: second ++ [ch "}"])))
     = Returned (AIService.identityEnhancement userQuery) /\
     AIService.summarizeResults cfg this results userQuery
       (Returned ((ch "{" :: first ++ [ch "}"]) ++ between ++ (ch "{" :: second ++ [ch "}"])))
     = Returned failedSummary).
Proof.
  split; [|split; [|split; [|split]]].
  - intros s span. split; [apply match_object_sound | apply match_object_complete].
  - apply match_object_parse_is_object.
  - intros cfg this userQuery result C. now rewrite enhanceQuery_eq, C.
  - intros cfg this results originalQuery result C N.
    rewrite summarizeResults_eq, C.
    destruct results; [congruence | reflexivity].
  - intros cfg this userQuery results first between second v C N P.
    destruct (two_objects_span first between second v P) as [M J].
    split; [exact M|]. split.
    + now rewrite enhanceQuery_eq, C, M, J.
    + rewrite summarizeResults_eq, C, M, J.
      destruct results; [congruence | reflexivity].
Qed.

Lemma json_span_is_outermost_braces_witness :
  AIService.enhanceQuery aiConfig aiService (js "notes")
    (Returned (jq " Sure! {'enhanced_query':'meeting notes','intent':0} "))
  = Returned {| originalQuery := js "notes"; enhancedQuery := JString (js "meeting notes");
                keywords := JArray []; intent := JString (js "search") |} /\
  AIService.summarizeResults aiConfig aiService [demoResult "a"] (js "q")
    (Returned (jq "{'summary':'S','key_points':['k']}"))
  = Returned {| summary := JString (js "S"); keyPoints := JArray [JString (js "k")];
                relevantTopics := JArray [] |} /\
  AIService.enhanceQuery aiConfig aiService (js "q")
    (Returned ((ch "{" :: jq "'enhanced_query':'first'" ++ [ch "}"]) ++ js " and " ++
               (ch "{" :: jq "'enhanced_query':'second'" ++ [ch "}"])))
  = Returned (AIService.identityEnhancement (js "q")).
Proof.
  destruct json_span_is_outermost_braces as [_ [_ [E [S T]]]].
  split; [|split].
  - rewrite E by reflexivity. vm_compute. reflexivity.
  - rewrite S by (reflexivity || discriminate). vm_compute. reflexivity.
  - apply (T aiConfig aiService (js "q") [demoResult "a"] _ _ _
             (JObject [(js "enhanced_query", JString (js "first"))]));
      [reflexivity | discriminate | vm_compute; reflexivity].
Defined.

(* ===================================================================== *)
(** * Re-ranking                                                         *)
(* ===================================================================== *)

Section Reorder.

Context {A : Type}.
Variable results : list A.

Lemma has_In (used : list N) (i : N) : AIService.has used i = true <-> In i used.
Proof.
  unfold AIService.has. rewrite existsb_exists. split.
  - intros [x [Hin E]]. apply N.eqb_eq in E. now subst.
  - intros Hin. exists i. split; [assumption | apply N.eqb_refl].
Qed.

Lemma has_ext (l l' : list N) (i : N) :
  (forall x, In x l <-> In x l') -> AIService.has l i = AIService.has l' i.
Proof.
  intros H. destruct (AIService.has l i) eqn:E, (AIService.has l' i) eqn:E'; try reflexivity.
  - apply has_In, H, has_In in E. congruence.
  - apply has_In, H, has_In in E'. congruence.
Qed.

Lemma pick_app (l l' : list N) : pick results (l ++ l') = pick results l ++ pick results l'.
Proof. apply flat_map_app. Qed.

Lemma pick_cons (i : N) (l : list N) :
  pick results (i :: l) =
  match nth_error results (N.to_nat i) with
  | Some r => [r]
  | None => []
  end ++ pick results l.
Proof. reflexivity. Qed.

(** The first loop appends the results at the fresh indices and records
    those indices. *)
Lemma pushFresh_eq (validIndices : list N) :
  forall reordered usedIndices,
    AIService.pushFresh results validIndices reordered usedIndices =
    (reordered ++ pick results (keepFirst usedIndices validIndices),
     rev (keepFirst usedIndices validIndices) ++ usedIndices).
Proof.
  induction validIndices as [|idx rest IH]; intros reordered usedIndices;
    cbn [AIService.pushFresh keepFirst].
  - cbn. now rewrite app_nil_r.
  - destruct (AIService.has usedIndices idx); cbn [negb]; [apply IH|].
    rewrite pick_cons.
    destruct (nth_error results (N.to_nat idx)) as [r|]; rewrite IH;
      cbn [rev]; rewrite <- !app_assoc; reflexivity.
Qed.

(** The second loop appends, in their order, the results whose position
    was not recorded. *)
Lemma pushRemaining_eq (rest : list A) (usedIndices : list N) :
  forall before,
    results = before ++ rest ->
    AIService.pushRemaining rest (N.of_nat (length before)) usedIndices =
    pick results (filter (fun i => negb (AIService.has usedIndices i))
                         (map N.of_nat (seq (length before) (length rest)))).
Proof.
  induction rest as [|r rest IH]; intros before E; [reflexivity|].
  cbn [AIService.pushRemaining length seq map filter].
  assert (E' : results = (before ++ [r]) ++ rest) by now rewrite <- app_assoc.
  specialize (IH _ E'). rewrite length_app in IH. cbn [length] in IH.
  replace (length before + 1)%nat with (S (length before)) in IH by lia.
  replace (N.of_nat (length before) + 1) with (N.of_nat (S (length before))) by lia.
  rewrite IH.
  destruct (AIService.has usedIndices (N.of_nat (length before))); cbn [negb]; [reflexivity|].
  unfold pick at 2. cbn [flat_map]. rewrite Nat2N.id.
  rewrite E, nth_error_app2, Nat.sub_diag by lia. reflexivity.
Qed.

Lemma pick_positions (rest : list A) :
  forall before,
    results = before ++ rest ->
    pick results (map N.of_nat (seq (length before) (length rest))) = rest.
Proof.
  induction rest as [|r rest IH]; intros before E; [reflexivity|].
  cbn [length seq map]. unfold pick. cbn [flat_map]. rewrite Nat2N.id.
  rewrite E at 1. rewrite nth_error_app2, Nat.sub_diag by lia. cbn.
  f_equal.
  assert (E' : results = (before ++ [r]) ++ rest) by now rewrite <- app_assoc.
  specialize (IH _ E'). rewrite length_app in IH. cbn [length] in IH.
  replace (length before + 1)%nat with (S (length before)) in IH by lia.
  exact IH.
Qed.

End Reorder.

Lemma In_positions (n : nat) (i : N) : In i (positions n) <-> i < N.of_nat n.
Proof.
  unfold positions. rewrite in_map_iff. split.
  - intros [k [<- Hk]]. apply in_seq in Hk. lia.
  - intros H. exists (N.to_nat i). split; [apply N2Nat.id | apply in_seq; lia].
Qed.

Lemma NoDup_positions (n : nat) : NoDup (positions n).
Proof.
  unfold positions. apply Injective_map_NoDup; [|apply seq_NoDup].
  intros x y H. lia.
Qed.

Lemma In_keepFirst (l : list N) :
  forall seen i, In i (keepFirst seen l) <-> In i l /\ ~ In i seen.
Proof.
  induction l as [|x l IH]; intros seen i; cbn; [tauto|].
  destruct (AIService.has seen x) eqn:E.
  - apply has_In in E. rewrite IH. split; [tauto|].
    intros [[->|Hin] Hn]; tauto.
  - assert (Hx : ~ In x seen) by (rewrite <- has_In; congruence).
    cbn. rewrite IH. cbn. split.
    + intros [->|[Hin Hn]]; tauto.
    + intros [[->|Hin] Hn]; [tauto|].
      destruct (N.eq_dec x i); [tauto|]. right. tauto.
Qed.

Lemma NoDup_keepFirst (l : list N) : forall seen, NoDup (keepFirst seen l).
Proof.
  induction l as [|x l IH]; intros seen; cbn; [constructor|].
  destruct (AIService.has seen x); [apply IH|].
  constructor; [|apply IH]. rewrite In_keepFirst. cbn. tauto.
Qed.

(** The prescribed order visits every position exactly once. *)
Lemma expectedOrder_permutation (n : nat) (indices : list N) :
  Permutation (expectedOrder n indices) (positions n).
Proof.
  unfold expectedOrder. set (valid := filter (fun i => i <? N.of_nat n) indices).
  assert (V : forall i, In i valid -> i < N.of_nat n).
  { intros i Hin. apply filter_In in Hin. now apply N.ltb_lt. }
  apply NoDup_Permutation.
  - apply NoDup_app.
    + apply NoDup_keepFirst.
    + apply NoDup_filter, NoDup_positions.
    + intros i H1 H2. apply In_keepFirst in H1. apply filter_In in H2.
      destruct H2 as [_ H2]. apply negb_true_iff in H2.
      assert (AIService.has valid i = true) by (apply has_In; tauto). congruence.
  - apply NoDup_positions.
  - intros i. rewrite in_app_iff, In_keepFirst, filter_In, negb_true_iff, In_positions.
    split.
    + intros [[Hin _] | [Hp _]]; auto.
    + intros Hp. destruct (AIService.has valid i) eqn:E.
      * left. apply has_In in E. cbn. tauto.
      * right. tauto.
Qed.

Lemma pick_expectedOrder_permutation {A} (results : list A) (indices : list N) :
  Permutation results (pick results (expectedOrder (length results) indices)).
Proof.
  rewrite <- (pick_positions results results [] eq_refl) at 1.
  apply Permutation_flat_map. symmetry. apply expectedOrder_permutation.
Qed.

Lemma reordered_eq {A} (results : list A) (indices : list N) (reordered : list A)
    (usedIndices : list N) :
  AIService.pushFresh results
    (filter (fun i => (0 <=? i) && (i <? N.of_nat (length results))) indices) [] []
  = (reordered, usedIndices) ->
  reordered ++ AIService.pushRemaining results 0 usedIndices
  = pick results (expectedOrder (length results) indices).
Proof.
  assert (E : filter (fun i => (0 <=? i) && (i <? N.of_nat (length results))) indices
              = filter (fun i => i <? N.of_nat (length results)) indices).
  { apply filter_ext. intros i.
    replace (0 <=? i) with true by (symmetry; apply N.leb_le; lia). reflexivity. }
  rewrite E, pushFresh_eq. cbn [app]. rewrite app_nil_r. intros H. inversion H; subst.
  rewrite (pushRemaining_eq results results _ [] eq_refl).
  unfold expectedOrder. rewrite pick_app. f_equal. f_equal.
  apply filter_ext. intros i. f_equal. apply has_ext.
  intros x. rewrite <- in_rev, In_keepFirst. cbn. tauto.
Qed.

Lemma pushRemaining_nothing_used {A} (rest : list A) (i : N) :
  AIService.pushRemaining rest i [] = rest.
Proof. revert i. induction rest as [|r rest IH]; intros i; cbn; [reflexivity | now rewrite IH]. Qed.

Lemma reRankResults_eq (cfg : AppConfig) (this : AIService.t) (results : list SearchResult)
    (query : text) (generated : Outcome text) :
  AIService.reRankResults cfg this results query generated =
  Returned
    (if AIService.isConfigured cfg this && (1 <? length results)%nat then
       match namedIndices generated with
       | Some indices => pick results (expectedOrder (length results) indices)
       | None => results
       end
     else results).
Proof.
  unfold AIService.reRankResults. rewrite Nat.ltb_antisym.
  destruct (AIService.isConfigured cfg this); [|reflexivity].
  destruct (length results <=? 1)%nat; [reflexivity|].
  cbn [negb orb andb]. unfold namedIndices.
  destruct generated as [result|e]; [|reflexivity].
  cbn [bind try_catch Monad_Outcome MonadThrow_Outcome].
  destruct (AIService.match_index_array (trim result)) as [arrayMatch|]; [|reflexivity].
  unfold JSON_parse_or_throw.
  destruct (JSON_parse arrayMatch) as [parsed|]; [|reflexivity].
  destruct parsed as [ | b | n | s | l | ms]; try reflexivity.
  cbn [AIService.as_indices].
  destruct (AIService.as_indices_list l) as [indices|]; [|reflexivity].
  destruct (AIService.pushFresh results _ [] []) as [reordered usedIndices] eqn:PF.
  destruct (filter _ indices) as [|i valid] eqn:F.
  - cbn. f_equal. cbn in PF. inversion PF; subst.
    rewrite <- (reordered_eq results indices [] []) by now rewrite F.
    cbn. now rewrite pushRemaining_nothing_used.
  - cbn [length Nat.eqb ret Monad_Outcome]. f_equal.
    apply reordered_eq. now rewrite F.
Qed.

(** C1. Whatever the model answers, [reRankResults] returns a
    permutation of its input: no result is dropped, none is duplicated.
    When a configured service ranks two or more results and the reply
    names indices, the out-of-range ones are discarded, a repeated index
    counts at its first occurrence only, and the positions that were not
    named follow in their original order; in every other case (service
    not configured, fewer than two results, call rejected, no bracketed
    list in the reply, list that is no JSON) the input comes back
    unchanged. *)
Theorem reRankResults_is_permutation (cfg : AppConfig) (this : AIService.t)
    (results : list SearchResult) (query : text) (generated : Outcome text) :
  exists reordered,
    AIService.reRankResults cfg this results query generated = Returned reordered /\
    Permutation results reordered /\
    reordered =
      (if AIService.isConfigured cfg this && (1 <? length results)%nat then
         match namedIndices generated with
         | Some indices => pick results (expectedOrder (length results) indices)
         | None => results
         end
       else results).
Proof.
  rewrite reRankResults_eq. eexists. split; [reflexivity|]. split; [|reflexivity].
  destruct (AIService.isConfigured cfg this && (1 <? length results)%nat);
    [|apply Permutation_refl].
  destruct (namedIndices generated);
    [apply pick_expectedOrder_permutation | apply Permutation_refl].
Qed.

(* ===================================================================== *)
(** * The bracketed span is a list of indices                            *)
(* ===================================================================== *)

Lemma isIndexChar_neq (c k : char) :
  AIService.isIndexChar c = true -> AIService.isIndexChar k = false -> (c =? k) = false.
Proof.
  intros Hc Hk. destruct (N.eqb_spec c k) as [->|]; [congruence | reflexivity].
Qed.

Lemma punctuation_index_char (c : char) :
  AIService.isIndexChar c = true ->
  punctuation c = if c =? ch "," then Some TComma else None.
Proof.
  intros H. unfold punctuation.
  rewrite (isIndexChar_neq c (ch "{") H), (isIndexChar_neq c (ch "}") H),
    (isIndexChar_neq c (ch "[") H), (isIndexChar_neq c (ch "]") H),
    (isIndexChar_neq c (ch ":") H) by reflexivity.
  reflexivity.
Qed.

Lemma span_index_chars_spec (s p rest : text) :
  AIService.span_index_chars s = (p, rest) -> indexChars p /\ s = p ++ rest.
Proof.
  revert p rest. induction s as [|c s IH]; intros p rest H; cbn in H.
  - inversion H. split; [constructor | reflexivity].
  - destruct (AIService.isIndexChar c) eqn:E.
    + destruct (AIService.span_index_chars s) as [p' rest'] eqn:S.
      inversion H; subst. destruct (IH _ _ eq_refl) as [Hp ->].
      split; [constructor; assumption | reflexivity].
    + inversion H. split; [constructor | reflexivity].
Qed.

Lemma match_index_array_shape (s arrayMatch : text) :
  AIService.match_index_array s = Some arrayMatch ->
  exists inner, arrayMatch = ch "[" :: inner ++ [ch "]"] /\ indexChars inner.
Proof.
  induction s as [|x s IH]; cbn; [discriminate|].
  destruct (N.eqb_spec x (ch "[")) as [->|_]; [|exact IH].
  destruct (AIService.span_index_chars s) as [p rest] eqn:S.
  destruct p as [|b p]; [exact IH|].
  destruct rest as [|y rest]; [exact IH|].
  destruct (N.eqb_spec y (ch "]")) as [->|_]; [|exact IH].
  intros H. inversion H; subst.
  exists (b :: p). split; [reflexivity|].
  now destruct (span_index_chars_spec _ _ _ S).
Qed.

Lemma drop_zeros_exponent (rds : text) :
  forall e rds' e', (0 <= e)%Z -> drop_zeros rds e = (rds', e') -> (0 <= e')%Z.
Proof.
  induction rds as [|c rds IH]; intros e rds' e' He H; cbn in H.
  - inversion H. lia.
  - destruct (c =? ch "0").
    + eapply IH; [|exact H]. lia.
    + inversion H. now subst.
Qed.

Lemma mk_finite_index (ds : text) : isIndexNumber (mk_finite false ds 0).
Proof.
  unfold mk_finite, isIndexNumber.
  destruct (drop_zeros (rev ds) 0) as [rds e'] eqn:D.
  assert (He : (0 <= e')%Z) by (eapply drop_zeros_exponent; [|exact D]; lia).
  cbn. destruct (digits_value 10 (rev rds) =? 0); [eauto|].
  apply Z.leb_le in He. rewrite He. eauto.
Qed.

Lemma span_digits_rest (s ip r : text) :
  indexChars s -> span_digits s = (ip, r) -> indexChars r.
Proof.
  revert ip r. induction s as [|c s IH]; intros ip r H S; cbn in S.
  - inversion S. constructor.
  - destruct (isDigit c).
    + destruct (span_digits s) as [ds rest] eqn:E. inversion S; subst.
      inversion H; subst. eauto.
    + inversion S. now subst.
Qed.

Lemma json_number_index (w : text) (n : number) :
  indexChars w -> json_number w = Some n -> isIndexNumber n.
Proof.
  intros H J. unfold json_number in J.
  destruct w as [|c r].
  - discriminate J.
  - assert (Hc : AIService.isIndexChar c = true) by now inversion H.
    rewrite (isIndexChar_neq c (ch "-") Hc) in J by reflexivity.
    unfold scan_decimal in J.
    destruct (span_digits (c :: r)) as [ip rest] eqn:S.
    assert (Hr : indexChars rest) by eauto using span_digits_rest.
    destruct rest as [|d rest].
    + cbn in J. destruct (match ip with [] => false | _ => _ end && true); [|discriminate].
      inversion J. unfold decimal_value. cbn. rewrite app_nil_r. apply mk_finite_index.
    + assert (Hd : AIService.isIndexChar d = true) by now inversion Hr.
      rewrite (isIndexChar_neq d (ch ".") Hd) in J by reflexivity.
      unfold scan_exponent in J.
      rewrite (isIndexChar_neq d (ch "e") Hd), (isIndexChar_neq d (ch "E") Hd) in J by reflexivity.
      discriminate J.
Qed.

Lemma word_token_index (w : text) (t : token) :
  indexChars w -> word_token w = Some t -> indexToken t.
Proof.
  intros H W. unfold word_token in W.
  destruct (text_eqb w (js "true")) eqn:E1.
  { apply text_eqb_eq in E1. subst. inversion H; subst. discriminate. }
  destruct (text_eqb w (js "false")) eqn:E2.
  { apply text_eqb_eq in E2. subst. inversion H; subst. discriminate. }
  destruct (text_eqb w (js "null")) eqn:E3.
  { apply text_eqb_eq in E3. subst. inversion H; subst. discriminate. }
  destruct (json_number w) as [n|] eqn:J; [|discriminate].
  inversion W. right. exists n. split; [reflexivity|].
  eapply json_number_index; eassumption.
Qed.

Lemma lex_idle_step (c : char) (out : list token) (rest : text) :
  AIService.isIndexChar c = true ->
  lex LIdle out (c :: rest) =
  if isJSONWhiteSpace c then lex LIdle out rest
  else if c =? ch "," then lex LIdle (TComma :: out) rest
  else lex (LWord [c]) out rest.
Proof.
  intros H. cbn [lex lex_char]. rewrite (punctuation_index_char c H).
  destruct (isJSONWhiteSpace c); [reflexivity|].
  destruct (c =? ch ","); [reflexivity|].
  now rewrite (isIndexChar_neq c 0x22 H).
Qed.

Lemma lex_word_step (c : char) (acc : text) (out : list token) (rest : text) :
  AIService.isIndexChar c = true ->
  lex (LWord acc) out (c :: rest) =
  if isJSONWhiteSpace c then
    match word_token (rev acc) with
    | Some t => lex LIdle (t :: out) rest
    | None => None
    end
  else if c =? ch "," then
    match word_token (rev acc) with
    | Some t => lex LIdle (TComma :: t :: out) rest
    | None => None
    end
  else lex (LWord (c :: acc)) out rest.
Proof.
  intros H. cbn [lex lex_char].
  rewrite (punctuation_index_char c H), (isIndexChar_neq c 0x22 H) by reflexivity.
  destruct (isJSONWhiteSpace c); cbn [orb];
    [destruct (word_token (rev acc)); reflexivity|].
  destruct (c =? ch ","); [destruct (word_token (rev acc))|]; reflexivity.
Qed.

Lemma lex_word_close (acc : text) (out : list token) :
  lex (LWord acc) out [ch "]"] =
  match word_token (rev acc) with
  | Some t => Some (rev (TRBracket :: t :: out))
  | None => None
  end.
Proof.
  change (lex (LWord acc) out [ch "]"]) with
    (match match word_token (rev acc) with
           | Some t => Some (LIdle, TRBracket :: t :: out)
           | None => None
           end with
     | Some (st', out') => lex st' out' []
     | None => None
     end).
  destruct (word_token (rev acc)); reflexivity.
Qed.

(** Lexing the inside of the span yields commas and index numbers. *)
Lemma lex_index_chars (inner : text) :
  forall st out toks,
    indexChars inner -> lexingIndices st ->
    lex st out (inner ++ [ch "]"]) = Some toks ->
    exists mid, toks = rev out ++ mid ++ [TRBracket] /\ Forall indexToken mid.
Proof.
  induction inner as [|c inner IH]; intros st out toks Hi Hst L.
  - destruct Hst as [|acc Hacc].
    + change (lex LIdle out ([] ++ [ch "]"])) with (Some (rev (TRBracket :: out))) in L.
      inversion L. exists []. split; [reflexivity | constructor].
    + cbn [app] in L. rewrite lex_word_close in L.
      destruct (word_token (rev acc)) as [t|] eqn:W; [|discriminate].
      inversion L. exists [t]. split.
      * cbn. now rewrite <- !app_assoc.
      * constructor; [|constructor].
        apply (word_token_index (rev acc)); [now apply Forall_rev | exact W].
  - inversion Hi as [|? ? Hc Hi']; subst. cbn [app] in L.
    destruct Hst as [|acc Hacc].
    + rewrite (lex_idle_step c out _ Hc) in L.
      destruct (isJSONWhiteSpace c).
      { apply (IH LIdle out toks Hi' LexIdle L). }
      destruct (c =? ch ",").
      { destruct (IH LIdle _ toks Hi' LexIdle L) as [mid [-> Hm]].
        exists (TComma :: mid). split.
        - cbn. now rewrite <- !app_assoc.
        - constructor; [now left | exact Hm]. }
      apply (IH (LWord [c]) out toks Hi'); [|exact L].
      constructor. constructor; [exact Hc | constructor].
    + rewrite (lex_word_step c acc out _ Hc) in L.
      assert (Wt : forall t, word_token (rev acc) = Some t -> indexToken t).
      { intros t W. apply (word_token_index (rev acc)); [now apply Forall_rev | exact W]. }
      destruct (isJSONWhiteSpace c).
      { destruct (word_token (rev acc)) as [t|]; [|discriminate].
        destruct (IH LIdle _ toks Hi' LexIdle L) as [mid [-> Hm]].
        exists (t :: mid). split.
        - cbn. now rewrite <- !app_assoc.
        - constructor; auto. }
      destruct (c =? ch ",").
      { destruct (word_token (rev acc)) as [t|]; [|discriminate].
        destruct (IH LIdle _ toks Hi' LexIdle L) as [mid [-> Hm]].
        exists (t :: TComma :: mid). split.
        - cbn. now rewrite <- !app_assoc.
        - constructor; auto. constructor; [now left | exact Hm]. }
      apply (IH (LWord (c :: acc)) out toks Hi'); [|exact L].
      constructor. constructor; assumption.
Qed.

Lemma parse_index_tokens (mid : list token) :
  forall st v,
    Forall indexToken mid -> parsingIndices st ->
    parse_tokens st (mid ++ [TRBracket]) = Some (SEnd v) ->
    exists l, v = JArray l /\ Forall indexValue l.
Proof.
  induction mid as [|t mid IH]; intros st v Hm Hst P.
  - destruct Hst as [|es Hes|es Hes]; cbn in P; inversion P.
    + exists []. split; [reflexivity | constructor].
    + exists (rev es). split; [reflexivity | now apply Forall_rev].
  - inversion Hm as [|? ? Ht Hm']; subst. cbn [app parse_tokens] in P.
    destruct Ht as [-> | [n [-> Hn]]].
    + destruct Hst as [|es Hes|es Hes]; cbn in P; try discriminate.
      apply (IH _ v Hm' (ParseValue es Hes) P).
    + assert (Hv : indexValue (JNumber n)) by (exists n; auto).
      destruct Hst as [|es Hes|es Hes]; cbn [parse_step start_value complete] in P;
        try discriminate.
      * apply (IH _ v Hm' (ParseElements [JNumber n] (Forall_cons _ Hv (Forall_nil _))) P).
      * apply (IH _ v Hm' (ParseElements (JNumber n :: es) (Forall_cons _ Hv Hes)) P).
Qed.

Lemma as_indices_list_defined (l : list JSON) :
  Forall indexValue l -> exists indices, AIService.as_indices_list l = Some indices.
Proof.
  induction 1 as [|v l [n [-> [i Hi]]] _ [indices IH]]; cbn.
  - eauto.
  - rewrite Hi, IH. eauto.
Qed.

(** What [JSON.parse] returns for a span of the bracket expression is an
    array of array indices: the projection [as_indices] does not fail. *)
Lemma parsed_match_is_index_array (s arrayMatch : text) (v : JSON) :
  AIService.match_index_array s = Some arrayMatch ->
  JSON_parse arrayMatch = Some v ->
  exists indices, AIService.as_indices v = Returned indices.
Proof.
  intros M P. destruct (match_index_array_shape _ _ M) as [inner [-> Hi]].
  unfold JSON_parse in P.
  change (lex LIdle [] (ch "[" :: inner ++ [ch "]"]))
    with (lex LIdle [TLBracket] (inner ++ [ch "]"])) in P.
  destruct (lex LIdle [TLBracket] (inner ++ [ch "]"])) as [ts|] eqn:L; [|discriminate].
  destruct (lex_index_chars inner LIdle [TLBracket] ts Hi LexIdle L) as [mid [-> Hm]].
  cbn [rev app parse_tokens parse_step start_value] in P.
  destruct (parse_tokens (SArrayOpen []) (mid ++ [TRBracket])) as [st|] eqn:T; [|discriminate].
  destruct st; try discriminate. inversion P; subst.
  destruct (parse_index_tokens mid _ v Hm ParseOpen T) as [l [-> Hl]].
  destruct (as_indices_list_defined l Hl) as [indices E].
  exists indices. cbn. now rewrite E.
Qed.

(** A valid index always finds its result: the first loop never meets a
    hole. *)
Lemma valid_index_defined {A} (results : list A) (i : N) :
  (i <? N.of_nat (length results)) = true ->
  exists r, nth_error results (N.to_nat i) = Some r.
Proof.
  intros H. apply N.ltb_lt in H.
  destruct (nth_error results (N.to_nat i)) as [r|] eqn:E; [eauto|].
  apply nth_error_None in E. lia.
Qed.

(** A reply names indices exactly when it holds a bracketed span that is
    JSON. *)
Lemma namedIndices_defined (result arrayMatch : text) (v : JSON) :
  AIService.match_index_array (trim result) = Some arrayMatch ->
  JSON_parse arrayMatch = Some v ->
  exists indices, namedIndices (Returned result) = Some indices.
Proof.
  intros M P. destruct (parsed_match_is_index_array _ _ _ M P) as [indices E].
  unfold namedIndices. rewrite M, P.
  destruct v as [ | b | n | s | l | ms]; try discriminate.
  cbn in E. destruct (AIService.as_indices_list l) as [is_|]; [eauto | discriminate].
Qed.

(* ===================================================================== *)
(** * Decimal digits                                                     *)
(* ===================================================================== *)

Lemma digits_of_uint_digits (u : Decimal.uint) :
  Forall (fun c => isDigit c = true) (digits_of_uint u).
Proof. induction u; cbn [digits_of_uint]; constructor; (reflexivity || assumption). Qed.

Lemma digit_neq (c k : char) : isDigit c = true -> isDigit k = false -> (c =? k) = false.
Proof.
  intros Hc Hk. destruct (N.eqb_spec c k) as [->|]; [congruence | reflexivity].
Qed.

Lemma digits_fold_acc (u : Decimal.uint) :
  forall acc : positive,
    fold_left (fun a c => a * 10 + digitValue c) (digits_of_uint u) (N.pos acc)
    = N.pos (Pos.of_uint_acc u acc).
Proof.
  induction u; intros acc; cbn [digits_of_uint fold_left Pos.of_uint_acc]; [reflexivity| ..];
    rewrite <- IHu; f_equal;
    match goal with
    | |- context [digitValue ?c] =>
        let v := eval vm_compute in (digitValue c) in change (digitValue c) with v
    end; lia.
Qed.

(** Reading the digits of a numeral gives its value. *)
Lemma digits_value_of_uint (u : Decimal.uint) :
  digits_value 10 (digits_of_uint u) = N.of_uint u.
Proof.
  unfold digits_value, N.of_uint.
  induction u; cbn [digits_of_uint fold_left Pos.of_uint]; [reflexivity| ..];
    match goal with
    | |- fold_left _ _ ?x = _ => let v := eval vm_compute in x in change x with v
    end; [exact IHu | apply digits_fold_acc ..].
Qed.

Lemma digits_value_N_digits (n : N) : digits_value 10 (N_digits n) = n.
Proof. unfold N_digits. rewrite digits_value_of_uint. apply DecimalN.Unsigned.of_to. Qed.

Lemma digits_of_uint_inj (u : Decimal.uint) :
  forall u', digits_of_uint u = digits_of_uint u' -> u = u'.
Proof.
  induction u; intros [] H; cbn [digits_of_uint] in H; try discriminate H; try reflexivity;
    f_equal; apply IHu; now inversion H.
Qed.

(** Different numbers have different digits. *)
Lemma N_digits_inj (a b : N) : N_digits a = N_digits b -> a = b.
Proof. intros H. now apply DecimalN.Unsigned.to_uint_inj, digits_of_uint_inj. Qed.

Lemma to_uint_unorm (n : N) : Decimal.unorm (N.to_uint n) = N.to_uint n.
Proof.
  rewrite <- (DecimalN.Unsigned.to_of (N.to_uint n)), DecimalN.Unsigned.of_to. reflexivity.
Qed.

(** No superfluous leading zero. *)
Lemma N_digits_head (n : N) (c : char) (r : text) :
  N_digits n = c :: r -> r <> [] -> c <> ch "0".
Proof.
  unfold N_digits. intros H Hr. pose proof (to_uint_unorm n) as U.
  destruct (N.to_uint n) as [ |u|u|u|u|u|u|u|u|u|u]; cbn [digits_of_uint] in H;
    inversion H; subst; try (intros E; vm_compute in E; discriminate E).
  exfalso. rewrite DecimalFacts.unorm_D0 in U. unfold Decimal.unorm in U.
  destruct (Decimal.nzhead u) eqn:Z;
    try (apply (DecimalFacts.nzhead_nonzero u u); congruence).
  inversion U; subst. now apply Hr.
Qed.

Lemma digits_of_uint_prefix (a : text) :
  forall u b, digits_of_uint u = a ++ b -> exists ua, digits_of_uint ua = a.
Proof.
  induction a as [|c a IH]; intros u b H; [now exists Decimal.Nil|].
  destruct u; cbn [digits_of_uint app] in H; [discriminate H| ..];
    inversion H as [[Hc Ht]]; destruct (IH _ _ Ht) as [ua Ea];
    [exists (Decimal.D0 ua) | exists (Decimal.D1 ua) | exists (Decimal.D2 ua)
    | exists (Decimal.D3 ua) | exists (Decimal.D4 ua) | exists (Decimal.D5 ua)
    | exists (Decimal.D6 ua) | exists (Decimal.D7 ua) | exists (Decimal.D8 ua)
    | exists (Decimal.D9 ua)]; cbn [digits_of_uint]; now rewrite Ea.
Qed.

Lemma unorm_of_head (u : Decimal.uint) (c : char) (r : text) :
  digits_of_uint u = c :: r -> c <> ch "0" -> Decimal.unorm u = u.
Proof.
  destruct u; cbn [digits_of_uint]; intros H Hc; inversion H; subst; try reflexivity.
  now destruct Hc.
Qed.

Lemma N_digits_digits_value (u : Decimal.uint) :
  Decimal.unorm u = u -> N_digits (digits_value 10 (digits_of_uint u)) = digits_of_uint u.
Proof.
  intros U. unfold N_digits.
  now rewrite digits_value_of_uint, DecimalN.Unsigned.to_of, U.
Qed.

Lemma drop_zeros_spec (l : text) :
  forall e rds e', drop_zeros l e = (rds, e') ->
    match rds with
    | [] => l = repeat (ch "0") (length l)
    | c :: _ => c <> ch "0" /\
                exists k, l = repeat (ch "0") k ++ rds /\ e' = (e + Z.of_nat k)%Z
    end.
Proof.
  induction l as [|c l IH]; intros e rds e' H; cbn [drop_zeros] in H.
  - inversion H. reflexivity.
  - destruct (N.eqb_spec c (ch "0")) as [->|Hc].
    + specialize (IH _ _ _ H). destruct rds as [|d rds].
      * cbn [length repeat]. now rewrite <- IH.
      * destruct IH as [Hd [k [-> ->]]]. split; [exact Hd|].
        exists (S k). split; [reflexivity | lia].
    + inversion H; subst. split; [exact Hc|]. exists 0%nat. split; [reflexivity | lia].
Qed.

Lemma digits_fold_lower (ds : text) :
  forall acc,
    acc * 10 ^ N.of_nat (length ds) <= fold_left (fun a c => a * 10 + digitValue c) ds acc.
Proof.
  induction ds as [|c ds IH]; intros acc; cbn [fold_left length].
  - cbn. lia.
  - specialize (IH (acc * 10 + digitValue c)).
    rewrite Nat2N.inj_succ, N.pow_succ_r'. nia.
Qed.

(** A number below 10^21 has at most 21 digits. *)
Lemma N_digits_length (n : N) : n < 10 ^ 21 -> (length (N_digits n) <= 21)%nat.
Proof.
  intros B. destruct (N_digits n) as [|c r] eqn:E; [cbn; lia|].
  destruct (le_lt_dec (length r) 20) as [L|L]; [cbn; lia|]. exfalso.
  assert (Hr : r <> []) by (destruct r; cbn in L; [lia | discriminate]).
  pose proof (N_digits_head n c r E Hr) as Hc.
  pose proof (digits_of_uint_digits (N.to_uint n)) as Hd.
  fold (N_digits n) in Hd. rewrite E in Hd. inversion Hd as [|? ? Hdc _]; subst.
  pose proof (digits_value_N_digits n) as V. rewrite E in V.
  unfold digits_value in V. cbn [fold_left] in V.
  pose proof (digits_fold_lower r (0 * 10 + digitValue c)) as Lw. rewrite V in Lw.
  assert (D : 1 <= digitValue c).
  { unfold digitValue. rewrite Hdc. unfold isDigit in Hdc.
    apply andb_prop in Hdc. destruct Hdc as [H1 H2]. apply N.leb_le in H1.
    change (ch "0") with 48 in Hc. lia. }
  assert (P : 10 ^ 21 <= 10 ^ N.of_nat (length r)) by (apply N.pow_le_mono_r; lia).
  nia.
Qed.

(** [String(n)] of a natural number below 10^21 is its decimal digits. *)
Lemma NumberToString_N (n : N) : n < 10 ^ 21 -> NumberToString (number_of_N n) = N_digits n.
Proof.
  intros B. pose proof (N_digits_length n B) as Len.
  destruct n as [|p]; [reflexivity|].
  unfold number_of_N, mk_finite.
  destruct (drop_zeros (rev (N_digits (N.pos p))) 0) as [rds e'] eqn:D.
  pose proof (drop_zeros_spec _ _ _ _ D) as S.
  assert (Z : forall r, N_digits (N.pos p) <> ch "0" :: r).
  { intros r E. destruct r as [|c r].
    - change [ch "0"] with (N_digits 0) in E. apply N_digits_inj in E. discriminate E.
    - apply (N_digits_head _ _ _ E); [discriminate | reflexivity]. }
  destruct rds as [|d rds].
  - exfalso. rewrite length_rev in S.
    apply (f_equal (@rev char)) in S. rewrite rev_involutive, rev_repeat in S.
    destruct (N_digits (N.pos p)) as [|c r] eqn:E; [now apply (N_digits_nonempty (N.pos p))|].
    cbn [length repeat] in S. inversion S; subst. now apply (Z (repeat (ch "0") (length r))).
  - destruct S as [Hd [k [R ->]]].
    assert (E : N_digits (N.pos p) = rev (d :: rds) ++ repeat (ch "0") k).
    { rewrite <- (rev_involutive (N_digits (N.pos p))), R, rev_app_distr, rev_repeat.
      reflexivity. }
    destruct (rev (d :: rds)) as [|c0 r0] eqn:P.
    { apply (f_equal (@length char)) in P. rewrite length_rev in P. discriminate P. }
    assert (Hc0 : c0 <> ch "0").
    { intros ->. apply (Z (r0 ++ repeat (ch "0") k)). exact E. }
    destruct (digits_of_uint_prefix (c0 :: r0) (N.to_uint (N.pos p)) (repeat (ch "0") k) E)
      as [ua Ea].
    pose proof (N_digits_digits_value ua (unorm_of_head ua c0 r0 Ea Hc0)) as V.
    rewrite Ea in V.
    cbn [NumberToString].
    destruct (N.eqb_spec (digits_value 10 (c0 :: r0)) 0) as [M|M].
    { rewrite M in V. change (N_digits 0) with [ch "0"] in V. inversion V. congruence. }
    rewrite V. cbv zeta.
    rewrite E, length_app, repeat_length in Len.
    replace ((Z.of_nat (length (c0 :: r0)) <=? Z.of_nat (length (c0 :: r0)) + (0 + Z.of_nat k))%Z
             && (Z.of_nat (length (c0 :: r0)) + (0 + Z.of_nat k) <=? 21)%Z) with true
      by (symmetry; apply andb_true_iff; split; apply Z.leb_le; lia).
    replace (Z.to_nat (Z.of_nat (length (c0 :: r0)) + (0 + Z.of_nat k)
                       - Z.of_nat (length (c0 :: r0)))) with k by lia.
    rewrite E. reflexivity.
Qed.

(* ===================================================================== *)
(** * The search gateway, continued                                      *)
(* ===================================================================== *)

Lemma mapWithIndex_canonical (items : list JSON) :
  forall index,
    Forall mappable items ->
    AirweaveClient.mapWithIndex AirweaveClient.transformItem items index
    = Returned (canonicalResults items index).
Proof.
  induction items as [|item items IH]; intros index H; [reflexivity|].
  inversion H as [|? ? Hi Hr]; subst.
  cbn [AirweaveClient.mapWithIndex canonicalResults].
  rewrite (transformItem_mappable item index Hi). cbn [bind Monad_Outcome].
  rewrite (IH (S index) Hr). reflexivity.
Qed.

Lemma canonicalResults_length (items : list JSON) :
  forall index, length (canonicalResults items index) = length items.
Proof.
  induction items as [|item items IH]; intros index; cbn; [reflexivity | now rewrite IH].
Qed.

Lemma mapWithIndex_returned (items : list JSON) :
  forall index rs,
    AirweaveClient.mapWithIndex AirweaveClient.transformItem items index = Returned rs ->
    Forall mappable items.
Proof.
  induction items as [|item items IH]; intros index rs H; [constructor|].
  cbn [AirweaveClient.mapWithIndex] in H.
  destruct (AirweaveClient.transformItem item index) as [r|] eqn:T; [|discriminate H].
  cbn [bind Monad_Outcome] in H.
  destruct (AirweaveClient.mapWithIndex AirweaveClient.transformItem items (S index))
    as [rs'|] eqn:E; [|discriminate H].
  constructor; [exact (proj1 (transformItem_returned _ _ _ T)) | exact (IH _ _ E)].
Qed.

(** X1. A configured search contacts the collaborator exactly once,
    whatever comes back: one POST to the search address of the
    collection, carrying the credential in the x-api-key header.  There
    is no second attempt, the configuration is left as it was, and the
    response reports the query and the search type of the request. *)
Theorem search_sends_exactly_one_request (this : AirweaveClient.t) (options : SearchOptions)
    (w : World) :
  AirweaveClient.isConfigured this = true ->
  exists r w',
    AirweaveClient.search this options w = (Returned r, w') /\
    sent w' = sent w ++
      [ {| method := js "POST";
           url_ := AirweaveClient.baseUrl this ++ js "/collections/" ++
                   AirweaveClient.collectionId this ++ js "/search";
           headers := [(js "Content-Type", js "application/json");
                       (js "x-api-key", AirweaveClient.apiKey this)];
           body := body (AirweaveClient.searchRequest this (appConfig w) options) |} ] /\
    appConfig w' = appConfig w /\
    query r = o_query options /\
    searchType r = AirweaveClient.searchTypeOrHybrid options.
Proof.
  intros C. rewrite search_eq, C.
  destruct (answered _); eexists _, _; repeat split; reflexivity.
Qed.

Lemma search_sends_exactly_one_request_witness :
  exists r w',
    AirweaveClient.search demoClient (demoOptions "hello")
      (demoWorld (HttpResponse 503 (js "Service Unavailable") (js "later"))) = (Returned r, w') /\
    sent w' = sent (demoWorld (HttpResponse 503 (js "Service Unavailable") (js "later"))) ++
      [ {| method := js "POST";
           url_ := AirweaveClient.baseUrl demoClient ++ js "/collections/" ++
                   AirweaveClient.collectionId demoClient ++ js "/search";
           headers := [(js "Content-Type", js "application/json");
                       (js "x-api-key", AirweaveClient.apiKey demoClient)];
           body := body (AirweaveClient.searchRequest demoClient
                           (appConfig (demoWorld (HttpResponse 503 (js "Service Unavailable")
                                                    (js "later"))))
                           (demoOptions "hello")) |} ] /\
    appConfig w' = appConfig (demoWorld (HttpResponse 503 (js "Service Unavailable") (js "later"))) /\
    query r = o_query (demoOptions "hello") /\
    searchType r = AirweaveClient.searchTypeOrHybrid (demoOptions "hello").
Proof.
  apply search_sends_exactly_one_request. reflexivity.
Defined.

(** X2. A configured search succeeds in exactly one case: the
    collaborator answers with a status from 200 to 299, the body is JSON,
    and every raw element taken from it gives a record, that is, none is
    [null] and none holds, in a value that is converted with [String()]
    or [Number()], an object with a member named toString. *)
Theorem search_succeeds_iff (this : AirweaveClient.t) (options : SearchOptions) (w : World) :
  AirweaveClient.isConfigured this = true ->
  exists r w',
    AirweaveClient.search this options w = (Returned r, w') /\
    (success r = true <->
     exists status statusText responseBody data,
       network w (requestOf this options w) = HttpResponse status statusText responseBody /\
       okStatus status = true /\
       JSON_parse responseBody = Some data /\
       Forall mappable (AirweaveClient.rawResults data)).
Proof.
  intros C. rewrite search_eq, C.
  destruct (network w (requestOf this options w)) as [e | status statusText responseBody] eqn:U;
    cbn [answered].
  - eexists _, _. split; [reflexivity|]. split; [discriminate|].
    intros [? [? [? [? [H _]]]]]. discriminate H.
  - destruct (okStatus status) eqn:K.
    + destruct (JSON_parse responseBody) as [data|] eqn:P.
      * destruct (AirweaveClient.transformResponse data) as [rs|e] eqn:T.
        -- eexists _, _. split; [reflexivity|]. split; [|reflexivity].
           intros _. exists status, statusText, responseBody, data.
           repeat split; try assumption. exact (mapWithIndex_returned _ _ _ T).
        -- eexists _, _. split; [reflexivity|]. split; [discriminate|].
           intros [? [? [? [data' [H [_ [P' F]]]]]]]. inversion H; subst.
           rewrite P in P'. inversion P'; subst.
           unfold AirweaveClient.transformResponse in T.
           rewrite (mapWithIndex_canonical _ 0 F) in T. discriminate T.
      * eexists _, _. split; [reflexivity|]. split; [discriminate|].
        intros [? [? [? [? [H [_ [P' _]]]]]]]. inversion H; subst. congruence.
    + eexists _, _. split; [reflexivity|]. split; [discriminate|].
      intros [? [? [? [? [H [K' _]]]]]]. inversion H; subst. congruence.
Qed.

Lemma search_succeeds_iff_witness :
  exists r w',
    AirweaveClient.search demoClient (demoOptions "hello")
      (demoWorld (HttpResponse 200 (js "OK") (jq "{'items':[{'id':'a'},{'text':{'toString':1}}]}")))
    = (Returned r, w') /\
    (success r = true <->
     exists status statusText responseBody data,
       network (demoWorld (HttpResponse 200 (js "OK")
                             (jq "{'items':[{'id':'a'},{'text':{'toString':1}}]}")))
         (requestOf demoClient (demoOptions "hello")
            (demoWorld (HttpResponse 200 (js "OK")
                          (jq "{'items':[{'id':'a'},{'text':{'toString':1}}]}"))))
       = HttpResponse status statusText responseBody /\
       okStatus status = true /\
       JSON_parse responseBody = Some data /\
       Forall mappable (AirweaveClient.rawResults data)).
Proof.
  apply search_succeeds_iff. reflexivity.
Defined.

(** X3. When a configured search is answered with a success status and a
    JSON body whose raw elements all give a record (none is [null], none
    holds an object with a member named toString in a converted value),
    every raw element gives one result, in the order of the response and
    numbered from 0; the response counts them, carries no error, and
    reports the difference of the two clock readings as processing
    time. *)
Theorem search_success_maps_every_record (this : AirweaveClient.t) (options : SearchOptions)
    (w : World) (status : N) (statusText responseBody : text) (data : JSON) :
  AirweaveClient.isConfigured this = true ->
  network w (requestOf this options w) = HttpResponse status statusText responseBody ->
  okStatus status = true ->
  JSON_parse responseBody = Some data ->
  Forall mappable (AirweaveClient.rawResults data) ->
  exists r w',
    AirweaveClient.search this options w = (Returned r, w') /\
    success r = true /\ error r = None /\
    results r = canonicalResults (AirweaveClient.rawResults data) 0 /\
    totalResults r = length (AirweaveClient.rawResults data) /\
    processingTime r = Some (clock w (S (clockReads w)) - clock w (clockReads w))%Z.
Proof.
  intros C U K P F. rewrite search_eq, C, U. cbn [answered]. rewrite K, P.
  unfold AirweaveClient.transformResponse. rewrite (mapWithIndex_canonical _ 0 F).
  eexists _, _. split; [reflexivity|]. cbn.
  repeat split. apply canonicalResults_length.
Qed.

Lemma search_success_maps_every_record_witness :
  exists r w',
    AirweaveClient.search demoClient (demoOptions "hello")
      (demoWorld (HttpResponse 201 (js "Created")
                    (jq "{'data':[{'text':'t','meta':{'toString':1}},'plain',[1]]}")))
    = (Returned r, w') /\
    success r = true /\ error r = None /\
    results r = canonicalResults
                  [JObject [(js "text", JString (js "t"));
                            (js "meta", JObject [(js "toString", JNumber (Finite false 1 0))])];
                   JString (js "plain");
                   JArray [JNumber (Finite false 1 0)]] 0 /\
    totalResults r = 3%nat /\
    processingTime r = Some 7%Z.
Proof.
  apply (search_success_maps_every_record demoClient (demoOptions "hello")
           (demoWorld (HttpResponse 201 (js "Created")
                         (jq "{'data':[{'text':'t','meta':{'toString':1}},'plain',[1]]}")))
           201 (js "Created") (jq "{'data':[{'text':'t','meta':{'toString':1}},'plain',[1]]}")
           (JObject [(js "data",
                      JArray [JObject [(js "text", JString (js "t"));
                                       (js "meta",
                                        JObject [(js "toString", JNumber (Finite false 1 0))])];
                              JString (js "plain");
                              JArray [JNumber (Finite false 1 0)]])]));
    try reflexivity.
  repeat (constructor; [split; [discriminate | reflexivity]|]). constructor.
Defined.

(** X4. The error message of a failed configured search tells what went
    wrong.  A broken transport gives the message of the error it raised
    (or the fixed text for a thrown value that is no Error); a status
    outside 200..299 gives "Airweave API error (", the decimal digits of
    the status, "): " and the body as it was received; a body that is no
    JSON gives the message of the engine's syntax error. *)
Theorem search_failure_messages :
  (forall this options w e,
     AirweaveClient.isConfigured this = true ->
     network w (requestOf this options w) = NetworkFailure e ->
     fst (AirweaveClient.search this options w)
     = Returned (failureResponse options
                   match e with
                   | Error_ m => m
                   | Engine k => engineMessage w k
                   | NotAnError => js "Unknown error occurred"
                   end)) /\
  (forall this options w status statusText responseBody,
     AirweaveClient.isConfigured this = true ->
     network w (requestOf this options w) = HttpResponse status statusText responseBody ->
     okStatus status = false -> status < 10 ^ 21 ->
     fst (AirweaveClient.search this options w)
     = Returned (failureResponse options
                   (js "Airweave API error (" ++ N_digits status ++ js "): " ++ responseBody))) /\
  (forall this options w status statusText responseBody,
     AirweaveClient.isConfigured this = true ->
     network w (requestOf this options w) = HttpResponse status statusText responseBody ->
     okStatus status = true -> JSON_parse responseBody = None ->
     fst (AirweaveClient.search this options w)
     = Returned (failureResponse options (engineMessage w (JSONSyntaxError responseBody)))).
Proof.
  split; [|split].
  - intros this options w e C U. rewrite search_eq, C, U. destruct e; reflexivity.
  - intros this options w status statusText responseBody C U K B.
    rewrite search_eq, C, U. cbn [answered]. rewrite K, (NumberToString_N status B). reflexivity.
  - intros this options w status statusText responseBody C U K P.
    rewrite search_eq, C, U. cbn [answered]. rewrite K, P. reflexivity.
Qed.

Lemma search_failure_messages_witness :
  fst (AirweaveClient.search demoClient (demoOptions "hello")
         (demoWorld (NetworkFailure (Error_ (js "fetch failed")))))
  = Returned (failureResponse (demoOptions "hello") (js "fetch failed")) /\
  fst (AirweaveClient.search demoClient (demoOptions "hello")
         (demoWorld (HttpResponse 404 (js "Not Found") (jq "{'detail':'no such collection'}"))))
  = Returned (failureResponse (demoOptions "hello")
                (js "Airweave API error (" ++ N_digits 404 ++ js "): " ++
                 jq "{'detail':'no such collection'}")) /\
  fst (AirweaveClient.search demoClient (demoOptions "hello")
         (demoWorld (HttpResponse 200 (js "OK") (js "<html>"))))
  = Returned (failureResponse (demoOptions "hello")
                (engineMessage (demoWorld (HttpResponse 200 (js "OK") (js "<html>")))
                   (JSONSyntaxError (js "<html>")))).
Proof.
  destruct search_failure_messages as [T [S J]].
  split; [|split].
  - apply (T demoClient (demoOptions "hello")
             (demoWorld (NetworkFailure (Error_ (js "fetch failed"))))
             (Error_ (js "fetch failed"))); reflexivity.
  - apply (S demoClient (demoOptions "hello") _ 404 (js "Not Found")); reflexivity.
  - apply (J demoClient (demoOptions "hello") _ 200 (js "OK")); reflexivity.
Defined.

(** X5. The fields of a record follow a fixed precedence.  Whenever a
    raw element gives a record, the id is [String()] of the first truthy
    value among id, _id, entity_id, and the decimal position of the
    element when none is truthy; source and source type are [String()]
    of the first truthy candidate and "notion" without one; title and
    the two dates take the first of their two names when it is truthy
    and whatever the second holds otherwise; metadata and url are copied
    as found.  An element gives such a record when it is not [null] and
    the values chosen for content, id, source, source type and score can
    be converted (none is, or holds in an array, an object with a member
    named toString). *)
Theorem record_fields_follow_precedence (item : JSON) (index : nat) :
  (forall r,
     AirweaveClient.transformItem item index = Returned r ->
     id r = match firstTruthy item idFields with
            | Some v => ToString v
            | None => NumberToString (number_of_nat index)
            end /\
     source r = match firstTruthy item sourceFields with
                | Some v => ToString v
                | None => js "notion"
                end /\
     sourceType r = match firstTruthy item sourceTypeFields with
                    | Some v => ToString v
                    | None => js "notion"
                    end /\
     title r = (if truthy (read item "title") then read item "title" else read item "name") /\
     createdAt r = (if truthy (read item "created_at") then read item "created_at"
                    else read item "createdAt") /\
     updatedAt r = (if truthy (read item "updated_at") then read item "updated_at"
                    else read item "updatedAt") /\
     metadata r = read item "metadata" /\
     url r = read item "url") /\
  (mappable item -> exists r, AirweaveClient.transformItem item index = Returned r).
Proof.
  split.
  - intros r H. destruct (transformItem_returned item index r H) as [_ ->].
    cbn [id source sourceType title createdAt updatedAt metadata url canonicalResult].
    unfold fieldValue.
    destruct (firstTruthy item idFields), (firstTruthy item sourceFields),
      (firstTruthy item sourceTypeFields); repeat split; reflexivity.
  - intros M. now apply transformItem_not_null.
Qed.

Lemma record_fields_follow_precedence_witness :
  exists r,
    AirweaveClient.transformItem
      (JObject [(js "id", JString []); (js "entity_id", JNumber (Finite false 42 0));
                (js "collection", JString (js "wiki")); (js "name", JString (js "Plan"))]) 3
    = Returned r /\
    id r = js "42" /\ source r = js "wiki" /\ sourceType r = js "notion" /\
    title r = Some (JString (js "Plan")) /\ createdAt r = None /\ updatedAt r = None /\
    metadata r = None /\ url r = None.
Proof.
  destruct (record_fields_follow_precedence
              (JObject [(js "id", JString []); (js "entity_id", JNumber (Finite false 42 0));
                        (js "collection", JString (js "wiki")); (js "name", JString (js "Plan"))])
              3) as [F E].
  destruct E as [r E]; [split; [discriminate | reflexivity]|].
  exists r. split; [exact E|]. exact (F r E).
Defined.

(** X6. The content of a record is [String()] of the first truthy value
    among content, text, body, document, page_content, chunk, data, and
    the JSON text of the whole element when none is truthy.  It can only
    be empty when the chosen field holds an array. *)
Theorem content_falls_back_to_json (item : JSON) (index : nat) (r : SearchResult) :
  AirweaveClient.transformItem item index = Returned r ->
  content r = match firstTruthy item contentFields with
              | Some v => ToString v
              | None => JSON_stringify item
              end /\
  (content r = [] -> exists l, firstTruthy item contentFields = Some (JArray l)).
Proof.
  intros H. destruct (transformItem_returned item index r H) as [_ ->].
  cbn [content canonicalResult]. unfold fieldValue.
  destruct (firstTruthy item contentFields) as [v|] eqn:F.
  - split; [reflexivity|]. intros E.
    destruct v as [ | b | n | s | l | ms]; try (now exists l); exfalso;
      apply (ToString_truthy_nonempty _ (firstTruthy_truthy _ _ _ F)); try exact E;
      intros l; discriminate.
  - split; [reflexivity|]. intros E. now apply JSON_stringify_nonempty in E.
Qed.

Lemma content_falls_back_to_json_witness :
  content (canonicalResult (JObject [(js "text", JString []); (js "title", JString (js "T"))]) 0)
  = jq "{'text':'','title':'T'}" /\
  (content (canonicalResult (JObject [(js "text", JString []); (js "title", JString (js "T"))]) 0)
   = [] ->
   exists l, firstTruthy (JObject [(js "text", JString []); (js "title", JString (js "T"))])
               contentFields = Some (JArray l)).
Proof.
  apply (content_falls_back_to_json
           (JObject [(js "text", JString []); (js "title", JString (js "T"))]) 0).
  reflexivity.
Defined.

Lemma canonicalResults_position_ids (items : list JSON) :
  forall index,
    N.of_nat (index + length items) <= 10 ^ 21 ->
    Forall (fun item => mappable item /\ firstTruthy item idFields = None) items ->
    map id (canonicalResults items index)
    = map N_digits (map N.of_nat (seq index (length items))).
Proof.
  induction items as [|item items IH]; intros index B H; [reflexivity|].
  inversion H as [|? ? [_ Hi] Hr]; subst.
  cbn [canonicalResults map length seq]. f_equal.
  - cbn [id canonicalResult]. unfold fieldValue. rewrite Hi. cbn [ToString].
    apply NumberToString_N. cbn [length] in B. lia.
  - apply IH; [cbn [length] in B; lia | exact Hr].
Qed.

(** X7. When every element of a response gives a record (none is [null],
    none holds an object with a member named toString in a converted
    value) and none carries a truthy id, _id or entity_id, the ids of the
    results are the decimal positions 0, 1, 2, ... of the elements, and
    no two results share an id. *)
Theorem position_ids_are_unique (items : list JSON) :
  N.of_nat (length items) <= 10 ^ 21 ->
  Forall (fun item => mappable item /\ firstTruthy item idFields = None) items ->
  exists rs,
    AirweaveClient.transformResponse (JArray items) = Returned rs /\
    map id rs = map N_digits (positions (length items)) /\
    NoDup (map id rs).
Proof.
  intros B H. exists (canonicalResults items 0).
  assert (E : map id (canonicalResults items 0) = map N_digits (positions (length items))).
  { now apply canonicalResults_position_ids. }
  split; [|split].
  - apply mapWithIndex_canonical. eapply Forall_impl; [|exact H]. now intros item [Hn _].
  - exact E.
  - rewrite E. apply Injective_map_NoDup; [|apply NoDup_positions].
    intros a b. apply N_digits_inj.
Qed.

Lemma position_ids_are_unique_witness :
  exists rs,
    AirweaveClient.transformResponse
      (JArray [JObject [(js "text", JString (js "a"))]; JString (js "b");
               JObject [(js "id", JNumber (Finite false 0 0))]]) = Returned rs /\
    map id rs = map N_digits (positions 3) /\
    NoDup (map id rs).
Proof.
  apply (position_ids_are_unique
           [JObject [(js "text", JString (js "a"))]; JString (js "b");
            JObject [(js "id", JNumber (Finite false 0 0))]]).
  - vm_compute. discriminate.
  - repeat (constructor; [split; [split; [discriminate | reflexivity] | reflexivity]|]).
    constructor.
Defined.

(* ===================================================================== *)
(** * The client: construction, setters, connection test                 *)
(* ===================================================================== *)

(** X8. What the constructor and the setters store is what a search
    uses.  A client built with a non-empty credential and collection
    identifier and no address sends its search to the address of the
    configuration; after the two setters were given non-empty values the
    search goes to the new collection with the new credential, whatever
    the client held before, and the base address stays as it was.  The
    constructor treats an empty argument like a missing one; a setter
    stores the empty string, and the client is then not configured. *)
Theorem setters_take_effect_on_search :
  (forall cfg apiKey_ collectionId_ options w,
     apiKey_ <> [] -> collectionId_ <> [] ->
     exists r w' sentBody,
       AirweaveClient.search
         (AirweaveClient.new cfg (Some apiKey_) (Some collectionId_) (Some [])) options w
       = (Returned r, w') /\
       sent w' = sent w ++
         [ {| method := js "POST";
              url_ := airweaveApiUrl cfg ++ js "/collections/" ++ collectionId_ ++ js "/search";
              headers := [(js "Content-Type", js "application/json"); (js "x-api-key", apiKey_)];
              body := sentBody |} ]) /\
  (forall this apiKey_ collectionId_ options w,
     apiKey_ <> [] -> collectionId_ <> [] ->
     exists r w' sentBody,
       AirweaveClient.search
         (AirweaveClient.setCollectionId (AirweaveClient.setApiKey this apiKey_) collectionId_)
         options w
       = (Returned r, w') /\
       sent w' = sent w ++
         [ {| method := js "POST";
              url_ := AirweaveClient.baseUrl this ++ js "/collections/" ++ collectionId_ ++
                      js "/search";
              headers := [(js "Content-Type", js "application/json"); (js "x-api-key", apiKey_)];
              body := sentBody |} ]) /\
  (forall this collectionId_,
     AirweaveClient.isConfigured
       (AirweaveClient.setCollectionId (AirweaveClient.setApiKey this []) collectionId_) = false /\
     AirweaveClient.isConfigured
       (AirweaveClient.setApiKey (AirweaveClient.setCollectionId this []) collectionId_) = false).
Proof.
  assert (NE : forall s : text, s <> [] -> nonEmpty s = true).
  { intros [|c s] H; [congruence | reflexivity]. }
  split; [|split].
  - intros cfg apiKey_ collectionId_ options w Hk Hc.
    assert (E : AirweaveClient.new cfg (Some apiKey_) (Some collectionId_) (Some [])
                = {| AirweaveClient.apiKey := apiKey_;
                     AirweaveClient.baseUrl := airweaveApiUrl cfg;
                     AirweaveClient.collectionId := collectionId_ |}).
    { unfold AirweaveClient.new, or_text. now rewrite (NE _ Hk), (NE _ Hc). }
    rewrite E, search_eq. unfold AirweaveClient.isConfigured.
    cbn [AirweaveClient.apiKey AirweaveClient.collectionId].
    rewrite (NE _ Hk), (NE _ Hc). cbn [andb].
    destruct (answered _); eexists _, _, _; split; reflexivity.
  - intros this apiKey_ collectionId_ options w Hk Hc.
    rewrite search_eq. unfold AirweaveClient.isConfigured.
    cbn [AirweaveClient.apiKey AirweaveClient.collectionId AirweaveClient.setApiKey
         AirweaveClient.setCollectionId].
    rewrite (NE _ Hk), (NE _ Hc). cbn [andb].
    destruct (answered _); eexists _, _, _; split; reflexivity.
  - intros this collectionId_. split; [reflexivity|].
    unfold AirweaveClient.isConfigured. cbn. apply andb_false_r.
Qed.

Lemma setters_take_effect_on_search_witness :
  exists r w' sentBody,
    AirweaveClient.search
      (AirweaveClient.setCollectionId (AirweaveClient.setApiKey demoClient (js "key-456"))
         (js "wiki"))
      (demoOptions "hello") (demoWorld (HttpResponse 200 (js "OK") (js "[]")))
    = (Returned r, w') /\
    sent w' = sent (demoWorld (HttpResponse 200 (js "OK") (js "[]"))) ++
      [ {| method := js "POST";
           url_ := AirweaveClient.baseUrl demoClient ++ js "/collections/" ++ js "wiki" ++
                   js "/search";
           headers := [(js "Content-Type", js "application/json"); (js "x-api-key", js "key-456")];
           body := sentBody |} ].
Proof.
  apply (proj1 (proj2 setters_take_effect_on_search)); discriminate.
Defined.

Section Collections.

Variable this : AirweaveClient.t.

(** [listCollections] sends one request and answers with what the reply
    amounts to. *)
Lemma listCollections_eq (w : World) :
  AirweaveClient.listCollections this w =
  (match network w (AirweaveClient.collectionsRequest this) with
   | NetworkFailure e => Thrown e
   | HttpResponse status _ responseBody =>
       if okStatus status then JSON_parse_or_throw responseBody
       else Thrown (Error_ (js "Failed to list collections: " ++
                            NumberToString (number_of_N status) ++ js " - " ++ responseBody))
   end,
   record_request (AirweaveClient.collectionsRequest this) w).
Proof.
  unfold AirweaveClient.listCollections. cbn [bind Monad_M]. unfold fetch.
  destruct (network w _) as [e | code reason reply]; [reflexivity|].
  unfold ok. cbn [status responseBody]. destruct (okStatus code); cbn [negb].
  - cbn [bind Monad_M]. unfold lift. destruct (JSON_parse_or_throw reply); reflexivity.
  - reflexivity.
Qed.

(** [testConnection], case by case. *)
Lemma testConnection_eq (w : World) :
  AirweaveClient.testConnection this w =
  (Returned
     match fst (AirweaveClient.listCollections this w) with
     | Returned collections =>
         {| AirweaveClient.success := true;
            AirweaveClient.message :=
              js "Connected successfully. Found " ++
              NumberToString (number_of_nat match collections with
                                            | JArray l => length l
                                            | _ => 0%nat
                                            end) ++
              js " collections." |}
     | Thrown e =>
         {| AirweaveClient.success := false;
            AirweaveClient.message :=
              match e with
              | Error_ m => m
              | Engine k => engineMessage w k
              | NotAnError => js "Connection failed"
              end |}
     end,
   record_request (AirweaveClient.collectionsRequest this) w).
Proof.
  unfold AirweaveClient.testConnection. cbn [try_catch MonadThrow_M bind Monad_M].
  rewrite listCollections_eq. cbn [fst].
  destruct (match network w _ with NetworkFailure e => _ | HttpResponse _ _ _ => _ end);
    reflexivity.
Qed.

End Collections.

(** X9. The connection test never raises, and it always contacts the
    collaborator, configured or not: exactly one GET request goes to the
    collections address with the credential in the x-api-key header. *)
Theorem testConnection_never_raises (this : AirweaveClient.t) (w : World) :
  exists r w',
    AirweaveClient.testConnection this w = (Returned r, w') /\
    sent w' = sent w ++
      [ {| method := js "GET";
           url_ := AirweaveClient.baseUrl this ++ js "/collections";
           headers := [(js "Content-Type", js "application/json");
                       (js "x-api-key", AirweaveClient.apiKey this)];
           body := [] |} ].
Proof. rewrite testConnection_eq. eexists _, _. split; reflexivity. Qed.

(** X10. What the connection test reports.  Every reply with a success
    status and a JSON body counts as a success: the message gives the
    number of elements when the body is an array, and 0 for any other
    JSON value.  A status outside 200..299 is a failure whose message is
    "Failed to list collections: ", the digits of the status, " - " and
    the body.  A body that is no JSON is a failure with the message of
    the engine's syntax error. *)
Theorem testConnection_reports (this : AirweaveClient.t) (w : World)
    (status : N) (statusText responseBody : text) :
  network w (AirweaveClient.collectionsRequest this) = HttpResponse status statusText responseBody ->
  status < 10 ^ 21 ->
  exists r,
    fst (AirweaveClient.testConnection this w) = Returned r /\
    (okStatus status = false ->
     AirweaveClient.success r = false /\
     AirweaveClient.message r
     = js "Failed to list collections: " ++ N_digits status ++ js " - " ++ responseBody) /\
    (okStatus status = true -> JSON_parse responseBody = None ->
     AirweaveClient.success r = false /\
     AirweaveClient.message r = engineMessage w (JSONSyntaxError responseBody)) /\
    (forall l, okStatus status = true -> JSON_parse responseBody = Some (JArray l) ->
               N.of_nat (length l) < 10 ^ 21 ->
     AirweaveClient.success r = true /\
     AirweaveClient.message r
     = js "Connected successfully. Found " ++ N_digits (N.of_nat (length l)) ++
       js " collections.") /\
    (forall data, okStatus status = true -> JSON_parse responseBody = Some data ->
                  (forall l, data <> JArray l) ->
     AirweaveClient.success r = true /\
     AirweaveClient.message r = js "Connected successfully. Found 0 collections.").
Proof.
  intros U B. rewrite testConnection_eq, listCollections_eq, U. cbn [fst].
  eexists. split; [reflexivity|].
  unfold JSON_parse_or_throw.
  split; [|split; [|split]].
  - intros K. rewrite K, (NumberToString_N status B). split; reflexivity.
  - intros K P. rewrite K, P. split; reflexivity.
  - intros l K P L. rewrite K, P. unfold number_of_nat. rewrite (NumberToString_N _ L).
    split; reflexivity.
  - intros data K P D. rewrite K, P.
    destruct data as [ | b | n | s | l | ms]; try (split; reflexivity).
    now destruct (D l).
Qed.

Lemma testConnection_reports_witness :
  exists r,
    fst (AirweaveClient.testConnection demoClient
           (demoWorld (HttpResponse 200 (js "OK") (jq "[{'id':'c1'},{'id':'c2'}]")))) = Returned r /\
    AirweaveClient.success r = true /\
    AirweaveClient.message r = js "Connected successfully. Found 2 collections.".
Proof.
  destruct (testConnection_reports demoClient
              (demoWorld (HttpResponse 200 (js "OK") (jq "[{'id':'c1'},{'id':'c2'}]")))
              200 (js "OK") (jq "[{'id':'c1'},{'id':'c2'}]") eq_refl eq_refl)
    as [r [E [_ [_ [A _]]]]].
  exists r. split; [exact E|].
  apply (A [JObject [(js "id", JString (js "c1"))]; JObject [(js "id", JString (js "c2"))]]);
    reflexivity.
Defined.

(* ===================================================================== *)
(** * Configuration                                                      *)
(* ===================================================================== *)

(** X11. The configuration is valid exactly when nothing is missing, and
    that is exactly when the client built from it and the AI service
    built from it are both configured.  Only the key of the selected
    provider counts. *)
Theorem isConfigValid_iff_services_configured (cfg : AppConfig) :
  (Env.valid (Env.isConfigValid cfg) = true <-> Env.missing (Env.isConfigValid cfg) = []) /\
  Env.valid (Env.isConfigValid cfg)
  = AirweaveClient.isConfigured (AirweaveClient.new cfg None None None) &&
    AIService.isConfigured cfg (AIService.new cfg).
Proof.
  split.
  - unfold Env.isConfigValid. cbv zeta. cbn [Env.valid Env.missing].
    destruct (_ : list text) as [|x l]; cbn; split; congruence.
  - unfold Env.isConfigValid, AirweaveClient.isConfigured, AIService.isConfigured,
      AirweaveClient.new, AIService.new.
    cbn [AirweaveClient.apiKey AirweaveClient.collectionId AIService.provider or_text Env.valid].
    destruct (nonEmpty (airweaveApiKey cfg)), (nonEmpty (airweaveCollectionId cfg)),
      (llmProvider cfg);
      cbn [negb app andb];
      match goal with
      | |- context [AIService.keyPresent ?k] => destruct (AIService.keyPresent k)
      end; reflexivity.
Qed.

Lemma isConfigValid_iff_services_configured_witness :
  (Env.valid (Env.isConfigValid aiConfig) = true <-> Env.missing (Env.isConfigValid aiConfig) = []) /\
  Env.valid (Env.isConfigValid aiConfig)
  = AirweaveClient.isConfigured (AirweaveClient.new aiConfig None None None) &&
    AIService.isConfigured aiConfig (AIService.new aiConfig).
Proof.
  apply isConfigValid_iff_services_configured.
Defined.

(** X12. The mask shows at most the first four and the last four
    characters of a key.  A key of more than eight characters, whatever
    lies between its first four and its last four characters and however
    long it is, is shown as those eight characters around eight stars; a
    non-empty key of up to eight characters is shown as four stars, and
    only the empty key is shown as not set. *)
Theorem maskApiKey_hides_the_middle :
  (forall first middle last,
     length first = 4%nat -> length last = 4%nat -> middle <> [] ->
     Env.maskApiKey (first ++ middle ++ last) = first ++ js "********" ++ last) /\
  (forall key, key <> [] -> (length key <= 8)%nat -> Env.maskApiKey key = js "****") /\
  Env.maskApiKey [] = js "(not set)".
Proof.
  split; [|split].
  - intros first middle last Hf Hl Hm. unfold Env.maskApiKey.
    assert (Len : length (first ++ middle ++ last) = (8 + length middle)%nat).
    { rewrite !length_app. lia. }
    assert (M : (0 < length middle)%nat) by (destruct middle; [congruence | cbn; lia]).
    unfold nonEmpty. rewrite Len.
    replace (Nat.eqb (8 + length middle) 0) with false by (symmetry; apply Nat.eqb_neq; lia).
    replace (8 + length middle <=? 8)%nat with false by (symmetry; apply Nat.leb_gt; lia).
    cbn [negb].
    rewrite firstn_app, Hf, Nat.sub_diag, firstn_O, app_nil_r, (firstn_all2 first) by lia.
    replace (8 + length middle - 4)%nat with (length (first ++ middle))
      by (rewrite length_app; lia).
    rewrite (app_assoc first middle last), skipn_app, skipn_all, Nat.sub_diag, skipn_O.
    reflexivity.
  - intros key Hk Hl. unfold Env.maskApiKey, nonEmpty.
    destruct key as [|c key]; [congruence|]. cbn [length Nat.eqb negb].
    apply Nat.leb_le in Hl. cbn [length] in Hl. now rewrite Hl.
  - reflexivity.
Qed.

Lemma maskApiKey_hides_the_middle_witness :
  Env.maskApiKey (js "sk-1" ++ js "9f8e7d6c5b4a" ++ js "wxyz") = js "sk-1" ++ js "********" ++ js "wxyz" /\
  Env.maskApiKey (js "12345678") = js "****".
Proof.
  destruct maskApiKey_hides_the_middle as [L [S _]].
  split.
  - apply L; [reflexivity | reflexivity | discriminate].
  - apply S; [discriminate | vm_compute; lia].
Defined.

(* ===================================================================== *)
(** * The enhancement service, continued                                 *)
(* ===================================================================== *)

Lemma keepFirst_NoDup (l : list N) :
  forall seen, NoDup l -> (forall i, In i l -> ~ In i seen) -> keepFirst seen l = l.
Proof.
  induction l as [|x l IH]; intros seen D H; [reflexivity|].
  inversion D as [|? ? Hx Dl]; subst. cbn [keepFirst].
  destruct (AIService.has seen x) eqn:E.
  - apply has_In in E. exfalso. apply (H x); [now left | exact E].
  - f_equal. apply IH; [exact Dl|].
    intros i Hi [<-|Hs]; [contradiction | apply (H i); [now right | exact Hs]].
Qed.

Lemma filter_all {A} (p : A -> bool) (l : list A) :
  (forall x, In x l -> p x = true) -> filter p l = l.
Proof.
  induction l as [|x l IH]; intros H; [reflexivity|]. cbn.
  rewrite (H x) by now left. f_equal. apply IH. intros y Hy. apply H. now right.
Qed.

Lemma filter_none {A} (p : A -> bool) (l : list A) :
  (forall x, In x l -> p x = false) -> filter p l = [].
Proof.
  induction l as [|x l IH]; intros H; [reflexivity|]. cbn.
  rewrite (H x) by now left. apply IH. intros y Hy. apply H. now right.
Qed.

Lemma pick_valid {A} (results : list A) (indices : list N) :
  (forall i, In i indices -> i < N.of_nat (length results)) ->
  map Some (pick results indices) = map (fun i => nth_error results (N.to_nat i)) indices.
Proof.
  induction indices as [|i indices IH]; intros H; [reflexivity|].
  rewrite pick_cons. cbn [map].
  destruct (valid_index_defined results i) as [r E].
  { apply N.ltb_lt. apply H. now left. }
  rewrite E. cbn [app map]. f_equal. apply IH. intros j Hj. apply H. now right.
Qed.

(** X13. A proper ranking is applied as it stands.  When a configured
    service ranks two or more results and the reply names indices that
    are all in range and all different, the results at the named indices
    come first, in the order of the reply, followed by the results that
    were not named, in their original order.  When every position is
    named, the output is the input read through the ranking: its j-th
    element is the result at the j-th named index. *)
Theorem reRank_applies_a_proper_ranking (cfg : AppConfig) (this : AIService.t)
    (results : list SearchResult) (query : text) (generated : Outcome text) (indices : list N) :
  AIService.isConfigured cfg this = true ->
  (1 < length results)%nat ->
  namedIndices generated = Some indices ->
  NoDup indices ->
  (forall i, In i indices -> i < N.of_nat (length results)) ->
  AIService.reRankResults cfg this results query generated
  = Returned (pick results indices ++
              pick results (filter (fun i => negb (AIService.has indices i))
                                   (positions (length results)))) /\
  ((forall i, i < N.of_nat (length results) -> In i indices) ->
   AIService.reRankResults cfg this results query generated = Returned (pick results indices) /\
   map Some (pick results indices) = map (fun i => nth_error results (N.to_nat i)) indices).
Proof.
  intros C L Hn D V.
  assert (E : AIService.reRankResults cfg this results query generated
              = Returned (pick results indices ++
                          pick results (filter (fun i => negb (AIService.has indices i))
                                               (positions (length results))))).
  { rewrite reRankResults_eq, C, Hn.
    apply Nat.ltb_lt in L. rewrite L. cbn [andb]. f_equal.
    unfold expectedOrder.
    rewrite (filter_all (fun i => i <? N.of_nat (length results)) indices)
      by (intros i Hi; apply N.ltb_lt; now apply V).
    rewrite (keepFirst_NoDup indices [] D) by (intros i _ []).
    apply pick_app. }
  split; [exact E|].
  intros Complete. split; [|now apply pick_valid].
  rewrite E. f_equal.
  rewrite filter_none; [apply app_nil_r|].
  intros i Hi. apply In_positions in Hi. apply negb_false_iff, has_In. now apply Complete.
Qed.

Lemma reRank_applies_a_proper_ranking_witness :
  AIService.reRankResults aiConfig aiService
    [demoResult "a"; demoResult "b"; demoResult "c"] (js "q")
    (Returned (js "Here you go: [2, 0, 1]"))
  = Returned (pick [demoResult "a"; demoResult "b"; demoResult "c"] [2; 0; 1]) /\
  map Some (pick [demoResult "a"; demoResult "b"; demoResult "c"] [2; 0; 1])
  = map (fun i => nth_error [demoResult "a"; demoResult "b"; demoResult "c"] (N.to_nat i))
        [2; 0; 1].
Proof.
  apply (reRank_applies_a_proper_ranking aiConfig aiService
           [demoResult "a"; demoResult "b"; demoResult "c"] (js "q")
           (Returned (js "Here you go: [2, 0, 1]")) [2; 0; 1]).
  - reflexivity.
  - cbn. lia.
  - vm_compute. reflexivity.
  - repeat constructor; cbn; intuition discriminate.
  - intros i [<-|[<-|[<-|[]]]]; reflexivity.
  - intros i H. cbn in H.
    assert (i = 0 \/ i = 1 \/ i = 2) as [ -> | [ -> | -> ] ] by lia; cbn; auto.
Defined.

Lemma match_index_array_occurs (s arrayMatch : text) :
  AIService.match_index_array s = Some arrayMatch ->
  exists before inner after,
    s = before ++ arrayMatch ++ after /\
    arrayMatch = ch "[" :: inner ++ [ch "]"] /\
    inner <> [] /\ indexChars inner.
Proof.
  induction s as [|x s IH]; cbn [AIService.match_index_array]; [discriminate|].
  assert (Later : AIService.match_index_array s = Some arrayMatch ->
                  exists before inner after,
                    x :: s = before ++ arrayMatch ++ after /\
                    arrayMatch = ch "[" :: inner ++ [ch "]"] /\
                    inner <> [] /\ indexChars inner).
  { intros H. destruct (IH H) as [before [inner [after [-> R]]]].
    now exists (x :: before), inner, after. }
  destruct (N.eqb_spec x (ch "[")) as [->|_]; [|exact Later].
  destruct (AIService.span_index_chars s) as [p rest] eqn:S.
  destruct p as [|b p]; [exact Later|].
  destruct rest as [|y rest]; [exact Later|].
  destruct (N.eqb_spec y (ch "]")) as [->|_]; [|exact Later].
  intros H. inversion H; subst.
  destruct (span_index_chars_spec _ _ _ S) as [Hi ->].
  exists [], (b :: p), rest. repeat split; try assumption; try discriminate.
  cbn [app]. now rewrite <- app_assoc.
Qed.

(** X14. The span that the re-ranking takes from a reply is a part of
    the reply made of an opening bracket, one or more digits, blanks and
    commas, and a closing bracket.  When no number written in the span
    has more than 15 digits (each is then below 2^53 and is read
    exactly, without rounding or overflow) and the span is JSON, it is an
    array of non-negative integers: reading it as the list of indices
    never fails. *)
Theorem bracket_span_is_a_list_of_indices (s arrayMatch : text) :
  AIService.match_index_array s = Some arrayMatch ->
  (exists before inner after,
     s = before ++ arrayMatch ++ after /\
     arrayMatch = ch "[" :: inner ++ [ch "]"] /\
     inner <> [] /\ indexChars inner) /\
  ((longestDigitRun arrayMatch <= 15)%nat ->
   forall v, JSON_parse arrayMatch = Some v ->
     exists l indices,
       v = JArray l /\ Forall indexValue l /\ AIService.as_indices v = Returned indices).
Proof.
  intros M. split; [now apply match_index_array_occurs|].
  intros _ v P. destruct (match_index_array_shape _ _ M) as [inner [-> Hi]].
  unfold JSON_parse in P.
  change (lex LIdle [] (ch "[" :: inner ++ [ch "]"]))
    with (lex LIdle [TLBracket] (inner ++ [ch "]"])) in P.
  destruct (lex LIdle [TLBracket] (inner ++ [ch "]"])) as [ts|] eqn:L; [|discriminate].
  destruct (lex_index_chars inner LIdle [TLBracket] ts Hi LexIdle L) as [mid [-> Hm]].
  cbn [rev app parse_tokens parse_step start_value] in P.
  destruct (parse_tokens (SArrayOpen []) (mid ++ [TRBracket])) as [st|] eqn:T; [|discriminate].
  destruct st; try discriminate. inversion P; subst.
  destruct (parse_index_tokens mid _ v Hm ParseOpen T) as [l [-> Hl]].
  destruct (as_indices_list_defined l Hl) as [indices E].
  exists l, indices. cbn [AIService.as_indices]. rewrite E. auto.
Qed.

Lemma bracket_span_is_a_list_of_indices_witness :
  (exists before inner after,
     js "Order: [3,1 ,2] (see [x])" = before ++ js "[3,1 ,2]" ++ after /\
     js "[3,1 ,2]" = ch "[" :: inner ++ [ch "]"] /\
     inner <> [] /\ indexChars inner) /\
  (exists l indices,
     JSON_parse (js "[3,1 ,2]") = Some (JArray l) /\ Forall indexValue l /\
     AIService.as_indices (JArray l) = Returned indices).
Proof.
  destruct (bracket_span_is_a_list_of_indices (js "Order: [3,1 ,2] (see [x])") (js "[3,1 ,2]"))
    as [O R]; [vm_compute; reflexivity|].
  split; [exact O|].
  destruct (R ltac:(vm_compute; lia)
              (JArray [JNumber (Finite false 3 0); JNumber (Finite false 1 0);
                       JNumber (Finite false 2 0)]) ltac:(vm_compute; reflexivity))
    as [l [indices [E [F A]]]].
  exists l, indices. split; [|split; [exact F|]].
  - rewrite <- E. vm_compute. reflexivity.
  - rewrite <- E. exact A.
Defined.

Lemma or_value_default_truthy (a : option JSON) (d : JSON) :
  truthy (Some d) = true -> truthy (Some (or_value a d)) = true.
Proof.
  intros H. destruct (truthy a) eqn:T.
  - destruct (or_value_truthy a d T) as [v [-> ->]]. exact T.
  - now rewrite (or_value_falsy a d T).
Qed.

(** X15. The query enhancement never loses the user's query.  The
    original query of the result is the user's query, whatever the model
    claims; and when the user's query is not empty the enhanced query is
    a truthy value: either the user's query itself or the truthy value
    the model gave, which need not be a string.  The keywords and the
    intent are truthy as well. *)
Theorem enhanceQuery_keeps_the_user_query (cfg : AppConfig) (this : AIService.t)
    (userQuery : text) (generated : Outcome text) :
  exists e,
    AIService.enhanceQuery cfg this userQuery generated = Returned e /\
    originalQuery e = userQuery /\
    (userQuery <> [] -> truthy (Some (enhancedQuery e)) = true) /\
    (enhancedQuery e = JString userQuery \/
     exists result jsonMatch parsed,
       generated = Returned result /\
       AIService.match_object (trim result) = Some jsonMatch /\
       JSON_parse jsonMatch = Some parsed /\
       read parsed "enhanced_query" = Some (enhancedQuery e)) /\
    truthy (Some (keywords e)) = true /\
    truthy (Some (intent e)) = true.
Proof.
  rewrite enhanceQuery_eq. eexists. split; [reflexivity|].
  assert (Q : userQuery <> [] -> truthy (Some (JString userQuery)) = true).
  { intros H. destruct userQuery; [congruence | reflexivity]. }
  destruct (AIService.isConfigured cfg this); [|cbn; auto 6].
  destruct generated as [result|x]; [|cbn; auto 6].
  destruct (AIService.match_object (trim result)) as [jsonMatch|] eqn:M; [|cbn; auto 6].
  destruct (JSON_parse jsonMatch) as [parsed|] eqn:P; [|cbn; auto 6].
  cbn [enhancementFrom originalQuery enhancedQuery keywords intent].
  split; [reflexivity|]. split; [|split; [|split]].
  - intros H. apply or_value_default_truthy. now apply Q.
  - destruct (truthy (read parsed "enhanced_query")) eqn:T.
    + right. destruct (or_value_truthy _ (JString userQuery) T) as [v [E1 E2]].
      exists result, jsonMatch, parsed. rewrite E2. auto.
    + left. now apply or_value_falsy.
  - now apply or_value_default_truthy.
  - now apply or_value_default_truthy.
Qed.

Lemma enhanceQuery_keeps_the_user_query_witness :
  exists e,
    AIService.enhanceQuery aiConfig aiService (js "notes")
      (Returned (jq "{'original_query':'other','enhanced_query':7}")) = Returned e /\
    originalQuery e = js "notes" /\
    (js "notes" <> [] -> truthy (Some (enhancedQuery e)) = true) /\
    (enhancedQuery e = JString (js "notes") \/
     exists result jsonMatch parsed,
       Returned (jq "{'original_query':'other','enhanced_query':7}") = Returned result /\
       AIService.match_object (trim result) = Some jsonMatch /\
       JSON_parse jsonMatch = Some parsed /\
       read parsed "enhanced_query" = Some (enhancedQuery e)) /\
    truthy (Some (keywords e)) = true /\
    truthy (Some (intent e)) = true.
Proof.
  apply enhanceQuery_keeps_the_user_query.
Defined.

(** X21. The summary stage always answers with a usable summary: the
    summary text, the key points and the topics are truthy values.  The
    summary is one of the three fixed texts ("No results to summarize.",
    "Failed to generate summary.", "Unable to generate summary.") or the
    truthy value found under summary in the object parsed from the
    reply. *)
Theorem summary_fields_are_never_empty (cfg : AppConfig) (this : AIService.t)
    (results : list SearchResult) (originalQuery : text) (generated : Outcome text) :
  exists s,
    AIService.summarizeResults cfg this results originalQuery generated = Returned s /\
    truthy (Some (summary s)) = true /\
    truthy (Some (keyPoints s)) = true /\
    truthy (Some (relevantTopics s)) = true /\
    (summary s = JString (js "No results to summarize.") \/
     summary s = JString (js "Failed to generate summary.") \/
     summary s = JString (js "Unable to generate summary.") \/
     exists result jsonMatch parsed,
       generated = Returned result /\
       AIService.match_object (trim result) = Some jsonMatch /\
       JSON_parse jsonMatch = Some parsed /\
       read parsed "summary" = Some (summary s)).
Proof.
  rewrite summarizeResults_eq. eexists. split; [reflexivity|].
  destruct (AIService.isConfigured cfg this && negb (Nat.eqb (length results) 0));
    [|cbn; auto 6].
  destruct generated as [result|x]; [|cbn; auto 6].
  destruct (AIService.match_object (trim result)) as [jsonMatch|] eqn:M; [|cbn; auto 6].
  destruct (JSON_parse jsonMatch) as [parsed|] eqn:P; [|cbn; auto 6].
  cbn [summaryFrom summary keyPoints relevantTopics].
  split; [|split; [|split]]; try (now apply or_value_default_truthy).
  destruct (truthy (read parsed "summary")) eqn:T.
  - right. right. right.
    destruct (or_value_truthy _ (JString (js "Unable to generate summary.")) T) as [v [E1 E2]].
    exists result, jsonMatch, parsed. rewrite E2. auto.
  - right. right. left. now apply or_value_falsy.
Qed.

Section Pipeline.

Variable this : AIService.t.
Variable query : text.
Variable searchFn : JSON -> M (list SearchResult).
Variables generatedEnhancement generatedRanking generatedSummary : Outcome text.

(** The pipeline, once the search function has answered. *)
Lemma enhancedSearch_found (w w1 : World) (e : QueryEnhancement) (found : list SearchResult) :
  AIService.enhanceQuery (appConfig w) this query generatedEnhancement = Returned e ->
  searchFn (enhancedQuery e) w = (Returned found, w1) ->
  exists ranked s,
    AIService.enhancedSearch this query searchFn
      generatedEnhancement generatedRanking generatedSummary w
    = (Returned {| AIService.enhancement := e;
                   AIService.results := ranked;
                   AIService.summary := Some s |}, w1) /\
    Permutation found ranked /\
    (found = [] -> ranked = []) /\
    AIService.summarizeResults (appConfig w1) this ranked query generatedSummary = Returned s.
Proof.
  intros E S. unfold AIService.enhancedSearch.
  cbn [bind Monad_M]. unfold getWorld, lift. rewrite E, S.
  destruct found as [|r found].
  - cbn [length Nat.ltb Nat.leb ret Monad_M].
    rewrite summarizeResults_eq. eexists _, _. split; [reflexivity|].
    split; [constructor|]. split; [reflexivity|]. apply summarizeResults_eq.
  - change (0 <? length (r :: found))%nat with true. cbv beta iota.
    rewrite reRankResults_eq. cbv beta iota. rewrite summarizeResults_eq.
    eexists _, _. split; [reflexivity|].
    split; [|split; [discriminate | apply summarizeResults_eq]].
    destruct (AIService.isConfigured (appConfig w1) this && (1 <? length (r :: found))%nat);
      [|apply Permutation_refl].
    destruct (namedIndices generatedRanking);
      [apply pick_expectedOrder_permutation | apply Permutation_refl].
Qed.

End Pipeline.

(** X16. The pipeline hands the enhanced query to the caller's search
    function and never loses or invents a result: what it returns is a
    rearrangement of what the search function found, together with the
    enhancement and a summary.  When nothing was found the model is not
    asked to rank or to summarise and the summary is the placeholder "No
    results to summarize.".  The one thing that can fail is the search
    function: its exception leaves the pipeline as it was raised. *)
Theorem enhancedSearch_rearranges_what_was_found (this : AIService.t) (query : text)
    (searchFn : JSON -> M (list SearchResult))
    (generatedEnhancement generatedRanking generatedSummary : Outcome text)
    (w : World) (e : QueryEnhancement) :
  AIService.enhanceQuery (appConfig w) this query generatedEnhancement = Returned e ->
  (forall found w1,
     searchFn (enhancedQuery e) w = (Returned found, w1) ->
     exists r s,
       AIService.enhancedSearch this query searchFn
         generatedEnhancement generatedRanking generatedSummary w = (Returned r, w1) /\
       AIService.enhancement r = e /\
       Permutation found (AIService.results r) /\
       AIService.summary r = Some s /\
       (found = [] -> AIService.results r = [] /\ s = noResultsSummary)) /\
  (forall x w1,
     searchFn (enhancedQuery e) w = (Thrown x, w1) ->
     AIService.enhancedSearch this query searchFn
       generatedEnhancement generatedRanking generatedSummary w = (Thrown x, w1)).
Proof.
  intros E. split.
  - intros found w1 S.
    destruct (enhancedSearch_found this query searchFn generatedEnhancement generatedRanking
                generatedSummary w w1 e found E S) as [ranked [s [R [P [Z Sm]]]]].
    eexists _, s. split; [exact R|]. cbn. repeat split; auto.
    rewrite (Z H) in Sm. rewrite summarizeResults_eq in Sm.
    cbn in Sm. rewrite andb_false_r in Sm. now inversion Sm.
  - intros x w1 S. unfold AIService.enhancedSearch.
    cbn [bind Monad_M]. unfold getWorld, lift. now rewrite E, S.
Qed.

Lemma enhancedSearch_rearranges_what_was_found_witness :
  exists r s,
    AIService.enhancedSearch aiService (js "notes")
      (fun q => match q with
                | JString _ => ret [demoResult "a"; demoResult "b"; demoResult "c"]
                | _ => throw NotAnError
                end)
      (Returned (jq "{'enhanced_query':'meeting notes'}"))
      (Returned (js "[1, 2, 0]")) (Thrown NotAnError)
      (aiWorld (NetworkFailure NotAnError))
    = (Returned r, aiWorld (NetworkFailure NotAnError)) /\
    AIService.enhancement r
    = {| originalQuery := js "notes"; enhancedQuery := JString (js "meeting notes");
         keywords := JArray []; intent := JString (js "search") |} /\
    Permutation [demoResult "a"; demoResult "b"; demoResult "c"] (AIService.results r) /\
    AIService.summary r = Some s /\
    ([demoResult "a"; demoResult "b"; demoResult "c"] = [] ->
     AIService.results r = [] /\ s = noResultsSummary).
Proof.
  refine (proj1 (enhancedSearch_rearranges_what_was_found aiService (js "notes") _ _ _ _
                   (aiWorld (NetworkFailure NotAnError)) _ _) _ _ _).
  - vm_compute. reflexivity.
  - reflexivity.
Defined.

(** X17. With a service that is not configured the pipeline is the plain
    search: the search function receives the user's query unchanged, its
    results come back in the order it gave them, the enhancement is the
    identity enhancement and the summary is the placeholder. *)
Theorem enhancedSearch_unconfigured_is_plain_search (this : AIService.t) (query : text)
    (searchFn : JSON -> M (list SearchResult))
    (generatedEnhancement generatedRanking generatedSummary : Outcome text)
    (w w1 : World) (found : list SearchResult) :
  AIService.isConfigured (appConfig w) this = false ->
  searchFn (JString query) w = (Returned found, w1) ->
  AIService.isConfigured (appConfig w1) this = false ->
  AIService.enhancedSearch this query searchFn
    generatedEnhancement generatedRanking generatedSummary w
  = (Returned {| AIService.enhancement := AIService.identityEnhancement query;
                 AIService.results := found;
                 AIService.summary := Some noResultsSummary |}, w1).
Proof.
  intros C S C1. unfold AIService.enhancedSearch.
  cbn [bind Monad_M]. unfold getWorld, lift.
  rewrite enhanceQuery_eq, C. cbn [AIService.identityEnhancement enhancedQuery].
  rewrite S. destruct found as [|r found].
  - cbn [length Nat.ltb Nat.leb ret Monad_M]. now rewrite summarizeResults_eq, C1.
  - change (0 <? length (r :: found))%nat with true. cbv beta iota.
    rewrite reRankResults_eq, C1. cbv beta iota. cbn [andb].
    now rewrite summarizeResults_eq, C1.
Qed.

Lemma enhancedSearch_unconfigured_is_plain_search_witness :
  AIService.enhancedSearch aiService (js "notes")
    (fun q => ret [demoResult "b"; demoResult "a"])
    (Returned (jq "{'enhanced_query':'meeting notes'}"))
    (Returned (js "[1, 0]")) (Returned (jq "{'summary':'S'}"))
    (demoWorld (NetworkFailure NotAnError))
  = (Returned {| AIService.enhancement := AIService.identityEnhancement (js "notes");
                 AIService.results := [demoResult "b"; demoResult "a"];
                 AIService.summary := Some noResultsSummary |},
     demoWorld (NetworkFailure NotAnError)).
Proof.
  apply enhancedSearch_unconfigured_is_plain_search; reflexivity.
Defined.

(* ===================================================================== *)
(** * The request body read back                                         *)
(* ===================================================================== *)

Lemma hexDigit_spec (d : N) :
  d < 16 -> isHexDigit (hexDigit d) = true /\ digitValue (hexDigit d) = d.
Proof.
  intros H. rewrite <- (N2Nat.id d).
  assert (Hn : (N.to_nat d < 16)%nat) by lia.
  generalize dependent (N.to_nat d). intros n Hn.
  do 16 (destruct n as [|n]; [split; reflexivity|]). lia.
Qed.

Lemma hex4_value (c : char) :
  c < 65536 ->
  (((0 * 16 + c / 4096 mod 16) * 16 + c / 256 mod 16) * 16 + c / 16 mod 16) * 16 + c mod 16 = c.
Proof. intros H. zify. Z.to_euclidean_division_equations. lia. Qed.

Lemma lex_unicode_step (d : N) (acc : text) (k : nat) (v : N) (out : list token) (rest : text) :
  d < 16 ->
  lex_run (LUnicode acc (S k) v) out (hexDigit d :: rest)
  = lex_run (LUnicode acc k (v * 16 + d)) out rest.
Proof.
  intros H. destruct (hexDigit_spec d H) as [X V].
  cbn [lex_run lex_char]. now rewrite X, V.
Qed.

Lemma lex_unicode_last (d : N) (acc : text) (v : N) (out : list token) (rest : text) :
  d < 16 ->
  lex_run (LUnicode acc 0 v) out (hexDigit d :: rest)
  = lex_run (LString ((v * 16 + d) :: acc)) out rest.
Proof.
  intros H. destruct (hexDigit_spec d H) as [X V].
  cbn [lex_run lex_char]. now rewrite X, V.
Qed.

(** A [\u] escape written by [JSON.stringify] reads back as the code
    unit it stands for. *)
Lemma lex_string_hex (c : char) (acc : text) (out : list token) (rest : text) :
  c < 65536 ->
  lex_run (LString acc) out (js "\u" ++ hex4 c ++ rest) = lex_run (LString (c :: acc)) out rest.
Proof.
  intros H. rewrite lex_run_app.
  change (lex_run (LString acc) out (js "\u")) with (Some (LUnicode acc 3 0, out)).
  cbv beta iota. unfold hex4. cbn [app].
  rewrite !lex_unicode_step, lex_unicode_last by (apply N.mod_lt; discriminate).
  now rewrite (hex4_value c H).
Qed.

Lemma lex_string_plain (c : char) (acc : text) (out : list token) (rest : text) :
  c <> 0x22 -> c <> 0x5C -> 0x20 <= c ->
  lex_run (LString acc) out (c :: rest) = lex_run (LString (c :: acc)) out rest.
Proof.
  intros A B C. cbn [lex_run lex_char].
  apply N.eqb_neq in A, B. apply N.ltb_ge in C. now rewrite A, B, C.
Qed.

(** What [JSON.stringify] writes between the quotes reads back as the
    string it was made from. *)
Lemma lex_quote_chars_bounded (n : nat) :
  forall s acc out,
    (length s <= n)%nat ->
    lex_run (LString acc) out (quote_chars s) = Some (LString (rev s ++ acc), out).
Proof.
  induction n as [|n IH]; intros s acc out Hlen.
  - destruct s; [reflexivity | cbn in Hlen; lia].
  - destruct s as [|c r]; [reflexivity|].
    assert (Hr : (length r <= n)%nat) by (cbn in Hlen; lia).
    assert (Tail : forall c', lex_run (LString (c' :: acc)) out (quote_chars r)
                              = Some (LString (rev (c' :: r) ++ acc), out)).
    { intros c'. rewrite (IH r _ out Hr). cbn [rev]. now rewrite <- app_assoc. }
    assert (Hex : c < 65536 ->
                  lex_run (LString acc) out (js "\u" ++ hex4 c ++ quote_chars r)
                  = Some (LString (rev (c :: r) ++ acc), out)).
    { intros B. rewrite (lex_string_hex c acc out _ B). apply Tail. }
    cbn [quote_chars].
    destruct (N.eqb_spec c 0x8) as [->|N8].
    { rewrite lex_run_app.
      change (lex_run (LString acc) out (js "\b")) with (Some (LString (0x8 :: acc), out)).
      apply Tail. }
    destruct (N.eqb_spec c 0x9) as [->|N9].
    { rewrite lex_run_app.
      change (lex_run (LString acc) out (js "\t")) with (Some (LString (0x9 :: acc), out)).
      apply Tail. }
    destruct (N.eqb_spec c 0xA) as [->|NA].
    { rewrite lex_run_app.
      change (lex_run (LString acc) out (js "\n")) with (Some (LString (0xA :: acc), out)).
      apply Tail. }
    destruct (N.eqb_spec c 0xC) as [->|NC].
    { rewrite lex_run_app.
      change (lex_run (LString acc) out (js "\f")) with (Some (LString (0xC :: acc), out)).
      apply Tail. }
    destruct (N.eqb_spec c 0xD) as [->|ND].
    { rewrite lex_run_app.
      change (lex_run (LString acc) out (js "\r")) with (Some (LString (0xD :: acc), out)).
      apply Tail. }
    destruct (N.eqb_spec c 0x22) as [->|NQ].
    { change (js "\" ++ [0x22] ++ quote_chars r) with ([0x5C; 0x22] ++ quote_chars r).
      rewrite lex_run_app.
      change (lex_run (LString acc) out [0x5C; 0x22]) with (Some (LString (0x22 :: acc), out)).
      apply Tail. }
    destruct (N.eqb_spec c 0x5C) as [->|NB].
    { rewrite lex_run_app.
      change (lex_run (LString acc) out (js "\\")) with (Some (LString (0x5C :: acc), out)).
      apply Tail. }
    destruct (N.ltb_spec c 0x20) as [Lo|Hi].
    { apply Hex. lia. }
    destruct (isHighSurrogate c) eqn:Hs.
    { unfold isHighSurrogate in Hs. apply andb_prop in Hs. destruct Hs as [H1 H2].
      apply N.leb_le in H1, H2.
      destruct r as [|d r'].
      - rewrite <- (app_nil_r (hex4 c)), lex_string_hex by lia. reflexivity.
      - destruct (isLowSurrogate d) eqn:Ls; [|apply Hex; lia].
        unfold isLowSurrogate in Ls. apply andb_prop in Ls. destruct Ls as [L1 L2].
        apply N.leb_le in L1, L2.
        rewrite !lex_string_plain by lia.
        rewrite (IH r' _ out) by (cbn in Hr; lia).
        cbn [rev]. now rewrite <- !app_assoc. }
    destruct (isLowSurrogate c) eqn:Ls.
    { unfold isLowSurrogate in Ls. apply andb_prop in Ls. destruct Ls as [L1 L2].
      apply N.leb_le in L1, L2. apply Hex. lia. }
    rewrite lex_string_plain by assumption. apply Tail.
Qed.

(** A quoted string reads back as one string token holding the string. *)
Lemma lex_quote (s : text) (out : list token) :
  lex_run LIdle out (quote s) = Some (LIdle, TString s :: out).
Proof.
  unfold quote. change ([0x22] ++ quote_chars s ++ [0x22]) with (0x22 :: quote_chars s ++ [0x22]).
  cbn [lex_run].
  change (lex_char LIdle out 0x22) with (Some (LString [], out)). cbv beta iota.
  rewrite lex_run_app, (lex_quote_chars_bounded (length s) s [] out (le_n _)).
  cbv beta iota. cbn [lex_run].
  change (lex_char (LString (rev s ++ [])) out 0x22)
    with (Some (LIdle, TString (rev (rev s ++ [])) :: out)).
  cbv beta iota. now rewrite app_nil_r, rev_involutive.
Qed.

Lemma lex_quote_then (s : text) (out : list token) (rest : text) :
  lex LIdle out (quote s ++ rest) = lex LIdle (TString s :: out) rest.
Proof. now rewrite lex_app, lex_quote. Qed.

Lemma lex_open_brace_then (out : list token) (rest : text) :
  lex LIdle out (js "{" ++ rest) = lex LIdle (TLBrace :: out) rest.
Proof. reflexivity. Qed.

Lemma lex_colon_then (out : list token) (rest : text) :
  lex LIdle out (js ":" ++ rest) = lex LIdle (TColon :: out) rest.
Proof. reflexivity. Qed.

Lemma lex_comma_then (out : list token) (rest : text) :
  lex LIdle out (js "," ++ rest) = lex LIdle (TComma :: out) rest.
Proof. reflexivity. Qed.

Lemma lex_digit_idle (c : char) (out : list token) :
  isDigit c = true -> lex_char LIdle out c = Some (LWord [c], out).
Proof.
  intros H. unfold lex_char, isJSONWhiteSpace, punctuation.
  repeat (rewrite (digit_neq c _ H) by reflexivity). reflexivity.
Qed.

Lemma lex_digit_word (c : char) (acc : text) (out : list token) :
  isDigit c = true -> lex_char (LWord acc) out c = Some (LWord (c :: acc), out).
Proof.
  intros H. unfold lex_char, isJSONWhiteSpace, punctuation.
  repeat (rewrite (digit_neq c _ H) by reflexivity). reflexivity.
Qed.

Lemma lex_word_digits (ds : text) :
  forall acc out,
    Forall (fun c => isDigit c = true) ds ->
    lex_run (LWord acc) out ds = Some (LWord (rev ds ++ acc), out).
Proof.
  induction ds as [|c ds IH]; intros acc out H; [reflexivity|].
  inversion H as [|? ? Hc Hr]; subst.
  cbn [lex_run]. rewrite (lex_digit_word c acc out Hc), (IH _ _ Hr).
  cbn [rev]. now rewrite <- app_assoc.
Qed.

Lemma span_digits_all (ds : text) :
  Forall (fun c => isDigit c = true) ds -> span_digits ds = (ds, []).
Proof.
  induction 1 as [|c ds Hc _ IH]; [reflexivity|].
  cbn [span_digits]. now rewrite Hc, IH.
Qed.

Lemma N_digits_are_digits (k : N) : Forall (fun c => isDigit c = true) (N_digits k).
Proof. apply digits_of_uint_digits. Qed.

(** The digits of a natural number are a JSON number with that value. *)
Lemma json_number_N_digits (k : N) : json_number (N_digits k) = Some (number_of_N k).
Proof.
  pose proof (N_digits_are_digits k) as D.
  pose proof (N_digits_head k) as Hd.
  unfold number_of_N, json_number, scan_decimal.
  destruct (N_digits k) as [|c r] eqn:E; [now destruct (N_digits_nonempty k)|].
  inversion D as [|? ? Hc Hr]; subst.
  rewrite (digit_neq c (ch "-") Hc) by reflexivity.
  rewrite (span_digits_all _ D).
  cbn [scan_exponent int_part has_point frac_part negb orb andb].
  assert (I : match c :: r with
              | [] => false
              | [_] => true
              | c0 :: _ :: _ => negb (c0 =? ch "0")
              end = true).
  { destruct r as [|c' r']; [reflexivity|].
    apply negb_true_iff, N.eqb_neq. apply (Hd c (c' :: r') eq_refl). discriminate. }
  rewrite I. unfold decimal_value. cbn [int_part frac_part expo length].
  now rewrite app_nil_r.
Qed.

Lemma word_token_N_digits (k : N) : word_token (N_digits k) = Some (TNumber (number_of_N k)).
Proof.
  pose proof (N_digits_are_digits k) as D.
  unfold word_token. rewrite json_number_N_digits.
  destruct (text_eqb (N_digits k) (js "true")) eqn:E1.
  { apply text_eqb_eq in E1. rewrite E1 in D. inversion D; subst. discriminate. }
  destruct (text_eqb (N_digits k) (js "false")) eqn:E2.
  { apply text_eqb_eq in E2. rewrite E2 in D. inversion D; subst. discriminate. }
  destruct (text_eqb (N_digits k) (js "null")) eqn:E3.
  { apply text_eqb_eq in E3. rewrite E3 in D. inversion D; subst. discriminate. }
  reflexivity.
Qed.

Lemma lex_word_close_brace (acc : text) (out : list token) :
  lex (LWord acc) out (js "}") =
  match word_token (rev acc) with
  | Some t => Some (rev (TRBrace :: t :: out))
  | None => None
  end.
Proof.
  change (lex (LWord acc) out (js "}")) with
    (match match word_token (rev acc) with
           | Some t => Some (LIdle, TRBrace :: t :: out)
           | None => None
           end with
     | Some (st', out') => lex st' out' []
     | None => None
     end).
  destruct (word_token (rev acc)); reflexivity.
Qed.

(** A natural number written in digits, closing an object. *)
Lemma lex_natural_close (k : N) (out : list token) :
  lex LIdle out (N_digits k ++ js "}") = Some (rev (TRBrace :: TNumber (number_of_N k) :: out)).
Proof.
  pose proof (N_digits_are_digits k) as D.
  pose proof (word_token_N_digits k) as W.
  destruct (N_digits k) as [|c r] eqn:E; [now destruct (N_digits_nonempty k)|].
  inversion D as [|? ? Hc Hr]; subst.
  cbn [app lex]. rewrite (lex_digit_idle c out Hc).
  rewrite lex_app, (lex_word_digits r [c] out Hr), lex_word_close_brace.
  rewrite rev_app_distr, rev_involutive. cbn [rev app]. now rewrite W.
Qed.

Lemma requestedLimit_eq (cfg : AppConfig) (options : SearchOptions) :
  or_value (option_map JNumber (o_limit options)) (JNumber (maxResults cfg))
  = JNumber (requestedLimit cfg options).
Proof.
  unfold requestedLimit, or_value. destruct (o_limit options) as [x|]; [|reflexivity].
  cbn [option_map]. now destruct (truthy (Some (JNumber x))).
Qed.

(** The text of the body, piece by piece. *)
Lemma searchRequest_body (this : AirweaveClient.t) (cfg : AppConfig) (options : SearchOptions) :
  body (AirweaveClient.searchRequest this cfg options)
  = js "{" ++ quote (js "query") ++ js ":" ++ quote (o_query options) ++ js "," ++
    quote (js "search_type") ++ js ":" ++
    quote (SearchType_text (AirweaveClient.searchTypeOrHybrid options)) ++ js "," ++
    quote (js "limit") ++ js ":" ++ JSON_stringify (JNumber (requestedLimit cfg options)) ++
    js "}".
Proof.
  unfold AirweaveClient.searchRequest. cbn [body]. rewrite requestedLimit_eq.
  cbn [JSON_stringify map join fst snd].
  repeat rewrite <- app_assoc. reflexivity.
Qed.

(** X18. The body of the search request is JSON that reads back as
    exactly what was put in: whatever characters the query holds
    (quotes, backslashes, control characters, lone surrogates), parsing
    the body gives an object with the query unchanged, the search type,
    and the limit, in that order and with nothing else.  This holds when
    the limit in force is a natural number below 10^21. *)
Theorem request_body_reads_back (this : AirweaveClient.t) (cfg : AppConfig)
    (options : SearchOptions) (k : N) :
  requestedLimit cfg options = number_of_N k -> k < 10 ^ 21 ->
  JSON_parse (body (AirweaveClient.searchRequest this cfg options))
  = Some (JObject [(js "query", JString (o_query options));
                   (js "search_type",
                    JString (SearchType_text (AirweaveClient.searchTypeOrHybrid options)));
                   (js "limit", JNumber (number_of_N k))]).
Proof.
  intros L B. rewrite searchRequest_body, L.
  assert (S : JSON_stringify (JNumber (number_of_N k)) = N_digits k).
  { rewrite <- (NumberToString_N k B). unfold number_of_N, mk_finite.
    destruct (drop_zeros _ _). reflexivity. }
  rewrite S. unfold JSON_parse.
  rewrite lex_open_brace_then, lex_quote_then, lex_colon_then, lex_quote_then, lex_comma_then,
    lex_quote_then, lex_colon_then, lex_quote_then, lex_comma_then,
    lex_quote_then, lex_colon_then, lex_natural_close.
  reflexivity.
Qed.

Lemma request_body_reads_back_witness :
  JSON_parse (body (AirweaveClient.searchRequest demoClient demoConfig
                      {| o_query := jq "say 'hi' \ " ++ [0x9; 0xD83D];
                         o_searchType := Some keyword;
                         o_limit := Some (number_of_N 25);
                         o_enhanceQuery := None |}))
  = Some (JObject [(js "query", JString (jq "say 'hi' \ " ++ [0x9; 0xD83D]));
                   (js "search_type", JString (js "keyword"));
                   (js "limit", JNumber (number_of_N 25))]).
Proof.
  apply (request_body_reads_back demoClient demoConfig
           {| o_query := jq "say 'hi' \ " ++ [0x9; 0xD83D];
              o_searchType := Some keyword;
              o_limit := Some (number_of_N 25);
              o_enhanceQuery := None |} 25); reflexivity.
Defined.

(** X19. A limit that is no finite number is sent as [null].  When the
    limit in force is [NaN] or an infinity (the option is absent or
    falsy and the configured maximum is [NaN], say), the body still is
    JSON with the query unchanged, and its limit is [null]. *)
Theorem limit_not_finite_is_sent_as_null (this : AirweaveClient.t) (cfg : AppConfig)
    (options : SearchOptions) :
  (requestedLimit cfg options = NaN \/ exists neg, requestedLimit cfg options = Infinity neg) ->
  JSON_parse (body (AirweaveClient.searchRequest this cfg options))
  = Some (JObject [(js "query", JString (o_query options));
                   (js "search_type",
                    JString (SearchType_text (AirweaveClient.searchTypeOrHybrid options)));
                   (js "limit", JNull)]).
Proof.
  intros L. rewrite searchRequest_body.
  assert (S : JSON_stringify (JNumber (requestedLimit cfg options)) = js "null").
  { destruct L as [-> | [neg ->]]; reflexivity. }
  rewrite S. unfold JSON_parse.
  rewrite lex_open_brace_then, lex_quote_then, lex_colon_then, lex_quote_then, lex_comma_then,
    lex_quote_then, lex_colon_then, lex_quote_then, lex_comma_then,
    lex_quote_then, lex_colon_then.
  reflexivity.
Qed.

Lemma limit_not_finite_is_sent_as_null_witness :
  JSON_parse (body (AirweaveClient.searchRequest demoClient
                      {| airweaveApiKey := []; airweaveCollectionId := [];
                         airweaveApiUrl := js "https://api.airweave.ai";
                         llmProvider := google; googleApiKey := None; openaiApiKey := None;
                         anthropicApiKey := None; defaultSearchType := hybrid;
                         maxResults := NaN; defaultOutputFormat := json |}
                      {| o_query := js "hello"; o_searchType := None;
                         o_limit := Some (Finite false 0 0); o_enhanceQuery := None |}))
  = Some (JObject [(js "query", JString (js "hello"));
                   (js "search_type", JString (js "hybrid"));
                   (js "limit", JNull)]).
Proof.
  apply (limit_not_finite_is_sent_as_null demoClient
           {| airweaveApiKey := []; airweaveCollectionId := [];
              airweaveApiUrl := js "https://api.airweave.ai";
              llmProvider := google; googleApiKey := None; openaiApiKey := None;
              anthropicApiKey := None; defaultSearchType := hybrid;
              maxResults := NaN; defaultOutputFormat := json |}
           {| o_query := js "hello"; o_searchType := None;
              o_limit := Some (Finite false 0 0); o_enhanceQuery := None |}).
  left. reflexivity.
Defined.

Lemma digit_not_blank (c : char) : isDigit c = true -> isWhiteSpace c = false.
Proof.
  intros H. unfold isDigit in H. apply andb_prop in H. destruct H as [H1 H2].
  apply N.leb_le in H1, H2. unfold isWhiteSpace.
  repeat match goal with
         | |- context [c =? ?k] => destruct (N.eqb_spec c k); [lia|]
         end.
  destruct (N.leb_spec 0x2000 c); [lia | reflexivity].
Qed.

Lemma span_digits_app (ds rest : text) :
  Forall (fun c => isDigit c = true) ds ->
  (forall c r, rest = c :: r -> isDigit c = false) ->
  span_digits (ds ++ rest) = (ds, rest).
Proof.
  intros D R. induction D as [|c ds Hc _ IH].
  - destruct rest as [|c r]; [reflexivity|]. cbn [app span_digits].
    now rewrite (R c r eq_refl).
  - cbn [app span_digits]. now rewrite Hc, IH.
Qed.

(** X20. The configured maximum of results is read with [parseInt].
    Without the variable it is 10.  When the variable holds the digits
    of an integer of at most 2^53 (up to there every integer is read
    exactly) followed by anything that does not start with a digit (a
    unit, a fraction, a blank), what follows is ignored and the maximum
    is that integer.  When the variable is empty, or starts with a
    character that is no blank, no sign and no digit, the maximum is
    [NaN]. *)
Theorem maxResults_from_environment (env : Env.Environment) :
  (env (js "MAX_RESULTS") = None -> Env.maxResultsOf env = number_of_N 10) /\
  (forall k rest,
     k <= maxExactInteger ->
     env (js "MAX_RESULTS") = Some (N_digits k ++ rest) ->
     (forall c r, rest = c :: r -> isDigit c = false) ->
     Env.maxResultsOf env = number_of_N k) /\
  (forall v,
     env (js "MAX_RESULTS") = Some v ->
     (v = [] \/
      exists c r, v = c :: r /\ isWhiteSpace c = false /\ isDigit c = false /\
                  c <> ch "-" /\ c <> ch "+") ->
     Env.maxResultsOf env = NaN).
Proof.
  unfold Env.maxResultsOf, Env.getEnv.
  split; [|split].
  - intros E. rewrite E. reflexivity.
  - intros k rest _ E R. rewrite E. unfold parseInt, number_of_N.
    pose proof (N_digits_are_digits k) as D.
    destruct (N_digits k) as [|c r] eqn:Ek; [now destruct (N_digits_nonempty k)|].
    inversion D as [|? ? Hc Hr]; subst.
    cbn [app dropWhile]. rewrite (digit_not_blank c Hc).
    rewrite (digit_neq c (ch "-") Hc), (digit_neq c (ch "+") Hc) by reflexivity.
    change (c :: r ++ rest) with ((c :: r) ++ rest).
    rewrite (span_digits_app _ _ D R). reflexivity.
  - intros v E [-> | [c [r [-> [W [D [M P]]]]]]]; rewrite E; [reflexivity|].
    unfold parseInt. cbn [dropWhile]. rewrite W.
    apply N.eqb_neq in M, P. rewrite M, P. cbn [span_digits]. now rewrite D.
Qed.

Lemma maxResults_from_environment_witness :
  Env.maxResultsOf (fun key => if text_eqb key (js "MAX_RESULTS") then Some (js "25 per page")
                               else None) = number_of_N 25 /\
  Env.maxResultsOf (fun key => if text_eqb key (js "MAX_RESULTS") then Some (js "ten")
                               else None) = NaN.
Proof.
  split.
  - apply (proj1 (proj2 (maxResults_from_environment _)) 25 (js " per page")).
    + vm_compute. discriminate.
    + reflexivity.
    + intros c r E. inversion E. reflexivity.
  - apply (proj2 (proj2 (maxResults_from_environment _)) (js "ten")).
    + reflexivity.
    + right. exists (ch "t"), (js "en"). repeat split; discriminate.
Defined.

(* ===================================================================== *)
(** * The terminal interface                                             *)
(* ===================================================================== *)

Lemma handleSetCommand_inSync (toLowerCase : text -> text) (args : list text)
    (g : AirweaveCLI.Globals) :
  inSync g -> inSync (AirweaveCLI.handleSetCommand toLowerCase args g).
Proof.
  intros [K C]. unfold AirweaveCLI.handleSetCommand.
  destruct (length args <? 2)%nat; [now split|].
  destruct args as [|arg0 rest]; [now split|]. cbv zeta.
  destruct (text_eqb (toLowerCase arg0) (js "api-key") ||
            text_eqb (toLowerCase arg0) (js "apikey")); [now split|].
  destruct (text_eqb (toLowerCase arg0) (js "collection-id") ||
            text_eqb (toLowerCase arg0) (js "collectionid") ||
            text_eqb (toLowerCase arg0) (js "collection")); now split.
Qed.

(** What a [/set] command never touches. *)
Lemma handleSetCommand_keeps (toLowerCase : text -> text) (args : list text)
    (g : AirweaveCLI.Globals) :
  AirweaveClient.baseUrl (AirweaveCLI.airweaveClient (AirweaveCLI.handleSetCommand toLowerCase args g))
  = AirweaveClient.baseUrl (AirweaveCLI.airweaveClient g) /\
  llmProvider (AirweaveCLI.config (AirweaveCLI.handleSetCommand toLowerCase args g))
  = llmProvider (AirweaveCLI.config g) /\
  googleApiKey (AirweaveCLI.config (AirweaveCLI.handleSetCommand toLowerCase args g))
  = googleApiKey (AirweaveCLI.config g) /\
  openaiApiKey (AirweaveCLI.config (AirweaveCLI.handleSetCommand toLowerCase args g))
  = openaiApiKey (AirweaveCLI.config g) /\
  anthropicApiKey (AirweaveCLI.config (AirweaveCLI.handleSetCommand toLowerCase args g))
  = anthropicApiKey (AirweaveCLI.config g).
Proof.
  unfold AirweaveCLI.handleSetCommand.
  destruct (length args <? 2)%nat; [now repeat split|].
  destruct args as [|arg0 rest]; [now repeat split|]. cbv zeta.
  destruct (text_eqb (toLowerCase arg0) (js "api-key") ||
            text_eqb (toLowerCase arg0) (js "apikey")); [now repeat split|].
  destruct (text_eqb (toLowerCase arg0) (js "collection-id") ||
            text_eqb (toLowerCase arg0) (js "collectionid") ||
            text_eqb (toLowerCase arg0) (js "collection")); now repeat split.
Qed.

Lemma fold_set_commands (toLowerCase : text -> text) (commands : list (list text)) :
  forall g,
    inSync g ->
    inSync (fold_left (fun g args => AirweaveCLI.handleSetCommand toLowerCase args g) commands g) /\
    AirweaveClient.baseUrl
      (AirweaveCLI.airweaveClient
         (fold_left (fun g args => AirweaveCLI.handleSetCommand toLowerCase args g) commands g))
    = AirweaveClient.baseUrl (AirweaveCLI.airweaveClient g) /\
    llmProvider
      (AirweaveCLI.config
         (fold_left (fun g args => AirweaveCLI.handleSetCommand toLowerCase args g) commands g))
    = llmProvider (AirweaveCLI.config g) /\
    googleApiKey
      (AirweaveCLI.config
         (fold_left (fun g args => AirweaveCLI.handleSetCommand toLowerCase args g) commands g))
    = googleApiKey (AirweaveCLI.config g) /\
    openaiApiKey
      (AirweaveCLI.config
         (fold_left (fun g args => AirweaveCLI.handleSetCommand toLowerCase args g) commands g))
    = openaiApiKey (AirweaveCLI.config g) /\
    anthropicApiKey
      (AirweaveCLI.config
         (fold_left (fun g args => AirweaveCLI.handleSetCommand toLowerCase args g) commands g))
    = anthropicApiKey (AirweaveCLI.config g).
Proof.
  induction commands as [|args commands IH]; intros g H;
    [split; [exact H | repeat split]|].
  cbn [fold_left].
  destruct (IH _ (handleSetCommand_inSync toLowerCase args g H)) as [I [B [L [G [O A]]]]].
  destruct (handleSetCommand_keeps toLowerCase args g) as [B' [L' [G' [O' A']]]].
  split; [exact I | repeat split; congruence].
Qed.

(** X22. The [/set] commands keep the client and the configuration in
    step.  Starting from the client built from the configuration, after
    any sequence of [/set] commands the client holds the credential and
    the collection identifier that the configuration holds, its base
    address is still the configured one, and the configuration is valid
    exactly when the client and the AI service are configured.  A
    command with fewer than two words after [/set] changes nothing. *)
Theorem set_commands_keep_client_and_configuration_in_step (toLowerCase : text -> text)
    (cfg : AppConfig) (commands : list (list text)) :
  inSync (afterSetCommands toLowerCase cfg commands) /\
  AirweaveClient.baseUrl (AirweaveCLI.airweaveClient (afterSetCommands toLowerCase cfg commands))
  = airweaveApiUrl cfg /\
  Env.valid (Env.isConfigValid (AirweaveCLI.config (afterSetCommands toLowerCase cfg commands)))
  = AirweaveClient.isConfigured
      (AirweaveCLI.airweaveClient (afterSetCommands toLowerCase cfg commands)) &&
    AIService.isConfigured cfg (AIService.new cfg) /\
  (forall g args, (length args < 2)%nat -> AirweaveCLI.handleSetCommand toLowerCase args g = g).
Proof.
  unfold afterSetCommands.
  destruct (fold_set_commands toLowerCase commands (startGlobals cfg))
    as [[K C] [B [L [G [O A]]]]]; [now split|].
  split; [now split|]. split; [exact B|]. split.
  - unfold AirweaveClient.isConfigured. rewrite K, C.
    unfold Env.isConfigValid, AIService.isConfigured, AIService.new.
    cbv zeta. cbn [Env.valid AIService.provider]. rewrite L, G, O, A.
    cbn [AirweaveCLI.config startGlobals].
    destruct (nonEmpty (airweaveApiKey _)), (nonEmpty (airweaveCollectionId _)),
      (llmProvider cfg);
      cbn [negb app andb];
      match goal with
      | |- context [AIService.keyPresent ?k] => destruct (AIService.keyPresent k)
      end; reflexivity.
  - intros g args H. unfold AirweaveCLI.handleSetCommand.
    apply Nat.ltb_lt in H. now rewrite H.
Qed.

Lemma set_commands_keep_client_and_configuration_in_step_witness :
  inSync (afterSetCommands asciiLowerCase demoConfig
            [[js "API-Key"; js "key-123"]; [js "collection"; js "my"; js "notes"]; [js "url"]]) /\
  AirweaveCLI.handleSetCommand asciiLowerCase [js "api-key"] (startGlobals demoConfig)
  = startGlobals demoConfig.
Proof.
  destruct (set_commands_keep_client_and_configuration_in_step asciiLowerCase demoConfig
              [[js "API-Key"; js "key-123"]; [js "collection"; js "my"; js "notes"]; [js "url"]])
    as [S [_ [_ F]]].
  split; [exact S|]. apply F. cbn. lia.
Defined.

(** X23. The commands [/debug] and [/collections] never raise, and they
    do not contact the collaborator for a client that is not configured:
    the log of requests is left as it was.  For a configured client each
    of them sends exactly one GET request to the collections address. *)
Theorem cli_commands_guard_the_network (client : AirweaveClient.t) (w : World) :
  exists w1 w2,
    AirweaveCLI.debugConnection client w = (Returned tt, w1) /\
    AirweaveCLI.listCollections client w = (Returned tt, w2) /\
    sent w1 = sent w2 /\
    sent w1 = (if AirweaveClient.isConfigured client
               then sent w ++ [AirweaveClient.collectionsRequest client]
               else sent w).
Proof.
  unfold AirweaveCLI.debugConnection, AirweaveCLI.listCollections.
  destruct (AirweaveClient.isConfigured client); cbn [negb].
  - cbn [bind Monad_M try_catch MonadThrow_M].
    rewrite testConnection_eq, listCollections_eq.
    destruct (match network w _ with NetworkFailure e => _ | HttpResponse _ _ _ => _ end);
      eexists _, _; repeat split; reflexivity.
  - eexists _, _; repeat split; reflexivity.
Qed.
